(** * SQLiteAgent: the natural-language-to-SQL pipeline

    A shallow embedding of the query pipeline of the repository:

    - [app/services/natural_language_parser.py]  (module [NaturalLanguageParser])
    - [app/services/sqlite_manager.py]           (module [SQLiteManager], rule layer)
    - [app/services/ai_query_processor.py]       (module [AIQueryProcessor])
    - [app/models/ai_service.py]                 (module [AIService])
    - [app/models/schemas.py]                    (records and enums, module [Schemas])
    - [app/models/database.py]                   (module [DatabaseModel]; the path
      table of [sqlite_manager.py] in [SQLitePaths], the query parameters of
      [app/routes/tables.py] in [TableRoutes])
    - further parts of the files above: the validators of [schemas.py]
      ([RequestValidators]), [suggest_related_queries] ([RelatedQueries]) and
      [generate_database_schema] ([SchemaDesigner])

    Python text is embedded as [string] over 8-bit characters; the
    case-mapping, whitespace and word-character tables below are Python's
    tables restricted to ASCII (code points 0..127), characters above 127 are
    left alone by [lower]/[upper] and are neither whitespace nor word
    characters.  Where a statement fixes the result of the code by these
    tables, it carries the hypothesis that the text is ASCII
    ([PyStr.isascii]).  Python exceptions are values of [exn]; a computation that may raise has
    type [result A]. *)

From Stdlib Require Import String Ascii List Bool Arith ZArith Lia.
From Stdlib Require Import Numbers.DecimalString.
From Stdlib Require Import Floats.PrimFloat.
Import ListNotations.

(* Decimal literals such as 0.3 denote the nearest binary64 value, as in Python. *)
Set Warnings "-inexact-float,-register-all".

Open Scope string_scope.
Open Scope bool_scope.

(* ================================================================== *)
(** ** Python strings *)

Module PyStr.

Definition code (c : ascii) : nat := nat_of_ascii c.

Definition between (lo hi n : nat) : bool := (lo <=? n)%nat && (n <=? hi)%nat.

(** [str.isspace] on ASCII: TAB..CR, FS..US and SPACE. *)
Definition is_space (c : ascii) : bool :=
  let n := code c in between 9 13 n || between 28 32 n.

Definition is_upper (c : ascii) : bool := between 65 90 (code c).
Definition is_lower (c : ascii) : bool := between 97 122 (code c).
Definition is_digit (c : ascii) : bool := between 48 57 (code c).

(** [\w]: letters, digits and the underscore. *)
Definition is_word (c : ascii) : bool :=
  is_upper c || is_lower c || is_digit c || (code c =? 95)%nat.

Definition lower_char (c : ascii) : ascii :=
  if is_upper c then ascii_of_nat (code c + 32) else c.

Definition upper_char (c : ascii) : ascii :=
  if is_lower c then ascii_of_nat (code c - 32) else c.

Fixpoint map_chars (f : ascii -> ascii) (s : string) : string :=
  match s with
  | EmptyString => EmptyString
  | String c s' => String (f c) (map_chars f s')
  end.

(** [s.lower()] and [s.upper()]. *)
Definition lower : string -> string := map_chars lower_char.
Definition upper : string -> string := map_chars upper_char.

(** [s.isascii()]: the texts on which the tables above are Python's. *)
Fixpoint isascii (s : string) : bool :=
  match s with
  | EmptyString => true
  | String c s' => (code c <? 128)%nat && isascii s'
  end.

(** [s.startswith(p)]. *)
Fixpoint startswith (s p : string) : bool :=
  match p, s with
  | EmptyString, _ => true
  | String a p', String b s' => Ascii.eqb a b && startswith s' p'
  | String _ _, EmptyString => false
  end.

(** [needle in hay] for two strings. *)
Fixpoint contains (hay needle : string) : bool :=
  startswith hay needle ||
  match hay with
  | EmptyString => false
  | String _ hay' => contains hay' needle
  end.

Fixpoint lstrip (s : string) : string :=
  match s with
  | String c s' => if is_space c then lstrip s' else s
  | EmptyString => EmptyString
  end.

Fixpoint rstrip (s : string) : string :=
  match s with
  | EmptyString => EmptyString
  | String c s' =>
      match rstrip s' with
      | EmptyString => if is_space c then EmptyString else String c EmptyString
      | r => String c r
      end
  end.

(** [s.strip()]. *)
Definition strip (s : string) : string := rstrip (lstrip s).

(** [s.split(sep)] for a one-character separator. *)
Fixpoint split_on (sep : ascii) (s : string) : list string :=
  match s with
  | EmptyString => [EmptyString]
  | String c s' =>
      if Ascii.eqb c sep then EmptyString :: split_on sep s'
      else match split_on sep s' with
           | w :: ws => String c w :: ws
           | [] => [String c EmptyString]
           end
  end.

(** [sep.join(parts)]. *)
Fixpoint join (sep : string) (parts : list string) : string :=
  match parts with
  | [] => EmptyString
  | [p] => p
  | p :: ps => p ++ sep ++ join sep ps
  end.

Definition mem (x : string) (l : list string) : bool :=
  existsb (String.eqb x) l.

(** The elements of [set(l)]: duplicates removed.  Python leaves the
    iteration order of a set of strings unspecified; the embedding keeps
    one occurrence of each element, and no statement below depends on
    the order. *)
Fixpoint dedup (l : list string) : list string :=
  match l with
  | [] => []
  | x :: l' => if mem x l' then dedup l' else x :: dedup l'
  end.

(** [str(n)] for a non-negative [int]. *)
Definition of_nat (n : nat) : string := NilEmpty.string_of_uint (Nat.to_uint n).

(** [str(z)] for an [int]. *)
Definition of_Z (z : Z) : string := NilEmpty.string_of_int (Z.to_int z).

Definition nl : string := String (ascii_of_nat 10) EmptyString.
Definition dq : string := String (ascii_of_nat 34) EmptyString.

End PyStr.

(* ================================================================== *)
(** ** Python exceptions and values *)

Module Py.

(** An exception: its class name and [str(e)]. *)
Inductive exn : Type := Exn (cls : string) (msg : string).

Definition exn_class (e : exn) : string := let 'Exn c _ := e in c.
Definition str_exn (e : exn) : string := let 'Exn _ m := e in m.

Inductive result (A : Type) : Type :=
| Ok (a : A)
| Raise (e : exn).
Arguments Ok {A} a.
Arguments Raise {A} e.

Definition bind {A B : Type} (x : result A) (f : A -> result B) : result B :=
  match x with
  | Ok a => f a
  | Raise e => Raise e
  end.

(** The values [json.loads] and [response.json()] produce. *)
Inductive value : Type :=
| PNone
| PBool (b : bool)
| PInt (z : Z)
| PFloat (f : float)
| PStr (s : string)
| PList (l : list value)
| PDict (d : list (string * value)).

(** [d.get(key)], the first binding of [key]. *)
Fixpoint lookup {A : Type} (key : string) (d : list (string * A)) : option A :=
  match d with
  | [] => None
  | (k, v) :: d' => if String.eqb k key then Some v else lookup key d'
  end.

Definition type_name (v : value) : string :=
  match v with
  | PNone => "NoneType"
  | PBool _ => "bool"
  | PInt _ => "int"
  | PFloat _ => "float"
  | PStr _ => "str"
  | PList _ => "list"
  | PDict _ => "dict"
  end.

Definition is_str (s : string) (v : value) : bool :=
  match v with PStr t => String.eqb s t | _ => false end.

(** [v[key]] for a string key. *)
Definition getitem_str (v : value) (key : string) : result value :=
  match v with
  | PDict d =>
      match lookup key d with
      | Some x => Ok x
      | None => Raise (Exn "KeyError" ("'" ++ key ++ "'"))
      end
  | PList _ =>
      Raise (Exn "TypeError" "list indices must be integers or slices, not str")
  | PStr _ =>
      Raise (Exn "TypeError" "string indices must be integers, not 'str'")
  | _ =>
      Raise (Exn "TypeError"
               ("'" ++ type_name v ++ "' object is not subscriptable"))
  end.

(** [v[0]]. *)
Definition getitem_0 (v : value) : result value :=
  match v with
  | PList (x :: _) => Ok x
  | PList [] => Raise (Exn "IndexError" "list index out of range")
  | PStr (String c _) => Ok (PStr (String c EmptyString))
  | PStr EmptyString => Raise (Exn "IndexError" "string index out of range")
  | PDict _ => Raise (Exn "KeyError" "0")
  | _ =>
      Raise (Exn "TypeError"
               ("'" ++ type_name v ++ "' object is not subscriptable"))
  end.

(** [v.strip()]. *)
Definition strip_method (v : value) : result string :=
  match v with
  | PStr s => Ok (PyStr.strip s)
  | _ =>
      Raise (Exn "AttributeError"
               ("'" ++ type_name v ++ "' object has no attribute 'strip'"))
  end.

(** [key in v]. *)
Definition contains_str (key : string) (v : value) : result bool :=
  match v with
  | PDict d => Ok (match lookup key d with Some _ => true | None => false end)
  | PList l => Ok (existsb (is_str key) l)
  | PStr s => Ok (PyStr.contains s key)
  | _ =>
      Raise (Exn "TypeError"
               ("argument of type '" ++ type_name v ++ "' is not iterable"))
  end.

Fixpoint chars (s : string) : list value :=
  match s with
  | EmptyString => []
  | String c s' => PStr (String c EmptyString) :: chars s'
  end.

(** The elements [list.extend(v)] appends. *)
Definition iterate (v : value) : result (list value) :=
  match v with
  | PList l => Ok l
  | PStr s => Ok (chars s)
  | PDict d => Ok (map (fun kv => PStr (fst kv)) d)
  | _ =>
      Raise (Exn "TypeError" ("'" ++ type_name v ++ "' object is not iterable"))
  end.

(** [v.get(key, default)]. *)
Definition get_method (v : value) (key : string) (default : value)
  : result value :=
  match v with
  | PDict d => Ok (match lookup key d with Some x => x | None => default end)
  | _ =>
      Raise (Exn "AttributeError"
               ("'" ++ type_name v ++ "' object has no attribute 'get'"))
  end.

End Py.

Import Py.

Declare Scope py_scope.
Delimit Scope py_scope with py.
Notation "x <- c1 ;; c2" := (Py.bind c1 (fun x => c2))
  (at level 61, c1 at next level, right associativity) : py_scope.
Open Scope py_scope.

(* ================================================================== *)
(** ** The fragment of Python's [re] the parser uses

    Patterns are kept as the source writes them and compiled by
    [compile]; [search] and [finditer] are a backtracking matcher with
    ordered alternation, greedy quantifiers and numbered capture groups,
    which is how [re] matches.  Every call of the source passes
    [re.IGNORECASE], so literals are compared case-insensitively. *)

Module Re.

Inductive citem : Type :=
| CChar (c : ascii)
| CWord                       (* \w *)
| CSpace                      (* \s *)
| CDigit.                     (* \d *)

Inductive regex : Type :=
| Empty
| Class (items : list citem)  (* one character out of the items *)
| WordB                       (* \b *)
| Cat (r1 r2 : regex)
| Alt (r1 r2 : regex)
| Star (r : regex)
| Plus (r : regex)
| Opt (r : regex)
| Group (n : nat) (r : regex).

Definition Lit (c : ascii) : regex := Class [CChar c].

(** *** Compiling a pattern *)

Definition escape (c : ascii) : option regex :=
  if Ascii.eqb c "b" then Some WordB
  else if Ascii.eqb c "w" then Some (Class [CWord])
  else if Ascii.eqb c "s" then Some (Class [CSpace])
  else if Ascii.eqb c "d" then Some (Class [CDigit])
  else if PyStr.is_word c then None
  else Some (Lit c).

Definition class_escape (c : ascii) : option citem :=
  if Ascii.eqb c "w" then Some CWord
  else if Ascii.eqb c "s" then Some CSpace
  else if Ascii.eqb c "d" then Some CDigit
  else if PyStr.is_word c then None
  else Some (CChar c).

(** The items of a character class, up to the closing bracket.  Ranges
    and negation are not used by the source and are refused. *)
Fixpoint class_items (s : string) : option (list citem * string) :=
  match s with
  | EmptyString => None
  | String c s' =>
      if Ascii.eqb c "]" then Some ([], s')
      else if Ascii.eqb c "^" || Ascii.eqb c "-" || Ascii.eqb c "[" then None
      else if Ascii.eqb c "\" then
        match s' with
        | String e s'' =>
            match class_escape e, class_items s'' with
            | Some i, Some (its, rest) => Some (i :: its, rest)
            | _, _ => None
            end
        | EmptyString => None
        end
      else
        match class_items s' with
        | Some (its, rest) => Some (CChar c :: its, rest)
        | None => None
        end
  end.

Definition cat (r1 r2 : regex) : regex :=
  match r1 with
  | Empty => r2
  | _ => Cat r1 r2
  end.

(** A postfix quantifier, if one follows the atom. *)
Definition quantified (r : regex) (s : string) : regex * string :=
  match s with
  | String c s' =>
      if Ascii.eqb c "*" then (Star r, s')
      else if Ascii.eqb c "+" then (Plus r, s')
      else if Ascii.eqb c "?" then (Opt r, s')
      else (r, s)
  | EmptyString => (r, s)
  end.

Definition unsupported (c : ascii) : bool :=
  existsb (Ascii.eqb c) ["."%char; "^"%char; "$"%char; "{"%char; "}"%char;
                         "*"%char; "+"%char; "?"%char; "]"%char].

(** [alternation fuel s n]: an alternation, read up to a closing
    parenthesis or the end of the pattern; [n] is the number of capture
    groups opened so far. *)
Fixpoint alternation (fuel : nat) (s : string) (n : nat)
  : option (regex * string * nat) :=
  match fuel with
  | O => None
  | S fuel' =>
      let fix sequence (g : nat) (acc : regex) (s : string) (n : nat)
        {struct g} : option (regex * string * nat) :=
        match g with
        | O => None
        | S g' =>
            match s with
            | EmptyString => Some (acc, s, n)
            | String c s' =>
                if Ascii.eqb c "|" || Ascii.eqb c ")" then Some (acc, s, n)
                else if Ascii.eqb c "(" then
                  if PyStr.startswith s' "?:" then
                    match alternation fuel' (substring 2 (String.length s') s') n with
                    | Some (r, String ")" s2, n2) =>
                        let (a, s3) := quantified r s2 in
                        sequence g' (cat acc a) s3 n2
                    | _ => None
                    end
                  else
                    match alternation fuel' s' (S n) with
                    | Some (r, String ")" s2, n2) =>
                        let (a, s3) := quantified (Group (S n) r) s2 in
                        sequence g' (cat acc a) s3 n2
                    | _ => None
                    end
                else if Ascii.eqb c "[" then
                  match class_items s' with
                  | Some (its, s2) =>
                      let (a, s3) := quantified (Class its) s2 in
                      sequence g' (cat acc a) s3 n
                  | None => None
                  end
                else if Ascii.eqb c "\" then
                  match s' with
                  | String e s2 =>
                      match escape e with
                      | Some r =>
                          let (a, s3) := quantified r s2 in
                          sequence g' (cat acc a) s3 n
                      | None => None
                      end
                  | EmptyString => None
                  end
                else if unsupported c then None
                else
                  let (a, s3) := quantified (Lit c) s' in
                  sequence g' (cat acc a) s3 n
            end
        end in
      match sequence (S (String.length s)) Empty s n with
      | Some (r1, String "|" s', n1) =>
          match alternation fuel' s' n1 with
          | Some (r2, s2, n2) => Some (Alt r1 r2, s2, n2)
          | None => None
          end
      | other => other
      end
  end.

(** [re.compile(pattern)]: the expression and its number of groups. *)
Definition compile (pattern : string) : option (regex * nat) :=
  match alternation (S (String.length pattern)) pattern 0 with
  | Some (r, EmptyString, n) => Some (r, n)
  | _ => None
  end.

(** *** Matching *)

Record mstate : Type := {
  prev : option ascii;          (* the character before the position *)
  rest : string;                (* the text from the position on *)
  pos : nat;
  caps : list (nat * string)    (* the groups captured so far, latest first *)
}.

Definition cont : Type := mstate -> option mstate.

Definition item_matches (c : ascii) (i : citem) : bool :=
  match i with
  | CChar d => Ascii.eqb (PyStr.lower_char d) (PyStr.lower_char c)
  | CWord => PyStr.is_word c
  | CSpace => PyStr.is_space c
  | CDigit => PyStr.is_digit c
  end.

Definition word_before (st : mstate) : bool :=
  match prev st with Some c => PyStr.is_word c | None => false end.

Definition word_after (st : mstate) : bool :=
  match rest st with String c _ => PyStr.is_word c | EmptyString => false end.

Definition at_boundary (st : mstate) : bool :=
  xorb (word_before st) (word_after st).

Definition advance (st : mstate) (c : ascii) (s' : string) : mstate :=
  {| prev := Some c; rest := s'; pos := S (pos st); caps := caps st |}.

Definition capture (n : nat) (from to : mstate) : mstate :=
  {| prev := prev to; rest := rest to; pos := pos to;
     caps := (n, substring 0 (pos to - pos from) (rest from)) :: caps to |}.

(** Greedy repetition of [step]; an iteration has to consume a character
    (the expressions repeated by the source always do), so the remaining
    length bounds the number of iterations. *)
Fixpoint star (step : mstate -> cont -> option mstate) (fuel : nat)
  (st : mstate) (k : cont) : option mstate :=
  match fuel with
  | O => k st
  | S fuel' =>
      match step st (fun st' => if (pos st <? pos st')%nat
                                then star step fuel' st' k else None) with
      | Some res => Some res
      | None => k st
      end
  end.

Fixpoint run (r : regex) (st : mstate) (k : cont) {struct r} : option mstate :=
  match r with
  | Empty => k st
  | Class items =>
      match rest st with
      | String c s' =>
          if existsb (item_matches c) items then k (advance st c s') else None
      | EmptyString => None
      end
  | WordB => if at_boundary st then k st else None
  | Cat a b => run a st (fun st' => run b st' k)
  | Alt a b =>
      match run a st k with
      | Some res => Some res
      | None => run b st k
      end
  | Star a => star (run a) (S (String.length (rest st))) st k
  | Plus a =>
      run a st (fun st' => star (run a) (S (String.length (rest st'))) st' k)
  | Opt a =>
      match run a st k with
      | Some res => Some res
      | None => k st
      end
  | Group n a => run a st (fun st' => k (capture n st st'))
  end.

(** A match object; [m_fin] is the matcher's state at the end of the match. *)
Record rmatch : Type := {
  m_start : nat;
  m_text : string;              (* match.group(0) *)
  m_ngroups : nat;              (* len(match.groups()) *)
  m_fin : mstate
}.

Definition m_end (m : rmatch) : nat := pos (m_fin m).

Fixpoint assoc (n : nat) (l : list (nat * string)) : option string :=
  match l with
  | [] => None
  | (k, v) :: l' => if (k =? n)%nat then Some v else assoc n l'
  end.

(** [match.group(n)] for [n >= 1]: [None] when the group took no part. *)
Definition group (m : rmatch) (n : nat) : option string :=
  assoc n (caps (m_fin m)).

(** The leftmost match at or after the position. *)
Fixpoint scan (r : regex) (ng : nat) (p : option ascii) (s : string) (i : nat)
  : option rmatch :=
  match run r {| prev := p; rest := s; pos := i; caps := [] |} Some with
  | Some fin =>
      Some {| m_start := i; m_text := substring 0 (pos fin - i) s;
              m_ngroups := ng; m_fin := fin |}
  | None =>
      match s with
      | String c s' => scan r ng (Some c) s' (S i)
      | EmptyString => None
      end
  end.

(** The successive non-overlapping matches, left to right. *)
Fixpoint scan_all (fuel : nat) (r : regex) (ng : nat) (p : option ascii)
  (s : string) (i : nat) : list rmatch :=
  match fuel with
  | O => []
  | S fuel' =>
      match scan r ng p s i with
      | None => []
      | Some m =>
          let fin := m_fin m in
          if (m_start m <? pos fin)%nat
          then m :: scan_all fuel' r ng (prev fin) (rest fin) (pos fin)
          else match rest fin with
               | String c s' => m :: scan_all fuel' r ng (Some c) s' (S (pos fin))
               | EmptyString => [m]
               end
      end
  end.

(** [re.search(pattern, s, re.IGNORECASE)]. *)
Definition search (pattern s : string) : option rmatch :=
  match compile pattern with
  | Some (r, ng) => scan r ng None s 0
  | None => None
  end.

(** [list(re.finditer(pattern, s, re.IGNORECASE))]. *)
Definition finditer (pattern s : string) : list rmatch :=
  match compile pattern with
  | Some (r, ng) => scan_all (S (String.length s)) r ng None s 0
  | None => []
  end.

Definition found (pattern s : string) : bool :=
  match search pattern s with Some _ => true | None => false end.

End Re.

(* ================================================================== *)
(** ** [app/models/schemas.py] *)

Module Schemas.

Inductive QueryType : Type :=
| SELECT | INSERT | UPDATE | DELETE | CREATE | DROP | DESCRIBE | COUNT
| AGGREGATE | UNKNOWN.

Definition QueryType_eqb (a b : QueryType) : bool :=
  match a, b with
  | SELECT, SELECT | INSERT, INSERT | UPDATE, UPDATE | DELETE, DELETE
  | CREATE, CREATE | DROP, DROP | DESCRIBE, DESCRIBE | COUNT, COUNT
  | AGGREGATE, AGGREGATE | UNKNOWN, UNKNOWN => true
  | _, _ => false
  end.

Inductive RiskLevel : Type := LOW | MEDIUM | HIGH.

Definition RiskLevel_eqb (a b : RiskLevel) : bool :=
  match a, b with
  | LOW, LOW | MEDIUM, MEDIUM | HIGH, HIGH => true
  | _, _ => false
  end.

(** The entries of [filters], [aggregations] and [sorting]; a field
    holding [match.group(n)] is an [option], as in Python. *)
Record Filter : Type := {
  f_column : option string;
  f_operator : option string;
  f_value : string
}.

Record Aggregation : Type := {
  a_function : string;
  a_column : option string
}.

Record Sorting : Type := {
  s_column : option string;
  s_direction : string
}.

(** [ParsedQuery]; the same fields as the dictionary [parse_query] builds. *)
Record ParsedQuery : Type := {
  original_query : string;
  query_type : QueryType;
  tables : list string;
  columns : list string;
  filters : list Filter;
  aggregations : list Aggregation;
  sorting : option Sorting;
  limit : option Z;
  confidence : float;
  suggestions : list string
}.

(** [str(e)] of the [ValidationError] pydantic raises for a model class
    on the inputs it refused.  The text names the fields, the inputs and
    a page of the documentation of the installed version, so it is read
    from the environment. *)
Definition ErrorText : Type := string -> list value -> string.

(** The constructor call [ParsedQuery] on the parsed dictionary: the one
    constraint the model declares
    is [confidence: float = Field(ge=0.0, le=1.0)]; the other fields
    already have their declared types. *)
Definition ParsedQuery_new (describe : ErrorText) (parsed_info : ParsedQuery)
  : result ParsedQuery :=
  if PrimFloat.leb 0.0%float (confidence parsed_info)
     && PrimFloat.leb (confidence parsed_info) 1.0%float
  then Ok parsed_info
  else Raise (Exn "ValidationError"
                (describe "ParsedQuery" [PFloat (confidence parsed_info)])).

(** A cell of a result row, as [sqlite3] returns it. *)
Inductive SqlValue : Type :=
| SqlNull
| SqlInt (z : Z)
| SqlReal (f : float)
| SqlText (s : string)
| SqlBlob (b : string).

Definition Row : Type := list (string * SqlValue).

(** [QueryResult]; [DatabaseModel.execute_query] returns a dictionary
    with a subset of these keys. *)
Record QueryResult : Type := {
  qr_success : bool;
  qr_data : option (list Row);
  qr_columns : option (list string);
  qr_row_count : option Z;
  qr_rows_affected : option Z;
  qr_message : option string;
  qr_error : option string;
  qr_execution_time : option float
}.

Record ColumnInfo : Type := {
  ci_name : string;
  ci_type : string;
  ci_not_null : bool;
  ci_default_value : option string;
  ci_primary_key : bool
}.

Record TableInfo : Type := {
  ti_name : string;
  ti_columns : list ColumnInfo;
  ti_row_count : Z
}.

(** The dictionary [DatabaseModel.get_database_schema] builds. *)
Record Schema : Type := {
  sc_database_id : string;
  sc_tables : list (string * TableInfo);
  sc_total_tables : Z;
  sc_total_size : Z
}.

Record AIQueryResponse : Type := {
  success : bool;
  sql_query : option string;
  original_prompt : string;
  parsed_info : option ParsedQuery;
  query_result : option QueryResult;
  explanation : option string;
  error : option string;
  processing_time : option float
}.

Record QuerySafetyAnalysis : Type := {
  safe : bool;
  risk_level : RiskLevel;
  warnings : list string;
  recommendations : list string
}.

(** [RiskLevel(v)]. *)
Definition RiskLevel_of (v : value) : result RiskLevel :=
  match v with
  | PStr s =>
      if String.eqb s "low" then Ok LOW
      else if String.eqb s "medium" then Ok MEDIUM
      else if String.eqb s "high" then Ok HIGH
      else Raise (Exn "ValueError" ("'" ++ s ++ "' is not a valid RiskLevel"))
  | _ => Raise (Exn "ValueError" "value is not a valid RiskLevel")
  end.

(** Validation of a [bool] field (pydantic, lax mode): booleans, the
    numbers 0 and 1, and the usual spellings of true and false. *)
Definition validate_bool (v : value) : option bool :=
  match v with
  | PBool b => Some b
  | PInt 0 => Some false
  | PInt 1 => Some true
  | PFloat f =>
      if PrimFloat.eqb f 0.0%float then Some false
      else if PrimFloat.eqb f 1.0%float then Some true
      else None
  | PStr s =>
      let t := PyStr.lower s in
      if PyStr.mem t ["1"; "on"; "t"; "true"; "y"; "yes"] then Some true
      else if PyStr.mem t ["0"; "off"; "f"; "false"; "n"; "no"] then Some false
      else None
  | _ => None
  end.

(** Validation of a [List[str]] field: every element has to be a string. *)
Fixpoint validate_str_list (l : list value) : option (list string) :=
  match l with
  | [] => Some []
  | PStr s :: l' =>
      match validate_str_list l' with
      | Some r => Some (s :: r)
      | None => None
      end
  | _ :: _ => None
  end.

(** [QuerySafetyAnalysis(safe=..., risk_level=..., warnings=...,
    recommendations=...)] on Python values. *)
Definition QuerySafetyAnalysis_new (describe : ErrorText) (safe0 : value)
  (risk : RiskLevel) (warnings0 recommendations0 : list value)
  : result QuerySafetyAnalysis :=
  match validate_bool safe0, validate_str_list warnings0,
        validate_str_list recommendations0 with
  | Some b, Some ws, Some rs =>
      Ok {| safe := b; risk_level := risk; warnings := ws;
            recommendations := rs |}
  | _, _, _ =>
      Raise (Exn "ValidationError"
               (describe "QuerySafetyAnalysis"
                  [safe0; PList warnings0; PList recommendations0]))
  end.

End Schemas.

(* ================================================================== *)
(** ** [app/services/natural_language_parser.py] *)

Module NaturalLanguageParser.
Import Schemas.

(** *** [_init_patterns] *)

Definition select_keywords : list string :=
  [ "\b(show|display|list|get|find|select|retrieve)\b";
    "\b(what|which|how many)\b";
    "\b(all|every)\s+\w+" ].

Definition count_keywords : list string :=
  [ "\b(count|number of|how many|total)\b";
    "\b(sum|average|avg|max|min)\b" ].

Definition filter_keywords : list string :=
  [ "\bwhere\b";
    "\b(with|having|contains|includes)\b";
    "\b(greater than|less than|equal to|equals)\b";
    "\b(>|<|=|>=|<=|!=)\b" ].

Definition insert_keywords : list string :=
  [ "\b(add|insert|create|new)\b";
    "\b(record|entry|row)\b" ].

Definition update_keywords : list string :=
  [ "\b(update|modify|change|edit)\b";
    "\b(set|to)\b" ].

Definition delete_keywords : list string :=
  [ "\b(delete|remove|drop)\b" ].

Definition table_indicators : list string :=
  [ "\b(table|from)\s+(\w+)\b";
    "\b(in|on)\s+(\w+)\s+(table)?\b" ].

Definition column_indicators : list string :=
  [ "\b(column|field)\s+(\w+)\b";
    "\b(\w+)\s+(column|field)\b" ].

Definition sort_keywords : list string :=
  [ "\b(sort|order)\s+by\b";
    "\b(ascending|descending|asc|desc)\b" ].

Definition limit_keywords : list string :=
  [ "\b(limit|top|first)\s+(\d+)\b";
    "\b(\d+)\s+(rows?|records?)\b" ].

(** [for pattern in patterns: if re.search(pattern, query): return ...]. *)
Definition any_found (patterns : list string) (query : string) : bool :=
  existsb (fun pattern => Re.found pattern query) patterns.

(** *** [_determine_query_type] *)
Definition _determine_query_type (query : string) : QueryType :=
  if any_found count_keywords query then COUNT
  else if any_found select_keywords query then SELECT
  else if any_found insert_keywords query then INSERT
  else if any_found update_keywords query then UPDATE
  else if any_found delete_keywords query then DELETE
  else UNKNOWN.

(** The matches of all the patterns, pattern by pattern. *)
Definition all_matches (patterns : list string) (query : string)
  : list Re.rmatch :=
  flat_map (fun pattern => Re.finditer pattern query) patterns.

Definition truthy (s : option string) : bool :=
  match s with
  | Some (String _ _) => true
  | _ => false
  end.

(** The names the loop over the matches appends: [match.group(1)] when
    it is non-empty and not one of the excluded words. *)
Fixpoint group1_names (excluded : list string) (ms : list Re.rmatch)
  : list string :=
  match ms with
  | [] => []
  | m :: ms' =>
      if (0 <? Re.m_ngroups m)%nat then
        match Re.group m 1 with
        | Some name =>
            if truthy (Some name) && negb (PyStr.mem name excluded)
            then name :: group1_names excluded ms'
            else group1_names excluded ms'
        | None => group1_names excluded ms'
        end
      else group1_names excluded ms'
  end.

Definition common_table_words : list string :=
  ["users"; "products"; "orders"; "customers"; "items"; "data"].

(** [if word in query and word not in tables: tables.append(word)]. *)
Fixpoint add_common (words : list string) (query : string)
  (tables : list string) : list string :=
  match words with
  | [] => tables
  | word :: words' =>
      if PyStr.contains query word && negb (PyStr.mem word tables)
      then add_common words' query (tables ++ [word])%list
      else add_common words' query tables
  end.

(** *** [_extract_tables] *)
Definition _extract_tables (query : string) : list string :=
  let tables :=
    group1_names ["table"; "from"; "in"; "on"]
      (all_matches table_indicators query) in
  PyStr.dedup (add_common common_table_words query tables).

Definition select_pattern : string :=
  "\b(show|get|display)\s+(\w+(?:,\s*\w+)*)\b".

(** [columns.extend([col.strip() for col in match.group(2).split(',')])]. *)
Fixpoint select_columns (ms : list Re.rmatch) : result (list string) :=
  match ms with
  | [] => Ok []
  | m :: ms' =>
      if (1 <? Re.m_ngroups m)%nat then
        match Re.group m 2 with
        | Some column_list =>
            more <- select_columns ms' ;;
            Ok (map PyStr.strip (PyStr.split_on "," column_list) ++ more)%list
        | None =>
            Raise (Exn "AttributeError"
                     "'NoneType' object has no attribute 'split'")
        end
      else select_columns ms'
  end.

(** *** [_extract_columns] *)
Definition _extract_columns (query : string) : result (list string) :=
  let columns :=
    group1_names ["column"; "field"] (all_matches column_indicators query) in
  more <- select_columns (Re.finditer select_pattern query) ;;
  Ok (PyStr.dedup (columns ++ more)%list).

Definition where_patterns : list string :=
  [ "\bwhere\s+(\w+)\s*(=|>|<|>=|<=|!=|like)\s*([\w\s\'" ++ PyStr.dq ++ "]+)";
    "\b(\w+)\s+(is|equals?|contains?)\s+([\w\s\'" ++ PyStr.dq ++ "]+)";
    "\b(\w+)\s+(greater than|less than|equal to)\s+([\w\s\'" ++ PyStr.dq ++ "]+)" ].

Fixpoint filters_of (ms : list Re.rmatch) : result (list Filter) :=
  match ms with
  | [] => Ok []
  | m :: ms' =>
      if (3 <=? Re.m_ngroups m)%nat then
        match Re.group m 3 with
        | Some v =>
            more <- filters_of ms' ;;
            Ok ({| f_column := Re.group m 1;
                   f_operator := Re.group m 2;
                   f_value := PyStr.strip v |} :: more)
        | None =>
            Raise (Exn "AttributeError"
                     "'NoneType' object has no attribute 'strip'")
        end
      else filters_of ms'
  end.

(** *** [_extract_filters] *)
Definition _extract_filters (query : string) : result (list Filter) :=
  filters_of (all_matches where_patterns query).

Definition agg_patterns : list string :=
  [ "\b(count|sum|average|avg|max|min)\s+(?:of\s+)?(\w+)";
    "\b(total|number of)\s+(\w+)";
    "\bhow many\s+(\w+)" ].

Definition normalize_function (func : string) : string :=
  if PyStr.mem func ["total"; "number of"; "how many"] then "count"
  else if String.eqb func "average" then "avg"
  else func.

Fixpoint aggregations_of (ms : list Re.rmatch) : result (list Aggregation) :=
  match ms with
  | [] => Ok []
  | m :: ms' =>
      match Re.group m 1 with
      | Some g1 =>
          more <- aggregations_of ms' ;;
          Ok ({| a_function := normalize_function (PyStr.lower g1);
                 a_column := if (1 <? Re.m_ngroups m)%nat
                             then Re.group m 2 else Some "*" |} :: more)
      | None =>
          Raise (Exn "AttributeError"
                   "'NoneType' object has no attribute 'lower'")
      end
  end.

(** *** [_extract_aggregations] *)
Definition _extract_aggregations (query : string) : result (list Aggregation) :=
  aggregations_of (all_matches agg_patterns query).

Definition sort_patterns : list string :=
  [ "\border\s+by\s+(\w+)\s*(asc|desc|ascending|descending)?";
    "\bsort\s+by\s+(\w+)\s*(asc|desc|ascending|descending)?" ].

(** The first pattern that matches, with its match. *)
Fixpoint first_match (patterns : list string) (query : string)
  : option Re.rmatch :=
  match patterns with
  | [] => None
  | pattern :: patterns' =>
      match Re.search pattern query with
      | Some m => Some m
      | None => first_match patterns' query
      end
  end.

(** *** [_extract_sorting] *)
Definition _extract_sorting (query : string) : option Sorting :=
  match first_match sort_patterns query with
  | Some m =>
      let direction :=
        if (1 <? Re.m_ngroups m)%nat && truthy (Re.group m 2) then
          match Re.group m 2 with
          | Some g2 =>
              if PyStr.mem (PyStr.lower g2) ["desc"; "descending"]
              then "DESC" else "ASC"
          | None => "ASC"
          end
        else "ASC" in
      Some {| s_column := Re.group m 1; s_direction := direction |}
  | None => None
  end.

Definition limit_patterns : list string :=
  [ "\blimit\s+(\d+)"; "\btop\s+(\d+)"; "\bfirst\s+(\d+)"; "\b(\d+)\s+rows?" ].

(** The value of a string of decimal digits. *)
Fixpoint digits_value (acc : Z) (s : string) : option Z :=
  match s with
  | EmptyString => Some acc
  | String c s' =>
      if PyStr.is_digit c
      then digits_value (10 * acc + Z.of_nat (PyStr.code c - 48)) s'
      else None
  end.

(** [sys.get_int_max_str_digits()], the default of CPython. *)
Definition int_max_str_digits : nat := 4300.

(** [int(s)] on what the patterns capture, a run of decimal digits or
    [None]: a run of more than [int_max_str_digits] digits is refused. *)
Definition int_of (s : option string) : result Z :=
  match s with
  | Some (String c s' as t) =>
      match digits_value 0 t with
      | Some z =>
          if (int_max_str_digits <? String.length t)%nat then
            Raise (Exn "ValueError"
                     ("Exceeds the limit (4300 digits) for integer string conversion: value has "
                      ++ PyStr.of_nat (String.length t)
                      ++ " digits; use sys.set_int_max_str_digits() to increase the limit"))
          else Ok z
      | None =>
          Raise (Exn "ValueError"
                   ("invalid literal for int() with base 10: '" ++ t ++ "'"))
      end
  | Some EmptyString =>
      Raise (Exn "ValueError" "invalid literal for int() with base 10: ''")
  | None =>
      Raise (Exn "TypeError"
               "int() argument must be a string, a bytes-like object or a real number, not 'NoneType'")
  end.

(** *** [_extract_limit] *)
Definition _extract_limit (query : string) : result (option Z) :=
  match first_match limit_patterns query with
  | Some m => z <- int_of (Re.group m 1) ;; Ok (Some z)
  | None => Ok None
  end.

Definition nonempty {A : Type} (l : list A) : bool :=
  match l with [] => false | _ :: _ => true end.

Definition is_some {A : Type} (o : option A) : bool :=
  match o with Some _ => true | None => false end.

(** [min(score, 1.0)]: the first argument unless the second is smaller. *)
Definition min_float (a b : float) : float :=
  if PrimFloat.ltb b a then b else a.

(** *** [_calculate_confidence] *)
Definition _calculate_confidence (parsed_result : ParsedQuery) : float :=
  let score := 0.0%float in
  let score := if negb (QueryType_eqb (query_type parsed_result) UNKNOWN)
               then (score + 0.3)%float else score in
  let score := if nonempty (tables parsed_result)
               then (score + 0.2)%float else score in
  let score := if nonempty (columns parsed_result)
               then (score + 0.2)%float else score in
  let score := if nonempty (filters parsed_result)
               then (score + 0.15)%float else score in
  let score := if nonempty (aggregations parsed_result)
               then (score + 0.1)%float else score in
  let score := if is_some (sorting parsed_result)
               then (score + 0.05)%float else score in
  min_float score 1.0%float.

(** *** [_generate_suggestions] *)
Definition _generate_suggestions (parsed_result : ParsedQuery) : list string :=
  ((if negb (nonempty (tables parsed_result))
   then ["Consider specifying which table you want to query"] else [])
  ++ (if QueryType_eqb (query_type parsed_result) UNKNOWN
      then ["Try using clearer action words like 'show', 'find', 'count', etc."]
      else [])
  ++ (if PrimFloat.ltb (confidence parsed_result) 0.5%float
      then ["Your query might be ambiguous. Try being more specific about tables and columns"]
      else [])
  ++ (if negb (nonempty (columns parsed_result))
         && QueryType_eqb (query_type parsed_result) SELECT
      then ["Specify which columns you want to see, or use 'all columns'"]
      else []))%list.

Definition with_confidence (r : ParsedQuery) (c : float) : ParsedQuery :=
  {| original_query := original_query r; query_type := query_type r;
     tables := tables r; columns := columns r; filters := filters r;
     aggregations := aggregations r; sorting := sorting r; limit := limit r;
     confidence := c; suggestions := suggestions r |}.

Definition with_suggestions (r : ParsedQuery) (l : list string) : ParsedQuery :=
  {| original_query := original_query r; query_type := query_type r;
     tables := tables r; columns := columns r; filters := filters r;
     aggregations := aggregations r; sorting := sorting r; limit := limit r;
     confidence := confidence r; suggestions := l |}.

(** *** [parse_query] *)
Definition parse_query (query : string) : result ParsedQuery :=
  let query_lower := PyStr.strip (PyStr.lower query) in
  let qt := _determine_query_type query_lower in
  let ts := _extract_tables query_lower in
  cs <- _extract_columns query_lower ;;
  fs <- _extract_filters query_lower ;;
  ags <- _extract_aggregations query_lower ;;
  let so := _extract_sorting query_lower in
  li <- _extract_limit query_lower ;;
  let result :=
    {| original_query := query; query_type := qt; tables := ts;
       columns := cs; filters := fs; aggregations := ags; sorting := so;
       limit := li; confidence := 0.0%float; suggestions := [] |} in
  let result := with_confidence result (_calculate_confidence result) in
  let result := with_suggestions result (_generate_suggestions result) in
  Ok result.

End NaturalLanguageParser.

(* ================================================================== *)
(** ** [app/services/sqlite_manager.py]: the rule layer *)

Module SQLiteManager.

(** The dictionary [validate_query_safety] returns. *)
Record BasicValidation : Type := {
  safe : bool;
  warning : option string;
  requires_confirmation : bool
}.

Definition dangerous_keywords : list string :=
  ["DROP"; "DELETE"; "TRUNCATE"; "ALTER"; "CREATE"; "INSERT"; "UPDATE"].

(** [for keyword in dangerous_keywords: if keyword in query_upper: return ...]. *)
Fixpoint first_dangerous (keywords : list string) (query_upper : string)
  : option string :=
  match keywords with
  | [] => None
  | keyword :: keywords' =>
      if PyStr.contains query_upper keyword then Some keyword
      else first_dangerous keywords' query_upper
  end.

Definition validate_query_safety (query : string) : BasicValidation :=
  let query_upper := PyStr.strip (PyStr.upper query) in
  match first_dangerous dangerous_keywords query_upper with
  | Some keyword =>
      {| safe := false;
         warning := Some ("Query contains potentially dangerous operation: "
                          ++ keyword);
         requires_confirmation := true |}
  | None =>
      {| safe := true; warning := None; requires_confirmation := false |}
  end.

End SQLiteManager.

(* ================================================================== *)
(** ** The environment of a request

    What the pipeline reads from outside the repository: the Flask
    configuration, the remote model service behind [requests.post], the
    [json] module, the clock, and the database engine behind
    [DatabaseModel].  Each is a field of [World]; a call that can raise
    returns a [result]. *)

Module Env.
Import Schemas.

(** A chat message, a [Dict[str, str]]. *)
Definition Message : Type := list (string * string).

Definition msg (role content : string) : Message :=
  [("role", role); ("content", content)].

(** The request [requests.post] sends. *)
Record Payload : Type := {
  p_api_key : string;
  p_model : string;
  p_messages : list Message;
  p_temperature : float;
  p_max_tokens : Z
}.

(** A [requests.Response]: [json] is the outcome of [response.json()]. *)
Record Response : Type := {
  status_code : Z;
  text : string;
  json : result value
}.

Record World : Type := {
  OPENROUTER_API_KEY : option string;
  OPENROUTER_MODEL : option string;
  requests_post : Payload -> result Response;
  (** [json.loads]; raises [JSONDecodeError] on malformed text *)
  json_loads : string -> result value;
  (** [json.dumps(rows, indent=2)] *)
  json_dumps_rows : list Row -> result string;
  (** [(datetime.now() - start_time).total_seconds()] *)
  elapsed_seconds : float;
  (** [DatabaseModel.get_database_info(id)] is not [None] *)
  get_database_info : string -> result bool;
  (** [DatabaseModel.get_database_schema(id)]; [None] stands for a
      falsy return value *)
  get_database_schema : string -> result (option Schema);
  (** [DatabaseModel.execute_query(id, sql)] *)
  execute_query : string -> string -> result QueryResult;
  (** [str(e)] of a [ValidationError] of pydantic *)
  validation_error_text : ErrorText
}.

(** [not s] for an optional string: [None] and the empty string. *)
Definition falsy (s : option string) : bool :=
  match s with
  | Some (String _ _) => false
  | _ => true
  end.

End Env.

(* ================================================================== *)
(** ** [app/services/ai_query_processor.py] *)

Module AIQueryProcessor.
Import Schemas Env.

Definition lines : list string -> string := PyStr.join PyStr.nl.

(** *** The canned schema document of the mock

    The argument of [json.dumps] in [_get_mock_response] is a literal of
    strings, lists and dictionaries; [json_dumps] is [json.dumps] on such
    literals (default separators, keys in insertion order). *)
Inductive jlit : Type :=
| JS (s : string)
| JA (l : list jlit)
| JO (d : list (string * jlit)).

Fixpoint json_escape (s : string) : string :=
  match s with
  | EmptyString => EmptyString
  | String c s' =>
      if Ascii.eqb c (ascii_of_nat 34) || Ascii.eqb c "\"
      then String "\" (String c (json_escape s'))
      else String c (json_escape s')
  end.

Definition json_string (s : string) : string :=
  PyStr.dq ++ json_escape s ++ PyStr.dq.

Fixpoint json_dumps (j : jlit) : string :=
  match j with
  | JS s => json_string s
  | JA l => "[" ++ PyStr.join ", " (map json_dumps l) ++ "]"
  | JO d =>
      "{" ++ PyStr.join ", "
               (map (fun kv => json_string (fst kv) ++ ": " ++ json_dumps (snd kv)) d)
          ++ "}"
  end.

Definition mock_schema : jlit :=
  JO [ ("tables", JA [
          JO [ ("name", JS "users");
               ("create_sql", JS "CREATE TABLE users (id INTEGER PRIMARY KEY, name TEXT, email TEXT, created_at TEXT);");
               ("sample_data", JA [
                  JS "INSERT INTO users (name, email, created_at) VALUES ('John Doe', 'john@example.com', '2023-01-01');";
                  JS "INSERT INTO users (name, email, created_at) VALUES ('Jane Smith', 'jane@example.com', '2023-01-02');" ]) ];
          JO [ ("name", JS "items");
               ("create_sql", JS "CREATE TABLE items (id INTEGER PRIMARY KEY, name TEXT, description TEXT, user_id INTEGER, FOREIGN KEY (user_id) REFERENCES users(id));");
               ("sample_data", JA [
                  JS "INSERT INTO items (name, description, user_id) VALUES ('Item 1', 'Description 1', 1);";
                  JS "INSERT INTO items (name, description, user_id) VALUES ('Item 2', 'Description 2', 2);" ]) ] ]);
       ("indexes", JA [
          JS "CREATE INDEX idx_users_email ON users(email);";
          JS "CREATE INDEX idx_items_user_id ON items(user_id);" ]);
       ("description", JS "A simple database with users and items tables.") ].

(** The reply shape [{"choices": [{"message": {"content": ...}}]}]. *)
Definition reply (content : string) : value :=
  PDict [("choices", PList [PDict [("message", PDict [("content", PStr content)])]])].

(** The loop of [_get_mock_response]: the content of the first message
    whose role is ["user"] (the loop [break]s there), [""] without one. *)
Fixpoint user_message_of (messages : list Message) : string :=
  match messages with
  | [] => ""
  | message :: messages' =>
      match lookup "role" message with
      | Some role =>
          if String.eqb role "user" then
            match lookup "content" message with
            | Some content => content
            | None => ""
            end
          else user_message_of messages'
      | None => user_message_of messages'
      end
  end.

Definition apology : string :=
  "I'm sorry, I couldn't process your request due to API limitations. Please try again later.".

(** The content the mock selects from the user message. *)
Definition mock_content (user_message : string) : string :=
  let m := PyStr.lower user_message in
  if PyStr.contains m "database schema" || PyStr.contains m "create a database"
  then json_dumps mock_schema
  else if PyStr.contains m "sql" || PyStr.contains m "query" then
    if PyStr.contains m "books" then "SELECT * FROM books;"
    else if PyStr.contains m "users" then "SELECT * FROM users LIMIT 10;"
    else "SELECT * FROM table_name LIMIT 10;"
  else apology.

(** *** [_get_mock_response] *)
Definition _get_mock_response (messages : list Message) : value :=
  reply (mock_content (user_message_of messages)).

(** The handler of [_make_api_request]: its logging reads the local
    variable [response], which is bound only when [requests.post]
    returned. *)
Definition unbound_response : exn :=
  Exn "UnboundLocalError"
    "cannot access local variable 'response' where it is not associated with a value".

Definition except_handler (response_bound : bool) (messages : list Message)
  : result value :=
  if response_bound then Ok (_get_mock_response messages)
  else Raise unbound_response.

(** *** [_make_api_request] *)
Definition _make_api_request (w : World) (messages : list Message)
  (temperature : float) (model : option string) : result value :=
  let api_key := OPENROUTER_API_KEY w in
  let model := if falsy model then OPENROUTER_MODEL w else model in
  match api_key, model with
  | Some (String _ _ as key), Some (String _ _ as model_name) =>
      let payload :=
        {| p_api_key := key; p_model := model_name; p_messages := messages;
           p_temperature := temperature; p_max_tokens := 8192 |} in
      match requests_post w payload with
      | Ok response =>
          if negb (status_code response =? 200)%Z
          then Ok (_get_mock_response messages)
          else match json response with
               | Ok v => Ok v
               | Raise _ => except_handler true messages
               end
      | Raise _ => except_handler false messages
      end
  | _, _ => Ok (_get_mock_response messages)
  end.

(** [response['choices'][0]['message']['content'].strip()]. *)
Definition content_of (response : value) : result string :=
  choices <- getitem_str response "choices" ;;
  first <- getitem_0 choices ;;
  message <- getitem_str first "message" ;;
  content <- getitem_str message "content" ;;
  strip_method content.

(** *** [_format_schema_for_ai] *)
Definition column_line (column : ColumnInfo) : string :=
  let column_def := "  - " ++ ci_name column ++ " (" ++ ci_type column ++ ")" in
  let column_def := if ci_primary_key column
                    then column_def ++ " [PRIMARY KEY]" else column_def in
  if ci_not_null column then column_def ++ " [NOT NULL]" else column_def.

Definition table_lines (entry : string * TableInfo) : list string :=
  let (table_name, table_info) := entry in
  let header := "Table: " ++ table_name in
  let rows := "  Rows: " ++ PyStr.of_Z (ti_row_count table_info) in
  (header :: map column_line (ti_columns table_info) ++ [rows; ""])%list.

Definition _format_schema_for_ai (schema : Schema) : string :=
  lines (flat_map table_lines (sc_tables schema)).

(** The two dictionaries [natural_language_to_sql] returns. *)
Inductive SqlGeneration : Type :=
| SqlGenerated (sql_query : string)
| SqlFailed (error : string).

Fixpoint last_line (l : list string) : option string :=
  match l with
  | [] => None
  | [x] => Some x
  | _ :: l' => last_line l'
  end.

(** Removal of a Markdown code fence around the reply. *)
Definition unfence (sql_query : string) : string :=
  if PyStr.startswith sql_query "```" then
    let ls := PyStr.split_on (ascii_of_nat 10) sql_query in
    let ls := match ls with
              | l0 :: ls' => if PyStr.startswith l0 "```" then ls' else ls
              | [] => ls
              end in
    let ls := match last_line ls with
              | Some l => if String.eqb (PyStr.strip l) "```"
                          then removelast ls else ls
              | None => ls
              end in
    PyStr.strip (lines ls)
  else sql_query.

Definition sql_system_message (schema_text : string) : string :=
  lines [ "";
    "You are an expert SQL query generator. Convert natural language requests to SQLite queries.";
    "";
    "Database Schema:";
    schema_text;
    "";
    "Rules:";
    "1. Generate only valid SQLite syntax";
    "2. Use proper table and column names from the schema";
    "3. Include appropriate WHERE clauses for filtering";
    "4. Use LIMIT for large result sets";
    "5. Return only the SQL query, no explanations";
    "6. If the request is unclear, generate the most reasonable interpretation";
    "";
    "Respond with only the SQL query.";
    "" ].

(** *** [natural_language_to_sql] *)
Definition natural_language_to_sql (w : World) (prompt : string)
  (schema : Schema) (model : option string) : SqlGeneration :=
  let body :=
    let schema_text := _format_schema_for_ai schema in
    let messages := [ msg "system" (sql_system_message schema_text);
                      msg "user" prompt ] in
    response <- _make_api_request w messages 0.1%float model ;;
    sql_query <- content_of response ;;
    Ok (unfence sql_query) in
  match body with
  | Ok sql_query => SqlGenerated sql_query
  | Raise e => SqlFailed (str_exn e)
  end.

(** The two dictionaries [explain_query_results] returns. *)
Inductive Explanation : Type :=
| Explained (explanation : string) (result_count : nat)
| ExplainFailed (error : string).

Definition explain_system_message : string :=
  lines [ "";
    "You are a data analyst. Explain SQL query results in plain English.";
    "Provide insights about the data patterns, key findings, and answer the original question.";
    "Be concise but informative.";
    "" ].

Definition explain_user_message (original_prompt sql_query results_summary
  sample_data : string) : string :=
  lines [ "";
    "Original Question: " ++ original_prompt;
    "SQL Query: " ++ sql_query;
    "Results Summary: " ++ results_summary;
    "Sample Data: " ++ sample_data;
    "";
    "Please explain what these results mean and answer the original question.";
    "" ].

(** *** [explain_query_results] *)
Definition explain_query_results (w : World) (results : list Row)
  (original_prompt sql_query : string) (model : option string) : Explanation :=
  let body :=
    let results_summary :=
      "Found " ++ PyStr.of_nat (List.length results) ++ " results" in
    sample_data <-
      match results with
      | _ :: _ =>
          if (3 <? List.length results)%nat
          then json_dumps_rows w (firstn 3 results)
          else json_dumps_rows w results
      | [] => Ok "No results found"
      end ;;
    let messages :=
      [ msg "system" explain_system_message;
        msg "user" (explain_user_message original_prompt sql_query
                      results_summary sample_data) ] in
    response <- _make_api_request w messages 0.3%float None ;;
    explanation <- content_of response ;;
    Ok explanation in
  match body with
  | Ok explanation => Explained explanation (List.length results)
  | Raise e => ExplainFailed (str_exn e)
  end.

(** The two dictionaries [validate_query_safety] returns. *)
Inductive AIValidation : Type :=
| Analysed (analysis : value)
| AnalysisFailed (error : string).

Definition safety_system_message : string :=
  let q := PyStr.dq in
  lines [ "";
    "You are a SQL security expert. Analyze queries for potential security risks.";
    "";
    "Check for:";
    "1. SQL injection patterns";
    "2. Dangerous operations (DROP, DELETE without WHERE, etc.)";
    "3. Performance risks (missing LIMIT on large tables)";
    "4. Data exposure risks";
    "";
    "Respond with JSON format:";
    "{";
    "  " ++ q ++ "safe" ++ q ++ ": true/false,";
    "  " ++ q ++ "risk_level" ++ q ++ ": " ++ q ++ "low" ++ q ++ "/"
         ++ q ++ "medium" ++ q ++ "/" ++ q ++ "high" ++ q ++ ",";
    "  " ++ q ++ "warnings" ++ q ++ ": [" ++ q ++ "list of specific warnings"
         ++ q ++ "],";
    "  " ++ q ++ "recommendations" ++ q ++ ": [" ++ q
         ++ "list of recommendations" ++ q ++ "]";
    "}";
    "" ].

(** The local verdict used when the reply is not JSON. *)
Definition fallback_analysis (sql_query : string) : value :=
  let u := PyStr.upper sql_query in
  PDict [ ("safe", PBool (negb (PyStr.contains u "DROP")
                          && negb (PyStr.contains u "DELETE")));
          ("risk_level", PStr "medium");
          ("warnings", PList [PStr "Could not parse AI safety analysis"]);
          ("recommendations", PList [PStr "Manual review recommended"]) ].

(** *** [validate_query_safety] *)
Definition validate_query_safety (w : World) (sql_query : string)
  (model : option string) : AIValidation :=
  let body :=
    let messages :=
      [ msg "system" safety_system_message;
        msg "user" ("Analyze this SQL query: " ++ sql_query) ] in
    response <- _make_api_request w messages 0.1%float model ;;
    result_text <- content_of response ;;
    match json_loads w result_text with
    | Ok result => Ok result
    | Raise e =>
        if String.eqb (exn_class e) "JSONDecodeError"
        then Ok (fallback_analysis sql_query)
        else Raise e
    end in
  match body with
  | Ok analysis => Analysed analysis
  | Raise e => AnalysisFailed (str_exn e)
  end.

End AIQueryProcessor.

(* ================================================================== *)
(** ** [app/models/ai_service.py] *)

Module AIService.
Import Schemas Env.

Definition value_of (o : option string) : value :=
  match o with
  | Some s => PStr s
  | None => PNone
  end.

(** [if key in ai_analysis: acc.extend(ai_analysis[key])]. *)
Definition extend_from (ai_analysis : value) (key : string) (acc : list value)
  : result (list value) :=
  present <- contains_str key ai_analysis ;;
  if present : bool then
    items <- getitem_str ai_analysis key ;;
    more <- iterate items ;;
    Ok (acc ++ more)%list
  else Ok acc.

(** The body of the [try] of [validate_query_safety], after the two
    layers have answered. *)
Definition combine (w : World) (basic_validation : SQLiteManager.BasicValidation)
  (ai_validation : AIQueryProcessor.AIValidation) : result QuerySafetyAnalysis :=
  match ai_validation with
  | AIQueryProcessor.Analysed ai_analysis =>
      let combined_warnings :=
        if negb (SQLiteManager.safe basic_validation)
        then [value_of (SQLiteManager.warning basic_validation)] else [] in
      combined_warnings <- extend_from ai_analysis "warnings" combined_warnings ;;
      combined_recommendations <- extend_from ai_analysis "recommendations" [] ;;
      (* basic_validation['safe'] and ai_analysis.get('safe', True) *)
      is_safe <- (if SQLiteManager.safe basic_validation
                  then get_method ai_analysis "safe" (PBool true)
                  else Ok (PBool false)) ;;
      level <- get_method ai_analysis "risk_level" (PStr "medium") ;;
      risk <- RiskLevel_of level ;;
      QuerySafetyAnalysis_new (validation_error_text w) is_safe risk
        combined_warnings combined_recommendations
  | AIQueryProcessor.AnalysisFailed _ =>
      QuerySafetyAnalysis_new (validation_error_text w)
        (PBool (SQLiteManager.safe basic_validation)) MEDIUM
        [value_of (SQLiteManager.warning basic_validation)]
        [PStr "Manual review recommended"]
  end.

Definition validate_query_safety_try (w : World) (sql_query : string)
  (model : option string) : result QuerySafetyAnalysis :=
  let basic_validation := SQLiteManager.validate_query_safety sql_query in
  let ai_validation := AIQueryProcessor.validate_query_safety w sql_query model in
  combine w basic_validation ai_validation.

(** The verdict of the [except] branch. *)
Definition validation_error (e : exn) : QuerySafetyAnalysis :=
  {| safe := false;
     risk_level := HIGH;
     warnings := ["Validation error: " ++ str_exn e];
     recommendations := ["Manual review required"] |}.

(** [try: ... except Exception as e: return validation_error(e)]. *)
Definition or_validation_error (r : result QuerySafetyAnalysis)
  : QuerySafetyAnalysis :=
  match r with
  | Ok analysis => analysis
  | Raise e => validation_error e
  end.

(** *** [validate_query_safety] *)
Definition validate_query_safety (w : World) (sql_query : string)
  (model : option string) : QuerySafetyAnalysis :=
  or_validation_error (validate_query_safety_try w sql_query model).

(** *** The orchestration

    A request is a computation that may raise and that submits
    statements to the database engine; [Trace] lists the statements
    submitted, in order, as pairs of database id and SQL text. *)
Definition Trace : Type := list (string * string).

Definition M (A : Type) : Type := (result A * Trace)%type.

Definition ret {A : Type} (a : A) : M A := (Ok a, []).

Definition lift {A : Type} (r : result A) : M A := (r, []).

Definition bindM {A B : Type} (x : M A) (f : A -> M B) : M B :=
  match x with
  | (Ok a, t) => let (r, t') := f a in (r, (t ++ t')%list)
  | (Raise e, t) => (Raise e, t)
  end.

Notation "x <~ c1 ;; c2" := (bindM c1 (fun x => c2))
  (at level 61, c1 at next level, right associativity).

(** [self.database_model.execute_query(database_id, sql_query)]. *)
Definition run_query (w : World) (database_id sql_query : string)
  : M QueryResult :=
  (execute_query w database_id sql_query, [(database_id, sql_query)]).

(** An [AIQueryResponse] with [success=False]; the fields not passed
    keep their default [None]. *)
Definition failure (prompt : string) (sql : option string)
  (parsed : option ParsedQuery) (err : string) (time : option float)
  : AIQueryResponse :=
  {| success := false; sql_query := sql; original_prompt := prompt;
     parsed_info := parsed; query_result := None; explanation := None;
     error := Some err; processing_time := time |}.

Definition has_rows (r : QueryResult) : bool :=
  match qr_data r with
  | Some (_ :: _) => true
  | _ => false
  end.

Definition rows_of (r : QueryResult) : list Row :=
  match qr_data r with
  | Some rows => rows
  | None => []
  end.

(** The body of the [try] of [process_natural_language_query]. *)
Definition process_try (w : World) (prompt database_id : string)
  (include_explanation : bool) (model : option string) : M AIQueryResponse :=
  (* Validate database exists *)
  found <~ lift (get_database_info w database_id) ;;
  if negb found then
    ret (failure prompt None None "Database not found" None)
  else
    (* Parse natural language query *)
    parsed <~ lift (NaturalLanguageParser.parse_query prompt) ;;
    parsed_query <~ lift (ParsedQuery_new (validation_error_text w) parsed) ;;
    (* Get database schema for AI context *)
    schema <~ lift (get_database_schema w database_id) ;;
    match schema with
    | None =>
        ret (failure prompt None None "Could not retrieve database schema" None)
    | Some schema =>
        (* Convert natural language to SQL using AI *)
        match AIQueryProcessor.natural_language_to_sql w prompt schema model with
        | AIQueryProcessor.SqlFailed err =>
            ret (failure prompt None (Some parsed_query) err None)
        | AIQueryProcessor.SqlGenerated sql =>
            (* Validate query safety *)
            let safety_check := validate_query_safety w sql model in
            if negb (safe safety_check)
               && RiskLevel_eqb (risk_level safety_check) HIGH
            then
              ret (failure prompt (Some sql) (Some parsed_query)
                     "Query rejected due to high security risk" None)
            else
              (* Execute the generated SQL query *)
              structured_result <~ run_query w database_id sql ;;
              (* Generate explanation if requested and query was successful *)
              let explanation :=
                if include_explanation && qr_success structured_result
                   && has_rows structured_result
                then
                  match AIQueryProcessor.explain_query_results w
                          (rows_of structured_result) prompt sql model with
                  | AIQueryProcessor.Explained text _ => Some text
                  | AIQueryProcessor.ExplainFailed _ => None
                  end
                else None in
              ret {| success := true; sql_query := Some sql;
                     original_prompt := prompt;
                     parsed_info := Some parsed_query;
                     query_result := Some structured_result;
                     explanation := explanation; error := None;
                     processing_time := Some (elapsed_seconds w) |}
        end
    end.

(** *** [process_natural_language_query] *)
Definition process_natural_language_query (w : World)
  (prompt database_id : string) (include_explanation : bool)
  (model : option string) : M AIQueryResponse :=
  match process_try w prompt database_id include_explanation model with
  | (Ok response, t) => (Ok response, t)
  | (Raise e, t) =>
      (Ok (failure prompt None None (str_exn e) (Some (elapsed_seconds w))), t)
  end.

End AIService.

(* ================================================================== *)
(** ** Concrete environments

    Environments on which the pipeline is run below.  A field gives the
    answers of the outside world to the calls of the run under study. *)

Module Scenario.
Import Schemas Env.

Definition members : TableInfo :=
  {| ti_name := "members";
     ti_columns :=
       [ {| ci_name := "id"; ci_type := "INTEGER"; ci_not_null := false;
            ci_default_value := None; ci_primary_key := true |};
         {| ci_name := "name"; ci_type := "TEXT"; ci_not_null := true;
            ci_default_value := None; ci_primary_key := false |} ];
     ti_row_count := 2 |}.

(** The schema of [library.db]: one table, [members]; no table [books]. *)
Definition library : Schema :=
  {| sc_database_id := "library.db"; sc_tables := [("members", members)];
     sc_total_tables := 1; sc_total_size := 8192 |}.

Definition engine_error (message : string) : QueryResult :=
  {| qr_success := false; qr_data := None; qr_columns := None;
     qr_row_count := None; qr_rows_affected := None; qr_message := None;
     qr_error := Some message; qr_execution_time := Some 0.001%float |}.

Definition members_rows : QueryResult :=
  {| qr_success := true;
     qr_data := Some [ [("id", SqlInt 1); ("name", SqlText "Ada")];
                       [("id", SqlInt 2); ("name", SqlText "Grace")] ];
     qr_columns := Some ["id"; "name"]; qr_row_count := Some 2%Z;
     qr_rows_affected := None; qr_message := None; qr_error := None;
     qr_execution_time := Some 0.001%float |}.

(** The answers of SQLite on [library.db] to the statements of the runs
    below: a statement on [books] names a missing table, the table
    [members] is read, and the apology text of the mock, like other text
    that is not SQL, is a syntax error at its first word. *)
Definition library_engine (database_id sql : string) : result QueryResult :=
  if String.eqb sql "SELECT * FROM books;"
  then Ok (engine_error "no such table: books")
  else if String.eqb sql "SELECT * FROM members;"
  then Ok members_rows
  else Ok (engine_error ("near " ++ PyStr.dq ++ "I" ++ PyStr.dq ++ ": syntax error")).

(** [json.loads] on text that is not a JSON document. *)
Definition not_json (doc : string) : result value :=
  Raise (Exn "JSONDecodeError" "Expecting value: line 1 column 1 (char 0)").

Definition no_rows_dump (rows : list Row) : result string := Ok "[]".

Definition registered (database_id : string) : result bool :=
  Ok (String.eqb database_id "library.db").

Definition connection_error : exn :=
  Exn "ConnectionError" "Failed to establish a new connection".

(** The one validation error of the runs below: when the request to the
    model raises, the verdict is built from the rule layer alone, and the
    warning of a query that layer accepts is [None], which is no string.
    The text is the one of pydantic 2.5. *)
Definition warning_is_none (cls : string) (inputs : list value) : string :=
  PyStr.join PyStr.nl
    [ "1 validation error for " ++ cls;
      "warnings.0";
      "  Input should be a valid string [type=string_type, input_value=None, input_type=NoneType]";
      "    For further information visit https://errors.pydantic.dev/2.5/v/string_type" ].

(** No API key: every model call takes the mock path. *)
Definition offline : World :=
  {| OPENROUTER_API_KEY := None;
     OPENROUTER_MODEL := Some "google/gemini-2.5-flash-preview-05-20";
     requests_post := fun _ => Raise connection_error;
     json_loads := not_json;
     json_dumps_rows := no_rows_dump;
     elapsed_seconds := 0.25%float;
     get_database_info := registered;
     get_database_schema := fun _ => Ok (Some library);
     execute_query := library_engine;
     validation_error_text := warning_is_none |}.

(** A key is configured and the service cannot be reached. *)
Definition unreachable : World :=
  {| OPENROUTER_API_KEY := Some "sk-or-test";
     OPENROUTER_MODEL := Some "google/gemini-2.5-flash-preview-05-20";
     requests_post := fun _ => Raise connection_error;
     json_loads := not_json;
     json_dumps_rows := no_rows_dump;
     elapsed_seconds := 0.25%float;
     get_database_info := registered;
     get_database_schema := fun _ => Ok (Some library);
     execute_query := library_engine;
     validation_error_text := warning_is_none |}.

(** The database file is damaged: reading its schema raises. *)
Definition damaged : World :=
  {| OPENROUTER_API_KEY := None;
     OPENROUTER_MODEL := Some "google/gemini-2.5-flash-preview-05-20";
     requests_post := fun _ => Raise connection_error;
     json_loads := not_json;
     json_dumps_rows := no_rows_dump;
     elapsed_seconds := 0.25%float;
     get_database_info := registered;
     get_database_schema :=
       fun _ => Raise (Exn "DatabaseError" "file is not a database");
     execute_query := library_engine;
     validation_error_text := warning_is_none |}.

Definition is_safety_request (payload : Payload) : bool :=
  PyStr.startswith (AIQueryProcessor.user_message_of (p_messages payload))
    "Analyze this SQL query: ".

Definition http_ok (content : string) : Response :=
  {| status_code := 200; text := content;
     json := Ok (AIQueryProcessor.reply content) |}.

(** The service answers the translation request and drops the
    connection on the safety request. *)
Definition flaky_post (payload : Payload) : result Response :=
  if is_safety_request payload then Raise connection_error
  else Ok (http_ok "SELECT * FROM members;").

(** The reply of a model that finds the query safe and names a risk
    level the schema does not declare. *)
Definition critical_reply : string :=
  "{" ++ PyStr.dq ++ "safe" ++ PyStr.dq ++ ": true, "
  ++ PyStr.dq ++ "risk_level" ++ PyStr.dq ++ ": "
  ++ PyStr.dq ++ "critical" ++ PyStr.dq ++ "}".

Definition critical_verdict : list (string * value) :=
  [("safe", PBool true); ("risk_level", PStr "critical")].

(** [json.loads] on that reply. *)
Definition reads_verdict (doc : string) : result value :=
  if String.eqb doc critical_reply then Ok (PDict critical_verdict)
  else not_json doc.

(** The service answers every request with that reply. *)
Definition alarmist : World :=
  {| OPENROUTER_API_KEY := Some "sk-or-test";
     OPENROUTER_MODEL := Some "google/gemini-2.5-flash-preview-05-20";
     requests_post := fun _ => Ok (http_ok critical_reply);
     json_loads := reads_verdict;
     json_dumps_rows := no_rows_dump;
     elapsed_seconds := 0.25%float;
     get_database_info := registered;
     get_database_schema := fun _ => Ok (Some library);
     execute_query := library_engine;
     validation_error_text := warning_is_none |}.

Definition flaky : World :=
  {| OPENROUTER_API_KEY := Some "sk-or-test";
     OPENROUTER_MODEL := Some "google/gemini-2.5-flash-preview-05-20";
     requests_post := flaky_post;
     json_loads := not_json;
     json_dumps_rows := no_rows_dump;
     elapsed_seconds := 0.25%float;
     get_database_info := registered;
     get_database_schema := fun _ => Ok (Some library);
     execute_query := library_engine;
     validation_error_text := warning_is_none |}.

End Scenario.

(* ================================================================== *)
(** ** [app/services/sqlite_manager.py]: the table of database paths

    A [SQLiteManager] keeps [database_paths], a dictionary from database
    identifiers to file paths.  What a call reads from the file system,
    from [sqlite3] and from the clock is a [Disk]; its answers are those
    during the call. *)

Module SQLitePaths.
Import Schemas.

(** A Python [dict] with string keys, in insertion order. *)
Definition dict (A : Type) : Type := list (string * A).

(** [key in d]. *)
Definition dict_mem {A : Type} (key : string) (d : dict A) : bool :=
  match lookup key d with
  | Some _ => true
  | None => false
  end.

(** [d[key] = v]: an existing key keeps its place. *)
Fixpoint dict_set {A : Type} (key : string) (v : A) (d : dict A) : dict A :=
  match d with
  | [] => [(key, v)]
  | (k, x) :: d' =>
      if String.eqb k key then (k, v) :: d' else (k, x) :: dict_set key v d'
  end.

(** [del d[key]]. *)
Definition dict_del {A : Type} (key : string) (d : dict A) : dict A :=
  filter (fun kv => negb (String.eqb (fst kv) key)) d.

Record Disk : Type := {
  (** [os.path.exists] *)
  path_exists : string -> bool;
  (** [os.path.getsize] *)
  getsize : string -> Z;
  (** [os.path.basename] *)
  basename : string -> string;
  (** [Path(p).suffix] *)
  suffix : string -> string;
  (** [sqlite3.connect(p)] and the names of [sqlite_master] *)
  table_names : string -> result (list string);
  (** [datetime.now()]: the readings of the clock during the call, in
      order, each as the microseconds since the first instant of the
      calendar *)
  now : nat -> Z
}.

(** The dictionary [load_database] returns and [list_databases] lists. *)
Record Listing : Type := {
  l_id : string;
  l_path : string;
  l_tables : list string;
  l_size : Z;
  l_status : string
}.

Definition Paths : Type := dict string.

(** *** [load_database]: the new table is returned with the listing;
    when the call raises the table is as before. *)
Definition load_database (d : Disk) (database_paths : Paths) (file_path : string)
  : result (Listing * Paths) :=
  if negb (path_exists d file_path) then
    Raise (Exn "FileNotFoundError" ("Database file not found: " ++ file_path))
  else
    tables <- table_names d file_path ;;
    let db_id := basename d file_path in
    Ok ({| l_id := db_id; l_path := file_path; l_tables := tables;
           l_size := getsize d file_path; l_status := "connected" |},
        dict_set db_id file_path database_paths).

(** [os.path.exists(p)] after the attempt to read the tables of [p]:
    [sqlite3.connect] creates a file that is missing, as an empty file,
    so the file is there when it was there before or the tables were
    read. *)
Definition exists_after_connect (d : Disk) (file_path : string) : bool :=
  match table_names d file_path with
  | Ok _ => true
  | Raise _ => path_exists d file_path
  end.

(** One entry of [list_databases]; a database that cannot be read is
    listed without tables.  Size and status are read after the attempt
    to connect: a file that the attempt created has the size 0, like a
    file that is missing. *)
Definition listing_of (d : Disk) (entry : string * string) : Listing :=
  let (db_id, file_path) := entry in
  {| l_id := db_id;
     l_path := file_path;
     l_tables := match table_names d file_path with
                 | Ok tables => tables
                 | Raise _ => []
                 end;
     l_size := if path_exists d file_path then getsize d file_path else 0%Z;
     l_status := if exists_after_connect d file_path
                 then "connected" else "disconnected" |}.

(** *** [list_databases] *)
Definition list_databases (d : Disk) (database_paths : Paths) : list Listing :=
  map (listing_of d) database_paths.

(** *** [close_database] *)
Definition close_database (database_paths : Paths) (db_name : string)
  : bool * Paths :=
  if dict_mem db_name database_paths
  then (true, dict_del db_name database_paths)
  else (false, database_paths).

(** *** [close_all_databases] *)
Definition close_all_databases (database_paths : Paths) : Paths := [].

(** The SQLite engine behind [execute_query]. *)
Record Engine : Type := {
  (** [sqlite3.connect(path)], the execution of the statement with its
      parameters and the dictionary built from the cursor; raises when the
      connection cannot be opened, answers [success=False] when the
      statement fails *)
  run : string -> string -> list SqlValue -> result QueryResult;
  (** the seconds between the two readings of the clock *)
  execution_seconds : float
}.

(** *** [execute_query]; an empty tuple of parameters is passed on as
    no parameters. *)
Definition execute_query (g : Engine) (database_paths : Paths)
  (query db_name : string) (params : option (list SqlValue)) : result QueryResult :=
  match lookup db_name database_paths with
  | None => Raise (Exn "ValueError" ("Database " ++ db_name ++ " not loaded"))
  | Some file_path =>
      run g file_path query (match params with Some l => l | None => [] end)
  end.

End SQLitePaths.

(* ================================================================== *)
(** ** [app/models/database.py]

    Every [DatabaseModel] has a [SQLiteManager] of its own and shares the
    class-level registry [_shared_registry] with the other instances (the
    route modules create one instance each).  A [Store] is the shared
    registry together with the path table of the instance that runs the
    call; a run over several instances passes the registry from one to
    the other.

    An entry of the registry is the dictionary with the keys ['info'] and
    ['loaded_at'].  The value of ['loaded_at'] is written when the entry
    is made and read nowhere; a [Registry] keeps the ['info'] of every
    entry, and the clock is read for ['loaded_at'] all the same. *)

Module DatabaseModel.
Import Schemas SQLitePaths.

Inductive DatabaseStatus : Type := CONNECTED | DISCONNECTED | ERROR | LOADING.

(** [DatabaseStatus(s)]. *)
Definition DatabaseStatus_of (s : string) : result DatabaseStatus :=
  if String.eqb s "connected" then Ok CONNECTED
  else if String.eqb s "disconnected" then Ok DISCONNECTED
  else if String.eqb s "error" then Ok ERROR
  else if String.eqb s "loading" then Ok LOADING
  else Raise (Exn "ValueError" ("'" ++ s ++ "' is not a valid DatabaseStatus")).

Record DatabaseInfo : Type := {
  di_id : string;
  di_path : string;
  di_tables : list string;
  di_size : Z;
  di_status : DatabaseStatus;
  di_created_at : option Z;
  di_last_accessed : option Z
}.

Definition Registry : Type := dict DatabaseInfo.

Record Store : Type := {
  _database_registry : Registry;     (* shared by all instances *)
  database_paths : Paths             (* of this instance's manager *)
}.

(** [DatabaseInfo(id=l['id'], ..., status=status, created_at=created_at,
    last_accessed=last_accessed)]. *)
Definition info_of (l : Listing) (status : DatabaseStatus)
  (created_at last_accessed : option Z) : DatabaseInfo :=
  {| di_id := l_id l; di_path := l_path l; di_tables := l_tables l;
     di_size := l_size l; di_status := status;
     di_created_at := created_at; di_last_accessed := last_accessed |}.

(** [info.last_accessed = t]. *)
Definition with_last_accessed (info : DatabaseInfo) (t : Z) : DatabaseInfo :=
  {| di_id := di_id info; di_path := di_path info; di_tables := di_tables info;
     di_size := di_size info; di_status := di_status info;
     di_created_at := di_created_at info; di_last_accessed := Some t |}.

(** *** [_is_valid_sqlite_file] *)
Definition _is_valid_sqlite_file (d : Disk) (file_path : string) : bool :=
  let file_ext := PyStr.lower (suffix d file_path) in
  if negb (PyStr.mem file_ext [".db"; ".sqlite"; ".sqlite3"]) then false
  else match table_names d file_path with
       | Ok _ => true
       | Raise _ => false
       end.

(** *** [load_database]: the clock is read for [created_at], for
    [last_accessed] and for ['loaded_at']. *)
Definition load_database (d : Disk) (st : Store) (file_path : string)
  : result (DatabaseInfo * Store) :=
  if negb (path_exists d file_path) then
    Raise (Exn "FileNotFoundError" ("Database file not found: " ++ file_path))
  else if negb (_is_valid_sqlite_file d file_path) then
    Raise (Exn "ValueError" ("Invalid SQLite database file: " ++ file_path))
  else
    loaded <- SQLitePaths.load_database d (database_paths st) file_path ;;
    let (db_info, paths) := loaded : Listing * Paths in
    let database_info :=
      info_of db_info CONNECTED (Some (now d 0)) (Some (now d 1)) in
    Ok (database_info,
        {| _database_registry :=
             dict_set (l_id db_info) database_info (_database_registry st);
           database_paths := paths |}).

(** The loop of [get_database_list], from the reading [tick] of the clock
    on: a listed database that is registered gets a new [last_accessed]
    in the registry and is answered from there (one reading), another
    one is registered (two readings, the second for ['loaded_at']).  The
    identifiers of the listing are the keys of a dictionary, each listed
    once, so an entry answered is not written again by the loop. *)
Fixpoint register_all (d : Disk) (tick : nat) (databases : list Listing)
  (registry : Registry) : result (list DatabaseInfo * Registry) :=
  match databases with
  | [] => Ok ([], registry)
  | db :: databases' =>
      match lookup (l_id db) registry with
      | Some info =>
          (* Update last accessed time if in registry *)
          let info := with_last_accessed info (now d tick) in
          rest <- register_all d (S tick) databases'
                    (dict_set (l_id db) info registry) ;;
          Ok (info :: fst rest, snd rest)
      | None =>
          (* Create new database info if not in registry *)
          status <- DatabaseStatus_of (l_status db) ;;
          let db_info := info_of db status None (Some (now d tick)) in
          rest <- register_all d (S (S tick)) databases'
                    (dict_set (l_id db) db_info registry) ;;
          Ok (db_info :: fst rest, snd rest)
      end
  end.

(** *** [get_database_list] *)
Definition get_database_list (d : Disk) (st : Store)
  : result (list DatabaseInfo * Store) :=
  listed <- register_all d 0 (list_databases d (database_paths st))
              (_database_registry st) ;;
  Ok (fst listed,
      {| _database_registry := snd listed; database_paths := database_paths st |}).

(** *** [get_database_info] *)
Definition get_database_info (d : Disk) (st : Store) (database_id : string)
  : result (option DatabaseInfo * Store) :=
  listed <- get_database_list d st ;;
  let st' := snd listed in
  Ok (lookup database_id (_database_registry st'), st').

(** *** [close_database] *)
Definition close_database (st : Store) (database_id : string) : bool * Store :=
  let (success, paths) :=
    SQLitePaths.close_database (database_paths st) database_id in
  let registry :=
    if success && dict_mem database_id (_database_registry st)
    then dict_del database_id (_database_registry st)
    else _database_registry st in
  (success, {| _database_registry := registry; database_paths := paths |}).

(** *** [close_all_databases] *)
Definition close_all_databases (st : Store) : Store :=
  {| _database_registry := [];
     database_paths := SQLitePaths.close_all_databases (database_paths st) |}.

(** [result['execution_time'] = execution_time]. *)
Definition with_execution_time (r : QueryResult) (seconds : float) : QueryResult :=
  {| qr_success := qr_success r; qr_data := qr_data r; qr_columns := qr_columns r;
     qr_row_count := qr_row_count r; qr_rows_affected := qr_rows_affected r;
     qr_message := qr_message r; qr_error := qr_error r;
     qr_execution_time := Some seconds |}.

(** *** [execute_query]: the store is returned with the outcome, a path
    that was loaded again stays loaded and the new [last_accessed] stays
    written when the call raises later.  The clock is read for
    [last_accessed] and twice around the query; the seconds between
    these two readings are [execution_seconds]. *)
Definition execute_query (d : Disk) (g : Engine) (st : Store)
  (database_id query : string) (params : option (list SqlValue))
  : result QueryResult * Store :=
  match lookup database_id (_database_registry st) with
  | None =>
      (Raise (Exn "ValueError" ("Database " ++ database_id ++ " not loaded")), st)
  | Some db_info =>
      (* Ensure database is loaded in SQLiteManager *)
      let reloaded :=
        if negb (dict_mem database_id (database_paths st))
        then loaded <- SQLitePaths.load_database d (database_paths st) (di_path db_info) ;;
             Ok (snd loaded)
        else Ok (database_paths st) in
      match reloaded with
      | Raise e => (Raise e, st)
      | Ok paths =>
          (* Update last accessed time *)
          let registry :=
            dict_set database_id (with_last_accessed db_info (now d 0))
              (_database_registry st) in
          (* Execute query *)
          (result <- SQLitePaths.execute_query g paths query database_id params ;;
           Ok (with_execution_time result (execution_seconds g)),
           {| _database_registry := registry; database_paths := paths |})
      end
  end.

(** *** [get_table_data]: the statements and the page information

    The filters are the query parameters of the request, strings. *)

Definition like_conditions (filters : dict string) : list string :=
  map (fun kv => fst kv ++ " LIKE ?") filters.

Definition like_params (filters : dict string) : list string :=
  map (fun kv => "%" ++ snd kv ++ "%") filters.

(** The statement that reads the page, with its parameters
    ([None] when there is none). *)
Definition table_data_query (table_name : string) (limit offset : Z)
  (filters : dict string) (sort_by : option string) (sort_order : string)
  : string * option (list string) :=
  let query := "SELECT * FROM " ++ table_name in
  let params := match filters with
                | [] => []
                | _ :: _ => like_params filters
                end in
  let query := match filters with
               | [] => query
               | _ :: _ =>
                   query ++ " WHERE " ++ PyStr.join " AND " (like_conditions filters)
               end in
  let query := match sort_by with
               | Some (String _ _ as by_column) =>
                   query ++ " ORDER BY " ++ by_column ++ " " ++ sort_order
               | _ => query
               end in
  let query := query ++ " LIMIT " ++ PyStr.of_Z limit
                     ++ " OFFSET " ++ PyStr.of_Z offset in
  (query, match params with [] => None | _ :: _ => Some params end).

(** The statement that counts the rows. *)
Definition table_count_query (table_name : string) (filters : dict string)
  : string * option (list string) :=
  let count_query := "SELECT COUNT(*) as total FROM " ++ table_name in
  match filters with
  | [] => (count_query, None)
  | _ :: _ =>
      (count_query ++ " WHERE " ++ PyStr.join " AND " (like_conditions filters),
       Some (like_params filters))
  end.

Record PageInfo : Type := {
  current_page : Z;
  page_size : Z;
  total_rows : Z;
  total_pages : Z;
  has_next : bool;
  has_previous : bool
}.

(** [a // b] on integers. *)
Definition floordiv (a b : Z) : result Z :=
  if (b =? 0)%Z
  then Raise (Exn "ZeroDivisionError" "integer division or modulo by zero")
  else Ok (a / b)%Z.

(** The dictionary [page_info], for the integer [total_rows] of the count. *)
Definition page_info (limit offset total_rows : Z) : result PageInfo :=
  page <- floordiv offset limit ;;
  pages <- floordiv (total_rows + limit - 1) limit ;;
  Ok {| current_page := page + 1;
        page_size := limit;
        total_rows := total_rows;
        total_pages := pages;
        has_next := (offset + limit <? total_rows)%Z;
        has_previous := (0 <? offset)%Z |}.

(** *** The statements of [insert_record], [update_record], [delete_record]

    [A] is the type of the values of a record. *)

Definition insert_statement (A : Type) (table_name : string) (data : dict A)
  : string * list A :=
  let columns := map fst data in
  let placeholders := PyStr.join ", " (map (fun _ => "?") columns) in
  ("INSERT INTO " ++ table_name ++ " (" ++ PyStr.join ", " columns
     ++ ") VALUES (" ++ placeholders ++ ")",
   map snd data).

Definition update_statement (A : Type) (table_name : string) (record_id : A)
  (data : dict A) (id_column : string) : string * list A :=
  let set_clauses := map (fun kv => fst kv ++ " = ?") data in
  ("UPDATE " ++ table_name ++ " SET " ++ PyStr.join ", " set_clauses
     ++ " WHERE " ++ id_column ++ " = ?",
   (map snd data ++ [record_id])%list).

Definition delete_statement (A : Type) (table_name : string) (record_id : A)
  (id_column : string) : string * list A :=
  ("DELETE FROM " ++ table_name ++ " WHERE " ++ id_column ++ " = ?", [record_id]).

End DatabaseModel.

(* ================================================================== *)
(** ** [app/routes/tables.py]: the query parameters of [get_table_data] *)

Module TableRoutes.

(** [min(int(limit), 1000)], on the integer the parameter denotes. *)
Definition page_limit (limit : Z) : Z := Z.min limit 1000.

(** [max(int(offset), 0)]. *)
Definition page_offset (offset : Z) : Z := Z.max offset 0.

(** The sort order: upper-cased, [ASC] unless it is [ASC] or [DESC]. *)
Definition page_sort_order (sort_order : string) : string :=
  let sort_order := PyStr.upper sort_order in
  if negb (PyStr.mem sort_order ["ASC"; "DESC"]) then "ASC" else sort_order.

End TableRoutes.

(* ================================================================== *)
(** ** [app/models/schemas.py]: the validators of the request models *)

Module RequestValidators.

(** [if not v.strip(): raise ValueError(message)], then [return v.strip()]. *)
Definition stripped_or (message : string) (v : string) : result string :=
  match PyStr.strip v with
  | EmptyString => Raise (Exn "ValueError" message)
  | stripped => Ok stripped
  end.

(** *** [DatabaseLoadRequest.validate_file_path] *)
Definition validate_file_path : string -> result string :=
  stripped_or "File path cannot be empty".

(** *** [QueryRequest.validate_query] *)
Definition validate_query : string -> result string :=
  stripped_or "Query cannot be empty".

(** *** [NaturalLanguageQueryRequest.validate_prompt] *)
Definition validate_prompt : string -> result string :=
  stripped_or "Prompt cannot be empty".

(** *** [DatabaseCreateRequest.validate_description] *)
Definition validate_description (v : string) : result string :=
  match PyStr.strip v with
  | EmptyString => Raise (Exn "ValueError" "Description cannot be empty")
  | stripped =>
      if (String.length stripped <? 10)%nat
      then Raise (Exn "ValueError" "Description must be at least 10 characters long")
      else Ok stripped
  end.

(** [c.isalnum()] on ASCII. *)
Definition is_alnum (c : ascii) : bool :=
  PyStr.is_upper c || PyStr.is_lower c || PyStr.is_digit c.

(** [c.isalnum() or c in '_-']. *)
Definition name_char (c : ascii) : bool :=
  is_alnum c || Ascii.eqb c "_" || Ascii.eqb c "-".

(** [''.join(c for c in s if keep(c))]. *)
Fixpoint keep_chars (keep : ascii -> bool) (s : string) : string :=
  match s with
  | EmptyString => EmptyString
  | String c s' =>
      if keep c then String c (keep_chars keep s') else keep_chars keep s'
  end.

(** [s.endswith(suffix)]. *)
Definition endswith (s suffix : string) : bool :=
  (String.length suffix <=? String.length s)%nat
  && String.eqb
       (substring (String.length s - String.length suffix) (String.length suffix) s)
       suffix.

(** *** [DatabaseCreateRequest.validate_database_name] *)
Definition validate_database_name (v : string) : result string :=
  match PyStr.strip v with
  | EmptyString => Raise (Exn "ValueError" "Database name cannot be empty")
  | stripped =>
      match keep_chars name_char stripped with
      | EmptyString =>
          Raise (Exn "ValueError" "Database name must contain valid characters")
      | clean_name =>
          if negb (endswith (PyStr.lower clean_name) ".sqlite")
          then Ok (clean_name ++ ".sqlite")
          else Ok clean_name
      end
  end.

End RequestValidators.

(* ================================================================== *)
(** ** [app/models/ai_service.py]: [suggest_related_queries] *)

Module RelatedQueries.
Import Schemas Env.

(** The two dictionaries [suggest_related_queries] returns. *)
Inductive Suggestions : Type :=
| Suggested (suggestions : list string)
| SuggestionsFailed (error : string).

(** The suggestions for the first table of the parse; [schema['tables']]
    raises on a schema that is not a dictionary with that key. *)
Definition suggestions_for (schema : option Schema) (parsed_info : ParsedQuery)
  (table_name : string) : result (list string) :=
  (* Suggest count query *)
  let suggestions := ["How many records are in " ++ table_name ++ "?"] in
  (* Suggest column exploration *)
  schema_tables <-
    match schema with
    | Some schema => Ok (sc_tables schema)
    | None => Raise (Exn "TypeError" "'NoneType' object is not subscriptable")
    end ;;
  let unique_values column :=
    "Show unique values in " ++ ci_name column ++ " from " ++ table_name in
  let suggestions :=
    match lookup table_name schema_tables with
    | Some table_info =>
        (suggestions ++ map unique_values (firstn 3 (ti_columns table_info)))%list
    | None => suggestions
    end in
  (* Suggest filtering *)
  let suggestions :=
    if negb (NaturalLanguageParser.nonempty (filters parsed_info))
    then app suggestions ["Show " ++ table_name ++ " with specific conditions"]
    else suggestions in
  (* Suggest aggregation *)
  let suggestions :=
    if negb (QueryType_eqb (query_type parsed_info) COUNT)
    then app suggestions ["Get statistics for " ++ table_name]
    else suggestions in
  Ok suggestions.

(** *** [suggest_related_queries] *)
Definition suggest_related_queries (w : World) (original_query database_id : string)
  : Suggestions :=
  let body :=
    (* Get database schema *)
    schema <- get_database_schema w database_id ;;
    (* Parse the original query to understand intent *)
    parsed_info <- NaturalLanguageParser.parse_query original_query ;;
    suggestions <-
      match tables parsed_info with
      | table_name :: _ => suggestions_for schema parsed_info table_name
      | [] => Ok []
      end ;;
    Ok (firstn 5 suggestions) in
  match body with
  | Ok suggestions => Suggested suggestions
  | Raise e => SuggestionsFailed (str_exn e)
  end.

End RelatedQueries.

(* ================================================================== *)
(** ** [app/services/ai_query_processor.py]: [generate_database_schema] *)

Module SchemaDesigner.
Import Schemas Env.

(** [s.replace(old, new)] for a non-empty [old]: the occurrences are
    replaced from left to right; [skip] counts the characters of a
    replaced occurrence that are still to be dropped. *)
Fixpoint replace_from (old new : string) (skip : nat) (s : string) : string :=
  match s with
  | EmptyString => EmptyString
  | String c s' =>
      match skip with
      | S k => replace_from old new k s'
      | O =>
          if PyStr.startswith s old
          then new ++ replace_from old new (String.length old - 1) s'
          else String c (replace_from old new 0 s')
      end
  end.

Definition replace (s old new : string) : string := replace_from old new 0 s.

(** The two dictionaries [generate_database_schema] returns. *)
Inductive SchemaGeneration : Type :=
| SchemaGenerated (schema : value)
| SchemaFailed (error : string).

Definition schema_system_message : string :=
  let q := PyStr.dq in
  AIQueryProcessor.lines [ "";
    "You are an expert database designer. Create a SQLite database schema based on the natural language description provided.";
    "";
    "Rules:";
    "1. Generate CREATE TABLE statements with appropriate data types";
    "2. Include primary keys, foreign keys, and constraints where appropriate";
    "3. Use proper SQLite data types (TEXT, INTEGER, REAL, BLOB)";
    "4. Add indexes for commonly queried columns";
    "5. Include sample INSERT statements for each table (2-3 records per table)";
    "6. Return a JSON object with the following structure:";
    "{";
    "  " ++ q ++ "tables" ++ q ++ ": [";
    "    {";
    "      " ++ q ++ "name" ++ q ++ ": " ++ q ++ "table_name" ++ q ++ ",";
    "      " ++ q ++ "create_sql" ++ q ++ ": " ++ q ++ "CREATE TABLE statement" ++ q ++ ",";
    "      " ++ q ++ "sample_data" ++ q ++ ": [" ++ q ++ "INSERT statements" ++ q ++ "]";
    "    }";
    "  ],";
    "  " ++ q ++ "indexes" ++ q ++ ": [" ++ q ++ "CREATE INDEX statements" ++ q ++ "],";
    "  " ++ q ++ "description" ++ q ++ ": " ++ q
         ++ "Brief description of the database structure" ++ q;
    "}";
    "";
    "Ensure all SQL is valid SQLite syntax.";
    "" ].

(** Removal of the Markdown fence around a JSON reply. *)
Definition clean (content : string) : string :=
  if PyStr.startswith content "```json"
  then PyStr.strip (replace (replace content "```json" "") "```" "")
  else if PyStr.startswith content "```"
  then PyStr.strip (replace content "```" "")
  else content.

(** *** [generate_database_schema] *)
Definition generate_database_schema (w : World) (description : string)
  : SchemaGeneration :=
  let body :=
    let messages :=
      [ msg "system" schema_system_message;
        msg "user" ("Create a database schema for: " ++ description) ] in
    response <- AIQueryProcessor._make_api_request w messages 0.3%float None ;;
    content <- AIQueryProcessor.content_of response ;;
    let content := clean content in
    (* Parse JSON response *)
    match json_loads w content with
    | Ok schema_data => Ok (SchemaGenerated schema_data)
    | Raise json_error =>
        if String.eqb (exn_class json_error) "JSONDecodeError"
        then Ok (SchemaFailed ("Failed to parse AI response: " ++ str_exn json_error))
        else Raise json_error
    end in
  match body with
  | Ok generation => generation
  | Raise e => SchemaFailed (str_exn e)
  end.

End SchemaDesigner.

(* ================================================================== *)
(** * Vocabulary of the statements *)

Import Schemas Env.

(** Every character of the needle is a non-space character. *)
Fixpoint no_space (n : string) : bool :=
  match n with
  | EmptyString => true
  | String c n' => negb (PyStr.is_space c) && no_space n'
  end.

(** What the model layer says about [safe], [True] when the key is absent. *)
Definition model_safe (d : list (string * value)) : bool :=
  match lookup "safe" d with
  | None => true
  | Some v => match validate_bool v with
              | Some b => b
              | None => false
              end
  end.

Definition is_string (v : value) : bool :=
  match v with PStr _ => true | _ => false end.

(** A field that is absent or a list of strings. *)
Definition strings_or_absent (o : option value) : bool :=
  match o with
  | None => true
  | Some (PList l) => forallb is_string l
  | Some _ => false
  end.

(** A field that is absent or one of the declared risk levels. *)
Definition risk_or_absent (o : option value) : bool :=
  match o with
  | None => true
  | Some (PStr s) => PyStr.mem s ["low"; "medium"; "high"]
  | Some _ => false
  end.

(** A field that is absent or that pydantic reads as a boolean. *)
Definition bool_or_absent (o : option value) : bool :=
  match o with
  | None => true
  | Some v => match validate_bool v with Some _ => true | None => false end
  end.

(** A verdict of the model layer with the fields of the declared types. *)
Definition well_formed_verdict (d : list (string * value)) : bool :=
  bool_or_absent (lookup "safe" d)
  && risk_or_absent (lookup "risk_level" d)
  && strings_or_absent (lookup "warnings" d)
  && strings_or_absent (lookup "recommendations" d).

(** ** What a run of the matcher consumed and captured

    [p] is a property of characters and [item_ok] recognises class items
    all of whose characters have it. *)

Fixpoint all_chars (p : ascii -> bool) (s : string) : bool :=
  match s with
  | EmptyString => true
  | String c s' => p c && all_chars p s'
  end.

(** Every character the expression consumes has the property. *)
Fixpoint only (item_ok : Re.citem -> bool) (r : Re.regex) : bool :=
  match r with
  | Re.Empty | Re.WordB => true
  | Re.Class items => forallb item_ok items
  | Re.Cat a b | Re.Alt a b => only item_ok a && only item_ok b
  | Re.Star a | Re.Plus a | Re.Opt a | Re.Group _ a => only item_ok a
  end.

(** The expression consumes at least one character. *)
Fixpoint nonnull (r : Re.regex) : bool :=
  match r with
  | Re.Class _ => true
  | Re.Cat a b => nonnull a || nonnull b
  | Re.Alt a b => nonnull a && nonnull b
  | Re.Plus a | Re.Group _ a => nonnull a
  | Re.Empty | Re.WordB | Re.Star _ | Re.Opt _ => false
  end.

(** The groups that take part in every match. *)
Fixpoint must (r : Re.regex) : list nat :=
  match r with
  | Re.Cat a b => must a ++ must b
  | Re.Plus a => must a
  | Re.Group n a => n :: must a
  | _ => []
  end.

(** The groups whose text is not known to be non-empty with the property. *)
Fixpoint weak (item_ok : Re.citem -> bool) (r : Re.regex) : list nat :=
  match r with
  | Re.Group n a =>
      (if only item_ok a && nonnull a then [] else [n]) ++ weak item_ok a
  | Re.Cat a b | Re.Alt a b => weak item_ok a ++ weak item_ok b
  | Re.Star a | Re.Plus a | Re.Opt a => weak item_ok a
  | _ => []
  end.

Definition good (p : ascii -> bool) (t : string) : Prop :=
  all_chars p t = true /\ t <> "".

(** [st'] is reached from [st] by consuming [consumed] and capturing
    [added]; [o], [nn], [mu] and [wk] are what is known of the expression
    that was run: it consumes characters with the property only, it
    consumes a character, the groups it always sets, the groups it may set
    to a text that is not [good]. *)
Inductive reach (p : ascii -> bool) (o nn : bool) (mu wk : list nat)
  (st st' : Re.mstate) : Prop :=
| Reach (consumed : string) (added : list (nat * string))
    (reach_rest : Re.rest st = consumed ++ Re.rest st')
    (reach_pos : Re.pos st' = Re.pos st + String.length consumed)
    (reach_caps : Re.caps st' = (added ++ Re.caps st)%list)
    (reach_only : o = true -> all_chars p consumed = true)
    (reach_nonnull : nn = true -> consumed <> "")
    (reach_must : forall n, In n mu -> exists t, In (n, t) added)
    (reach_good : forall n t, In (n, t) added -> ~ In n wk -> good p t).

Definition reach_by (p : ascii -> bool) (item_ok : Re.citem -> bool)
  (r : Re.regex) : Re.mstate -> Re.mstate -> Prop :=
  reach p (only item_ok r) (nonnull r) (must r) (weak item_ok r).

Definition sound_step (p : ascii -> bool) (item_ok : Re.citem -> bool)
  (a : Re.regex) (step : Re.mstate -> Re.cont -> option Re.mstate) : Prop :=
  forall st k res, step st k = Some res ->
    exists st', k st' = Some res /\ reach_by p item_ok a st st'.

Definition digit_item (i : Re.citem) : bool :=
  match i with
  | Re.CDigit => true
  | _ => false
  end.

(** A non-empty string of decimal digits. *)
Definition numeral (t : string) : Prop := good PyStr.is_digit t.

(** The groups that took part in every match have a text, and the text of
    a group over [\d] alone is a numeral. *)
Definition match_ok (r : Re.regex) (m : Re.rmatch) : Prop :=
  forall n, In n (must r) ->
    exists t, Re.group m n = Some t /\ (~ In n (weak digit_item r) -> numeral t).

(** Group [n] takes part in every match of the pattern. *)
Definition has_group (pattern : string) (n : nat) : bool :=
  match Re.compile pattern with
  | Some (r, _) => existsb (Nat.eqb n) (must r)
  | None => true
  end.

(** Group [n] takes part in every match and is a run of [\d]. *)
Definition has_numeral (pattern : string) (n : nat) : bool :=
  match Re.compile pattern with
  | Some (r, _) =>
      existsb (Nat.eqb n) (must r) && negb (existsb (Nat.eqb n) (weak digit_item r))
  | None => true
  end.

Definition took_part (n : nat) (m : Re.rmatch) : Prop :=
  exists t, Re.group m n = Some t.

(** ** The confidence score *)

(** The six signal categories of a parsed query. *)
Record Signals : Type := {
  sig_type : bool;
  sig_table : bool;
  sig_column : bool;
  sig_filter : bool;
  sig_aggregation : bool;
  sig_sort : bool
}.

Definition signals_of (r : ParsedQuery) : Signals :=
  {| sig_type := negb (QueryType_eqb (query_type r) UNKNOWN);
     sig_table := NaturalLanguageParser.nonempty (tables r);
     sig_column := NaturalLanguageParser.nonempty (columns r);
     sig_filter := NaturalLanguageParser.nonempty (filters r);
     sig_aggregation := NaturalLanguageParser.nonempty (aggregations r);
     sig_sort := NaturalLanguageParser.is_some (sorting r) |}.

Definition weight (b : bool) (w : float) : float :=
  if b then w else 0.0%float.

(** The weighted sum of the specification, in binary64 arithmetic. *)
Definition weighted_sum (s : Signals) : float :=
  (weight (sig_type s) 0.30 + weight (sig_table s) 0.20
   + weight (sig_column s) 0.20 + weight (sig_filter s) 0.15
   + weight (sig_aggregation s) 0.10 + weight (sig_sort s) 0.05)%float.

Definition capped (x : float) : float :=
  if PrimFloat.ltb 1.0%float x then 1.0%float else x.

(** Inclusion of the sets of matched categories. *)
Definition subsignals (s s' : Signals) : bool :=
  implb (sig_type s) (sig_type s') && implb (sig_table s) (sig_table s')
  && implb (sig_column s) (sig_column s') && implb (sig_filter s) (sig_filter s')
  && implb (sig_aggregation s) (sig_aggregation s')
  && implb (sig_sort s) (sig_sort s').

Definition in_unit_interval (x : float) : bool :=
  PrimFloat.leb 0.0%float x && PrimFloat.leb x 1.0%float.

(** ** Messages of the gateway *)

Definition is_user (message : Message) : bool :=
  match lookup "role" message with
  | Some role => String.eqb role "user"
  | None => false
  end.

(** [message.get("content", "")]. *)
Definition content (message : Message) : string :=
  match lookup "content" message with
  | Some c => c
  | None => ""
  end.

(** The content of the first message whose role is ["user"]. *)
Definition first_user_content (messages : list Message) : option string :=
  option_map content (hd_error (filter is_user messages)).

(** The content of the most recent (last) message whose role is ["user"]. *)
Definition last_user_content (messages : list Message) : option string :=
  option_map content (hd_error (rev (filter is_user messages))).

(** The prompt of the delete scenario. *)
Definition delete_prompt : string := "delete record from items where id = 5".


(** ** Stages of the orchestrator *)

(** The rejection test of the orchestrator. *)
Definition rejected (v : QuerySafetyAnalysis) : bool :=
  negb (safe v) && RiskLevel_eqb (risk_level v) HIGH.

(** The response of a run stopped at the safety check. *)
Definition rejection (prompt sql : string) (parsed : ParsedQuery) : AIQueryResponse :=
  {| success := false; sql_query := Some sql; original_prompt := prompt;
     parsed_info := Some parsed; query_result := None; explanation := None;
     error := Some "Query rejected due to high security risk";
     processing_time := None |}.

(** The explanation stage. *)
Definition explanation_of (w : World) (include_explanation : bool)
  (r : QueryResult) (prompt sql : string) (model : option string) : option string :=
  if include_explanation && qr_success r && AIService.has_rows r
  then match AIQueryProcessor.explain_query_results w (AIService.rows_of r) prompt sql model with
       | AIQueryProcessor.Explained text _ => Some text
       | AIQueryProcessor.ExplainFailed _ => None
       end
  else None.

(** ** The mocked translation *)

(** The user message passes the mock's test for an SQL request and names
    [books], and does not ask for a schema. *)
Definition asks_sql_about_books (user_message : string) : bool :=
  let m := PyStr.lower user_message in
  negb (PyStr.contains m "database schema")
  && negb (PyStr.contains m "create a database")
  && (PyStr.contains m "sql" || PyStr.contains m "query")
  && PyStr.contains m "books".

(** [json.loads] raised [JSONDecodeError]. *)
Definition is_decode_error (r : result value) : Prop :=
  exists message, r = Raise (Exn "JSONDecodeError" message).

(** A prompt about books that mentions SQL. *)
Definition sql_books_prompt : string := "sql query: show all records in books".

(** The prompt of the end-to-end scenario. *)
Definition books_prompt : string := "show all records in books".

(** ** What a match consumed: the matcher is sound

    [consumes r u] is the declarative reading of an expression: [u] is a
    text the expression can consume. *)

(** The texts an expression matches, whatever surrounds them: [\b] takes
    no character. *)
Inductive consumes : Re.regex -> string -> Prop :=
| consumes_empty : consumes Re.Empty ""
| consumes_class items c :
    existsb (Re.item_matches c) items = true ->
    consumes (Re.Class items) (String c "")
| consumes_wordb : consumes Re.WordB ""
| consumes_cat a b u v :
    consumes a u -> consumes b v -> consumes (Re.Cat a b) (u ++ v)
| consumes_alt_l a b u : consumes a u -> consumes (Re.Alt a b) u
| consumes_alt_r a b u : consumes b u -> consumes (Re.Alt a b) u
| consumes_star_nil a : consumes (Re.Star a) ""
| consumes_star_cons a u v :
    consumes a u -> consumes (Re.Star a) v -> consumes (Re.Star a) (u ++ v)
| consumes_plus a u v :
    consumes a u -> consumes (Re.Star a) v -> consumes (Re.Plus a) (u ++ v)
| consumes_opt_none a : consumes (Re.Opt a) ""
| consumes_opt_some a u : consumes a u -> consumes (Re.Opt a) u
| consumes_group n a u : consumes a u -> consumes (Re.Group n a) u.

(** The expressions inside the groups numbered [n]. *)
Fixpoint bodies (n : nat) (r : Re.regex) : list Re.regex :=
  match r with
  | Re.Group m a => (if (m =? n)%nat then [a] else []) ++ bodies n a
  | Re.Cat a b | Re.Alt a b => bodies n a ++ bodies n b
  | Re.Star a | Re.Plus a | Re.Opt a => bodies n a
  | _ => []
  end.

(** Every property shared by the characters of [s] is shared by those of
    [t]: the characters of [t] are characters of [s]. *)
Definition keeps (s t : string) : Prop :=
  forall q, all_chars q s = true -> all_chars q t = true.

(** [t] is a text of group [n] of [r], cut out of [s]. *)
Definition captured_by (r : Re.regex) (s : string) (n : nat) (t : string) : Prop :=
  (exists a, In a (bodies n r) /\ consumes a t) /\ keeps s t.

(** [st'] is reached from [st] by matching [r]. *)
Inductive sound (r : Re.regex) (st st' : Re.mstate) : Prop :=
| Sound (consumed : string) (added : list (nat * string))
    (sound_rest : Re.rest st = consumed ++ Re.rest st')
    (sound_pos : Re.pos st' = Re.pos st + String.length consumed)
    (sound_caps : Re.caps st' = (added ++ Re.caps st)%list)
    (sound_text : consumes r consumed)
    (sound_groups : forall n t, In (n, t) added -> captured_by r (Re.rest st) n t).

Definition sound_run (a : Re.regex)
  (step : Re.mstate -> Re.cont -> option Re.mstate) : Prop :=
  forall st k res, step st k = Some res ->
    exists st', k st' = Some res /\ sound a st st'.

(** What is known of a match of [r] in [s]. *)
Definition match_sound (r : Re.regex) (s : string) (m : Re.rmatch) : Prop :=
  consumes r (Re.m_text m)
  /\ keeps s (Re.m_text m)
  /\ keeps s (Re.rest (Re.m_fin m))
  /\ forall n t, Re.group m n = Some t -> captured_by r s n t.

(** The lower-cased texts of an expression made of literals, when there
    are finitely many. *)
Fixpoint words (r : Re.regex) : option (list string) :=
  match r with
  | Re.Empty | Re.WordB => Some [""]
  | Re.Class [Re.CChar c] => Some [String (PyStr.lower_char c) ""]
  | Re.Class _ => None
  | Re.Cat a b =>
      match words a, words b with
      | Some la, Some lb =>
          Some (flat_map (fun u => map (fun v => u ++ v) lb) la)
      | _, _ => None
      end
  | Re.Alt a b =>
      match words a, words b with
      | Some la, Some lb => Some (la ++ lb)%list
      | _, _ => None
      end
  | Re.Opt a =>
      match words a with
      | Some la => Some ("" :: la)
      | None => None
      end
  | Re.Group _ a => words a
  | Re.Star _ | Re.Plus _ => None
  end.

Definition not_upper (c : ascii) : bool := negb (PyStr.is_upper c).

(** Every text of group [n] of the pattern is, up to case, one of [allowed]. *)
Definition group_words (pattern : string) (n : nat) (allowed : list string) : bool :=
  match Re.compile pattern with
  | Some (r, _) =>
      forallb (fun a => match words a with
                        | Some l => forallb (fun w => PyStr.mem w allowed) l
                        | None => false
                        end) (bodies n r)
  | None => true
  end.

(** Every text of group [n] of the pattern is a non-empty run of
    characters of the items [item_ok] accepts. *)
Definition group_only (item_ok : Re.citem -> bool) (pattern : string) (n : nat) : bool :=
  match Re.compile pattern with
  | Some (r, _) => forallb (fun a => only item_ok a && nonnull a) (bodies n r)
  | None => true
  end.

Definition word_item (i : Re.citem) : bool :=
  match i with
  | Re.CWord | Re.CDigit => true
  | _ => false
  end.

(** A character of a filter value: [\w], [\s] or a quote. *)
Definition value_char (c : ascii) : bool :=
  PyStr.is_word c || PyStr.is_space c
  || Ascii.eqb c "'" || Ascii.eqb c (ascii_of_nat 34).

Definition value_item (i : Re.citem) : bool :=
  match i with
  | Re.CWord | Re.CSpace | Re.CDigit => true
  | Re.CChar d => Ascii.eqb d "'" || Ascii.eqb d (ascii_of_nat 34)
  end.

(** A non-empty string of [\w] characters. *)
Definition is_word_text (t : string) : Prop := good PyStr.is_word t.

(** ** Well-formed parses *)

(** The words [_extract_tables] refuses as table names. *)
Definition indicator_words : list string := ["table"; "from"; "in"; "on"].

(** The operators of the three filter patterns. *)
Definition filter_operators : list string :=
  ["="; ">"; "<"; ">="; "<="; "!="; "like";
   "is"; "equal"; "equals"; "contain"; "contains";
   "greater than"; "less than"; "equal to"].

Definition well_formed_filter (f : Filter) : Prop :=
  (exists c, f_column f = Some c /\ is_word_text c)
  /\ (exists op, f_operator f = Some op /\ In op filter_operators)
  /\ all_chars value_char (f_value f) = true
  /\ PyStr.strip (f_value f) = f_value f.

Definition well_formed_sorting (so : Sorting) : Prop :=
  (exists c, s_column so = Some c /\ is_word_text c)
  /\ (s_direction so = "ASC" \/ s_direction so = "DESC").

(** The functions the first two aggregation patterns name, normalised. *)
Definition aggregate_functions : list string :=
  ["count"; "sum"; "avg"; "max"; "min"].

Definition well_formed_aggregation (a : Aggregation) : Prop :=
  (In (a_function a) aggregate_functions /\ exists c, a_column a = Some c /\ is_word_text c)
  \/ (is_word_text (a_function a) /\ a_column a = Some "*").

(** No suggestion is made. *)
Definition clear_parse (r : ParsedQuery) : Prop :=
  tables r <> [] /\ query_type r <> UNKNOWN
  /\ (query_type r = SELECT -> columns r <> []).

(** A string that does not begin with white space. *)
Definition no_leading_space (s : string) : bool :=
  match s with
  | String c _ => negb (PyStr.is_space c)
  | EmptyString => true
  end.

(** [len(match.groups())] of the matches of a pattern. *)
Definition group_count (pattern : string) : option nat :=
  option_map snd (Re.compile pattern).

(** What the first group of the first two aggregation patterns reads. *)
Definition aggregate_words : list string :=
  ["count"; "sum"; "average"; "avg"; "max"; "min"; "total"; "number of"].

(** The pattern names a function in group 1 and a word in group 2. *)
Definition names_function (pattern : string) : bool :=
  group_words pattern 1 aggregate_words
  && has_group pattern 1 && has_group pattern 2
  && group_only word_item pattern 2
  && match group_count pattern with Some ng => (1 <? ng)%nat | None => true end.

(** The pattern has one group, a word. *)
Definition names_word (pattern : string) : bool :=
  has_group pattern 1 && group_only word_item pattern 1
  && match group_count pattern with Some ng => negb (1 <? ng)%nat | None => true end.

Definition aggregate_match (m : Re.rmatch) : Prop :=
  (exists g1, Re.group m 1 = Some g1 /\ In g1 aggregate_words
     /\ (1 <? Re.m_ngroups m)%nat = true
     /\ exists c, Re.group m 2 = Some c /\ is_word_text c)
  \/ (exists g1, Re.group m 1 = Some g1 /\ is_word_text g1
        /\ (1 <? Re.m_ngroups m)%nat = false).

Fixpoint nines (n : nat) : string :=
  match n with
  | O => ""
  | S n' => String "9" (nines n')
  end.

(** A prompt whose limit has one digit more than [int] converts. *)
Definition long_limit_prompt : string := "limit " ++ nines 4301.

(** ** The safety layers and the mock *)

(** The rule layer's test on the upper-cased text. *)
Definition names_dangerous (query : string) : bool :=
  existsb (PyStr.contains (PyStr.upper query)) SQLiteManager.dangerous_keywords.

(** The messages of the safety request. *)
Definition safety_messages (sql_query : string) : list Message :=
  [ msg "system" AIQueryProcessor.safety_system_message;
    msg "user" ("Analyze this SQL query: " ++ sql_query) ].

(** The five texts the mock answers with. *)
Definition canned_replies : list string :=
  [ AIQueryProcessor.json_dumps AIQueryProcessor.mock_schema; "SELECT * FROM books;";
    "SELECT * FROM users LIMIT 10;"; "SELECT * FROM table_name LIMIT 10;";
    AIQueryProcessor.apology ].

(** The mock's answers to a message that mentions SQL. *)
Definition canned_sql_replies : list string :=
  [ AIQueryProcessor.json_dumps AIQueryProcessor.mock_schema; "SELECT * FROM books;";
    "SELECT * FROM users LIMIT 10;"; "SELECT * FROM table_name LIMIT 10;" ].

(** The value [json.loads] builds from a document of strings, lists and
    objects. *)
Fixpoint value_of_jlit (j : AIQueryProcessor.jlit) : value :=
  match j with
  | AIQueryProcessor.JS s => PStr s
  | AIQueryProcessor.JA l => PList (map value_of_jlit l)
  | AIQueryProcessor.JO d => PDict (map (fun kv => (fst kv, value_of_jlit (snd kv))) d)
  end.

(** [json.loads] on the texts of the mock: the schema document is read
    back, the SQL statements are not JSON. *)
Definition reads_canned_replies (w : World) : Prop :=
  json_loads w (AIQueryProcessor.json_dumps AIQueryProcessor.mock_schema) = Ok (value_of_jlit AIQueryProcessor.mock_schema)
  /\ forall c, In c (tl canned_replies) -> is_decode_error (json_loads w c).

(** The offline world with a [json.loads] that reads the schema document. *)
Definition canned_json_loads (doc : string) : result value :=
  if String.eqb doc (AIQueryProcessor.json_dumps AIQueryProcessor.mock_schema)
  then Ok (value_of_jlit AIQueryProcessor.mock_schema)
  else Scenario.not_json doc.

Definition offline_with_json : World :=
  {| OPENROUTER_API_KEY := None;
     OPENROUTER_MODEL := OPENROUTER_MODEL Scenario.offline;
     requests_post := requests_post Scenario.offline;
     json_loads := canned_json_loads;
     json_dumps_rows := json_dumps_rows Scenario.offline;
     elapsed_seconds := elapsed_seconds Scenario.offline;
     get_database_info := get_database_info Scenario.offline;
     get_database_schema := get_database_schema Scenario.offline;
     execute_query := execute_query Scenario.offline;
     validation_error_text := validation_error_text Scenario.offline |}.

Definition no_newline (s : string) : bool :=
  all_chars (fun c => negb (Ascii.eqb c (ascii_of_nat 10))) s.

(** The verdict built from the rule layer alone. *)
Definition rule_verdict (sql : string) (more_warnings recs : list string)
  : QuerySafetyAnalysis :=
  let basic := SQLiteManager.validate_query_safety sql in
  {| safe := SQLiteManager.safe basic; risk_level := MEDIUM;
     warnings := (match SQLiteManager.warning basic with
                  | Some text => [text]
                  | None => []
                  end ++ more_warnings)%list;
     recommendations := recs |}.

(** ** The registry of databases and the statements on tables *)

(** The identifiers of a store agree with the file names: a path is kept
    under its base name, and an entry of the registry under the identifier
    it carries, the base name of its path. *)
Definition consistent (d : SQLitePaths.Disk) (st : DatabaseModel.Store) : Prop :=
  (forall k p, In (k, p) (DatabaseModel.database_paths st) ->
     SQLitePaths.basename d p = k)
  /\ (forall k info, In (k, info) (DatabaseModel._database_registry st) ->
        DatabaseModel.di_id info = k
        /\ SQLitePaths.basename d (DatabaseModel.di_path info) = k).

(** An entry after the calls that read it: the entry itself, or the
    entry with a reading of the clock as [last_accessed]. *)
Definition accessed (d : SQLitePaths.Disk) (info info' : DatabaseModel.DatabaseInfo)
  : Prop :=
  info' = info
  \/ exists n, info' = DatabaseModel.with_last_accessed info (SQLitePaths.now d n).

(** The store of an instance with the path table [paths] on the shared
    registry. *)
Definition instance (registry : DatabaseModel.Registry) (paths : SQLitePaths.Paths)
  : DatabaseModel.Store :=
  {| DatabaseModel._database_registry := registry;
     DatabaseModel.database_paths := paths |}.

(** A file system with one database file. *)
Definition one_file : SQLitePaths.Disk :=
  {| SQLitePaths.path_exists := fun p => String.eqb p "/data/library.db";
     SQLitePaths.getsize := fun _ => 8192%Z;
     SQLitePaths.basename := fun p => if String.eqb p "/data/library.db"
                                      then "library.db" else p;
     SQLitePaths.suffix := fun p => if String.eqb p "/data/library.db"
                                    then ".db" else "";
     SQLitePaths.table_names := fun _ => Ok ["members"];
     SQLitePaths.now := fun n => (63900000000000000 + Z.of_nat n)%Z |}.

(** The number of occurrences of a character. *)
Fixpoint count_char (c : ascii) (s : string) : nat :=
  match s with
  | EmptyString => 0
  | String x s' => (if Ascii.eqb x c then 1 else 0) + count_char c s'
  end.

(** No question mark in an identifier. *)
Definition plain (s : string) : Prop := count_char "?" s = 0.

(** The number of parameters passed with a statement. *)
Definition bound {A : Type} (params : option (list A)) : nat :=
  match params with
  | Some l => List.length l
  | None => 0
  end.

(** ** Request validators and the schema designer *)

Definition not_space (c : ascii) : bool := negb (PyStr.is_space c).

Definition not_dot (c : ascii) : bool := negb (Ascii.eqb c ".").

(** What [validate_database_name] keeps of a name. *)
Definition clean_name (v : string) : string :=
  RequestValidators.keep_chars RequestValidators.name_char (PyStr.strip v).

(** The outcome of [generate_database_schema] on the reply [content]. *)
Definition schema_outcome (w : World) (content : string)
  : SchemaDesigner.SchemaGeneration :=
  match json_loads w content with
  | Ok schema_data => SchemaDesigner.SchemaGenerated schema_data
  | Raise e =>
      if String.eqb (exn_class e) "JSONDecodeError"
      then SchemaDesigner.SchemaFailed ("Failed to parse AI response: " ++ str_exn e)
      else SchemaDesigner.SchemaFailed (str_exn e)
  end.

(** ** The engine behind a registered database *)

(** An engine that reads the table [members]. *)
Definition members_engine : SQLitePaths.Engine :=
  {| SQLitePaths.run := fun _ _ _ => Ok Scenario.members_rows;
     SQLitePaths.execution_seconds := 0.002%float |}.

(** The entry of [library.db] in the registry. *)
Definition library_info : DatabaseModel.DatabaseInfo :=
  {| DatabaseModel.di_id := "library.db";
     DatabaseModel.di_path := "/data/library.db";
     DatabaseModel.di_tables := ["members"];
     DatabaseModel.di_size := 8192;
     DatabaseModel.di_status := DatabaseModel.CONNECTED;
     DatabaseModel.di_created_at := Some 63899999000000000%Z;
     DatabaseModel.di_last_accessed := Some 63899999000000002%Z |}.

(** What the engine answers on a file, with the execution time. *)
Definition answer_on (g : SQLitePaths.Engine) (file_path query : string)
  (params : option (list SqlValue)) : result QueryResult :=
  r <- SQLitePaths.run g file_path query
         (match params with Some l => l | None => [] end) ;;
  Ok (DatabaseModel.with_execution_time r (SQLitePaths.execution_seconds g)).

(* ================================================================== *)
(** * Properties *)

(** Case analysis on the scrutinee of a [match] in the goal. *)
Ltac case_match :=
  match goal with
  | |- context [match ?x with _ => _ end] => destruct x eqn:?
  end.

(** The same on a hypothesis. *)
Ltac case_match_in H :=
  match type of H with
  | context [match ?x with _ => _ end] => destruct x eqn:?
  end.

(** ** Strings *)

Section StringFacts.

Lemma startswith_app (s p q : string) :
  PyStr.startswith s (p ++ q) = true -> PyStr.startswith s p = true.
Proof.
  revert s; induction p as [|a p IH]; intros s H; [now destruct s|].
  destruct s as [|b s]; simpl in *; [discriminate|].
  apply andb_true_iff in H as [Hab Hs].
  now rewrite Hab, (IH _ Hs).
Qed.

Lemma contains_app (s p q : string) :
  PyStr.contains s (p ++ q) = true -> PyStr.contains s p = true.
Proof.
  induction s as [|a s IH]; intros H.
  - cbn [PyStr.contains] in *. rewrite orb_false_r in *.
    eauto using startswith_app.
  - cbn [PyStr.contains] in *. apply orb_true_iff in H as [H|H].
    + now rewrite (startswith_app _ _ _ H).
    + rewrite (IH H). apply orb_true_r.
Qed.

(** A non-empty needle is not found in the empty string. *)
Lemma contains_empty (c : ascii) (n : string) :
  PyStr.contains "" (String c n) = false.
Proof. reflexivity. Qed.

Variable c : ascii.
Variable n : string.
Hypothesis first_not_space : PyStr.is_space c = false.

Lemma contains_lstrip (s : string) :
  PyStr.contains s (String c n) = true ->
  PyStr.contains (PyStr.lstrip s) (String c n) = true.
Proof.
  induction s as [|a s IH]; intros H; [assumption|].
  cbn [PyStr.lstrip]. destruct (PyStr.is_space a) eqn:Ha; [|assumption].
  cbn [PyStr.contains] in H. apply orb_true_iff in H as [H|H]; [|auto].
  simpl in H. apply andb_true_iff in H as [H _].
  apply Ascii.eqb_eq in H; congruence.
Qed.

End StringFacts.

Lemma rstrip_cons (a : ascii) (s : string) :
  PyStr.rstrip s <> "" -> PyStr.rstrip (String a s) = String a (PyStr.rstrip s).
Proof. cbn [PyStr.rstrip]. now destruct (PyStr.rstrip s). Qed.

Lemma startswith_nonempty (s : string) (c : ascii) (n : string) :
  PyStr.startswith s (String c n) = true -> s <> "".
Proof. now destruct s. Qed.

Lemma startswith_rstrip (n s : string) :
  no_space n = true -> PyStr.startswith s n = true ->
  PyStr.startswith (PyStr.rstrip s) n = true.
Proof.
  revert s; induction n as [|c n IH]; intros s Hn H; [now destruct (PyStr.rstrip s)|].
  destruct s as [|a s]; [discriminate|].
  simpl in Hn, H. apply andb_true_iff in Hn as [Hc Hn], H as [Hca Hs].
  apply Ascii.eqb_eq in Hca; subst a.
  specialize (IH _ Hn Hs).
  destruct n as [|d n].
  - cbn [PyStr.rstrip]. destruct (PyStr.rstrip s).
    + apply negb_true_iff in Hc. rewrite Hc. simpl. now rewrite Ascii.eqb_refl.
    + simpl. now rewrite Ascii.eqb_refl.
  - rewrite rstrip_cons by eauto using startswith_nonempty.
    simpl. now rewrite Ascii.eqb_refl.
Qed.

Lemma contains_rstrip (c : ascii) (n s : string) :
  no_space (String c n) = true ->
  PyStr.contains s (String c n) = true ->
  PyStr.contains (PyStr.rstrip s) (String c n) = true.
Proof.
  intros Hn; induction s as [|a s IH]; intros H; [discriminate|].
  cbn [PyStr.contains] in H. apply orb_true_iff in H as [H|H].
  - apply (startswith_rstrip _ _ Hn) in H.
    destruct (PyStr.rstrip (String a s)); [discriminate|].
    cbn [PyStr.contains]. now rewrite H.
  - specialize (IH H).
    rewrite rstrip_cons by (intros E; rewrite E in IH; discriminate).
    cbn [PyStr.contains]. rewrite IH. apply orb_true_r.
Qed.

(** A keyword without white space survives [strip]. *)
Lemma contains_strip (c : ascii) (n s : string) :
  no_space (String c n) = true ->
  PyStr.contains s (String c n) = true ->
  PyStr.contains (PyStr.strip s) (String c n) = true.
Proof.
  intros Hn H. unfold PyStr.strip. apply contains_rstrip; [assumption|].
  apply contains_lstrip; [|assumption].
  simpl in Hn. apply andb_true_iff in Hn as [Hc _]. now apply negb_true_iff.
Qed.

(** ** The rule layer and the combiner *)

Lemma rule_layer_drop (sql : string) :
  PyStr.contains (PyStr.upper sql) "DROP" = true ->
  SQLiteManager.validate_query_safety sql =
    {| SQLiteManager.safe := false;
       SQLiteManager.warning :=
         Some "Query contains potentially dangerous operation: DROP";
       SQLiteManager.requires_confirmation := true |}.
Proof.
  intros H. unfold SQLiteManager.validate_query_safety.
  cbn [SQLiteManager.first_dangerous SQLiteManager.dangerous_keywords].
  now rewrite (contains_strip "D" "ROP" _ eq_refl H).
Qed.

(** The rule layer answers [safe=False] exactly when it names a keyword. *)
Lemma rule_layer_unsafe_warning (sql : string) :
  SQLiteManager.safe (SQLiteManager.validate_query_safety sql) = false ->
  exists keyword,
    SQLiteManager.warning (SQLiteManager.validate_query_safety sql) =
      Some ("Query contains potentially dangerous operation: " ++ keyword).
Proof.
  unfold SQLiteManager.validate_query_safety.
  destruct SQLiteManager.first_dangerous; simpl; [eauto|discriminate].
Qed.

Lemma new_analysis_safe (describe : ErrorText) (v : value) (risk : RiskLevel)
  (ws rs : list value) (a : QuerySafetyAnalysis) :
  QuerySafetyAnalysis_new describe v risk ws rs = Ok a ->
  validate_bool v = Some (safe a).
Proof.
  unfold QuerySafetyAnalysis_new. intros H.
  repeat case_match_in H; try discriminate. now inversion H.
Qed.

Lemma combine_unsafe (w : World) (basic : SQLiteManager.BasicValidation)
  (ai : AIQueryProcessor.AIValidation) (a : QuerySafetyAnalysis) :
  SQLiteManager.safe basic = false ->
  AIService.combine w basic ai = Ok a -> safe a = false.
Proof.
  intros Hb. unfold AIService.combine. rewrite Hb. destruct ai; intros H.
  - unfold Py.bind in H. repeat case_match_in H; try discriminate.
    apply new_analysis_safe in H. simpl in H. congruence.
  - apply new_analysis_safe in H. simpl in H. congruence.
Qed.

Lemma combine_and (w : World) (basic : SQLiteManager.BasicValidation)
  (d : list (string * value)) (a : QuerySafetyAnalysis) :
  AIService.combine w basic (AIQueryProcessor.Analysed (PDict d)) = Ok a ->
  safe a = SQLiteManager.safe basic && model_safe d.
Proof.
  destruct (SQLiteManager.safe basic) eqn:Hb; intros H;
    [|now rewrite (combine_unsafe _ _ _ _ Hb H)].
  unfold AIService.combine in H. rewrite Hb in H.
  unfold Py.bind in H. repeat case_match_in H; try discriminate.
  apply new_analysis_safe in H. unfold model_safe.
  match goal with
  | Hg : get_method _ "safe" _ = Ok _ |- _ =>
      simpl in Hg; inversion Hg; subst; clear Hg
  end.
  destruct (lookup "safe" d); simpl in *.
  - now rewrite H.
  - now inversion H.
Qed.

Lemma validate_str_list_strings (l : list value) :
  forallb is_string l = true -> exists ws, validate_str_list l = Some ws.
Proof.
  induction l as [|v l IH]; [eexists; reflexivity|].
  destruct v; try discriminate. cbn [forallb is_string andb validate_str_list].
  intros H. destruct (IH H) as [ws ->]. eexists. reflexivity.
Qed.

Lemma extend_from_strings (d : list (string * value)) (key : string)
  (acc : list value) :
  strings_or_absent (lookup key d) = true -> forallb is_string acc = true ->
  exists l, AIService.extend_from (PDict d) key acc = Ok l
            /\ forallb is_string l = true.
Proof.
  unfold AIService.extend_from, strings_or_absent.
  cbn [contains_str getitem_str Py.bind].
  destruct (lookup key d) as [v|]; [|intros _ Ha; exists acc; auto].
  destruct v as [| | | | |l|]; try discriminate. intros Hl Ha.
  exists (acc ++ l)%list. split; [reflexivity|].
  rewrite forallb_app, Ha, Hl. reflexivity.
Qed.

Lemma risk_level_declared (d : list (string * value)) :
  risk_or_absent (lookup "risk_level" d) = true ->
  exists level risk,
    get_method (PDict d) "risk_level" (PStr "medium") = Ok level
    /\ RiskLevel_of level = Ok risk.
Proof.
  unfold risk_or_absent. cbn [get_method].
  destruct (lookup "risk_level" d) as [v|]; [|intros _; eexists _, _; split; reflexivity].
  destruct v as [| | | |s| |]; try discriminate.
  unfold PyStr.mem. cbn [existsb]. intros H. exists (PStr s).
  cbn [RiskLevel_of].
  destruct (String.eqb s "low"); [exists LOW; auto|].
  destruct (String.eqb s "medium"); [exists MEDIUM; auto|].
  destruct (String.eqb s "high"); [exists HIGH; auto|discriminate].
Qed.

(** The combiner returns on a verdict of the declared types. *)
Lemma combine_returns (w : World) (sql : string) (d : list (string * value)) :
  well_formed_verdict d = true ->
  exists a,
    AIService.combine w (SQLiteManager.validate_query_safety sql)
      (AIQueryProcessor.Analysed (PDict d)) = Ok a.
Proof.
  unfold well_formed_verdict. intros H.
  apply andb_true_iff in H as [H Hr]. apply andb_true_iff in H as [H Hw].
  apply andb_true_iff in H as [Hs Hl].
  destruct (risk_level_declared d Hl) as [level [risk [Hg Hk]]].
  destruct (extend_from_strings d "recommendations" [] Hr eq_refl) as [rs [Er Hrs]].
  destruct (validate_str_list_strings rs Hrs) as [rs' Hrs'].
  assert (Hsafe : exists b v,
             get_method (PDict d) "safe" (PBool true) = Ok v
             /\ validate_bool v = Some b).
  { unfold bool_or_absent in Hs. cbn [get_method].
    destruct (lookup "safe" d) as [v|].
    - destruct (validate_bool v) as [b|] eqn:Ev; [|discriminate].
      exists b, v. auto.
    - exists true, (PBool true). auto. }
  destruct Hsafe as [b [v [Hv Hb]]].
  unfold AIService.combine, SQLiteManager.validate_query_safety.
  destruct (SQLiteManager.first_dangerous _ _) as [keyword|];
    cbn [SQLiteManager.safe SQLiteManager.warning negb AIService.value_of].
  - destruct (extend_from_strings d "warnings"
                [PStr ("Query contains potentially dangerous operation: " ++ keyword)]
                Hw eq_refl) as [ws [Ew Hws]].
    destruct (validate_str_list_strings ws Hws) as [ws' Hws'].
    rewrite Ew, Er. cbn [Py.bind]. rewrite Hg. cbn [Py.bind]. rewrite Hk.
    cbn [Py.bind]. unfold QuerySafetyAnalysis_new. cbn [validate_bool].
    rewrite Hws', Hrs'. eexists. reflexivity.
  - destruct (extend_from_strings d "warnings" [] Hw eq_refl) as [ws [Ew Hws]].
    destruct (validate_str_list_strings ws Hws) as [ws' Hws'].
    rewrite Ew, Er. cbn [Py.bind]. rewrite Hv. cbn [Py.bind]. rewrite Hg.
    cbn [Py.bind]. rewrite Hk. cbn [Py.bind]. unfold QuerySafetyAnalysis_new.
    rewrite Hb, Hws', Hrs'. eexists. reflexivity.
Qed.

(** C1, amended.  The rule layer is a veto on the combined verdict: a
    query whose upper-cased text contains [DROP TABLE] is unsafe for the
    rule layer; whenever the rule layer says unsafe the combined [safe] is
    [false] whatever the model layer answered (a verdict, a failure, or a
    value that makes the combination raise); hence a query containing
    [DROP TABLE] in any casing gets [safe=false] in every environment.
    The combined [safe] is the rule layer's [safe] AND the model's [safe]
    (true when the key is absent) whenever the combination returns, and it
    returns on every model verdict whose fields have the declared types;
    in every case a combined [safe=true] needs both layers to say safe. *)
Theorem C1_rule_layer_veto :
  (forall sql,
      PyStr.contains (PyStr.upper sql) "DROP TABLE" = true ->
      SQLiteManager.safe (SQLiteManager.validate_query_safety sql) = false)
  /\ (forall w basic ai,
         SQLiteManager.safe basic = false ->
         safe (AIService.or_validation_error (AIService.combine w basic ai)) = false)
  /\ (forall w basic d a,
         AIService.combine w basic (AIQueryProcessor.Analysed (PDict d)) = Ok a ->
         safe a = SQLiteManager.safe basic && model_safe d)
  /\ (forall w sql d,
         well_formed_verdict d = true ->
         exists a,
           AIService.combine w (SQLiteManager.validate_query_safety sql)
             (AIQueryProcessor.Analysed (PDict d)) = Ok a
           /\ safe a = SQLiteManager.safe (SQLiteManager.validate_query_safety sql)
                       && model_safe d)
  /\ (forall w basic d,
         safe (AIService.or_validation_error
                 (AIService.combine w basic (AIQueryProcessor.Analysed (PDict d))))
           = true ->
         SQLiteManager.safe basic && model_safe d = true)
  /\ (forall w sql model,
         PyStr.contains (PyStr.upper sql) "DROP TABLE" = true ->
         safe (AIService.validate_query_safety w sql model) = false).
Proof.
  assert (Hdrop : forall sql,
             PyStr.contains (PyStr.upper sql) "DROP TABLE" = true ->
             SQLiteManager.safe (SQLiteManager.validate_query_safety sql) = false).
  { intros sql H. rewrite rule_layer_drop; [reflexivity|].
    exact (contains_app _ "DROP" " TABLE" H). }
  assert (Hveto : forall w basic ai,
             SQLiteManager.safe basic = false ->
             safe (AIService.or_validation_error (AIService.combine w basic ai)) = false).
  { intros w basic ai Hb. destruct (AIService.combine w basic ai) eqn:E; simpl.
    - eauto using combine_unsafe.
    - reflexivity. }
  split; [exact Hdrop|]. split; [exact Hveto|].
  split; [intros w basic d a; apply combine_and|].
  split; [|split].
  - intros w sql d Hd. destruct (combine_returns w sql d Hd) as [a Ha].
    exists a. split; [exact Ha|]. exact (combine_and _ _ _ _ Ha).
  - intros w basic d.
    destruct (AIService.combine w basic (AIQueryProcessor.Analysed (PDict d)))
      as [a|e] eqn:E; cbn [AIService.or_validation_error].
    + intros Ha. rewrite <- (combine_and _ _ _ _ E). exact Ha.
    + discriminate.
  - intros w sql model H. apply Hveto, Hdrop, H.
Qed.

Lemma C1_rule_layer_veto_witness :
  PyStr.contains (PyStr.upper "Drop Table users;") "DROP TABLE" = true
  /\ safe (AIService.validate_query_safety Scenario.offline "Drop Table users;" None)
     = false
  /\ exists a,
       AIService.combine Scenario.offline
         (SQLiteManager.validate_query_safety "SELECT * FROM members;")
         (AIQueryProcessor.Analysed
            (PDict [("safe", PBool false); ("risk_level", PStr "low");
                    ("warnings", PList [PStr "reads every row"])])) = Ok a
       /\ safe a = false.
Proof.
  split; [reflexivity|]. split.
  - apply (proj2 (proj2 (proj2 (proj2 (proj2 C1_rule_layer_veto))))). reflexivity.
  - destruct (proj1 (proj2 (proj2 (proj2 C1_rule_layer_veto))) Scenario.offline
                "SELECT * FROM members;"
                [("safe", PBool false); ("risk_level", PStr "low");
                 ("warnings", PList [PStr "reads every row"])] eq_refl)
      as [a [Ha Hs]].
    exists a. split; [exact Ha|]. rewrite Hs. reflexivity.
Defined.

(** C1 as stated fails: the combined flag is not always the rule layer's
    [safe] AND the model's [safe].  The rule layer accepts the query and
    the model answers [safe: true] with the risk level [critical]:
    [RiskLevel] raises, and the handler answers [safe=false]. *)
Lemma C1_combined_flag_counterexample :
  ~ (forall w sql model d,
       AIQueryProcessor.validate_query_safety w sql model
         = AIQueryProcessor.Analysed (PDict d) ->
       safe (AIService.validate_query_safety w sql model)
         = SQLiteManager.safe (SQLiteManager.validate_query_safety sql)
           && model_safe d).
Proof.
  intros H.
  specialize (H Scenario.alarmist "SELECT * FROM members;" None
                Scenario.critical_verdict eq_refl).
  vm_compute in H. discriminate H.
Qed.

(** ** The matcher: what a successful run consumed and captured *)

Lemma string_app_assoc (a b c : string) : (a ++ b) ++ c = a ++ (b ++ c).
Proof. induction a as [|x a IH]; simpl; [reflexivity|now rewrite IH]. Qed.

Lemma string_length_app (a b : string) :
  String.length (a ++ b) = String.length a + String.length b.
Proof. induction a as [|x a IH]; simpl; [reflexivity|now rewrite IH]. Qed.

Lemma substring_prefix (a b : string) : substring 0 (String.length a) (a ++ b) = a.
Proof.
  induction a as [|x a IH]; simpl; [now destruct b|now rewrite IH].
Qed.

Lemma string_app_nonempty (a b : string) : a <> "" \/ b <> "" -> a ++ b <> "".
Proof. destruct a; simpl; [tauto|discriminate]. Qed.

Section RunInvariant.

Variable p : ascii -> bool.
Variable item_ok : Re.citem -> bool.
Hypothesis item_ok_sound :
  forall i c, item_ok i = true -> Re.item_matches c i = true -> p c = true.

Lemma all_chars_app (a b : string) :
  all_chars p (a ++ b) = all_chars p a && all_chars p b.
Proof. induction a as [|x a IH]; simpl; [reflexivity|now rewrite IH, andb_assoc]. Qed.

Lemma reach_refl (wk : list nat) (st : Re.mstate) : reach p true false [] wk st st.
Proof.
  apply (Reach _ _ _ _ _ _ _ "" []); simpl; auto; try easy.
Qed.

Lemma reach_weaken (o nn o' nn' : bool) (mu wk mu' wk' : list nat) st st' :
  reach p o nn mu wk st st' ->
  (o' = true -> o = true) -> (nn' = true -> nn = true) ->
  incl mu' mu -> incl wk wk' ->
  reach p o' nn' mu' wk' st st'.
Proof.
  intros [u ad H1 H2 H3 H4 H5 H6 H7] Ho Hn Hm Hw.
  apply (Reach _ _ _ _ _ _ _ u ad); auto.
  intros n t Hin Hnot. apply (H7 n t Hin). auto.
Qed.

Lemma reach_trans (o1 nn1 o2 nn2 : bool) (mu1 wk1 mu2 wk2 : list nat) st st1 st2 :
  reach p o1 nn1 mu1 wk1 st st1 -> reach p o2 nn2 mu2 wk2 st1 st2 ->
  reach p (o1 && o2) (nn1 || nn2) (mu1 ++ mu2)%list (wk1 ++ wk2)%list st st2.
Proof.
  intros [u1 ad1 A1 A2 A3 A4 A5 A6 A7] [u2 ad2 B1 B2 B3 B4 B5 B6 B7].
  apply (Reach _ _ _ _ _ _ _ (u1 ++ u2) (ad2 ++ ad1)%list).
  - now rewrite A1, B1, string_app_assoc.
  - rewrite B2, A2, string_length_app. lia.
  - now rewrite B3, A3, app_assoc.
  - intros H. apply andb_true_iff in H as [Ha Hb].
    now rewrite all_chars_app, A4, B4.
  - intros H. apply string_app_nonempty. apply orb_true_iff in H as [H|H]; auto.
  - intros n H. apply in_app_iff in H as [H|H].
    + destruct (A6 n H) as [t Ht]. exists t. apply in_app_iff; auto.
    + destruct (B6 n H) as [t Ht]. exists t. apply in_app_iff; auto.
  - intros n t H Hn. apply in_app_iff in H as [H|H].
    + apply (B7 n t H). intros X. apply Hn, in_app_iff; auto.
    + apply (A7 n t H). intros X. apply Hn, in_app_iff; auto.
Qed.

Lemma reach_class (items : list Re.citem) st c s' :
  Re.rest st = String c s' ->
  existsb (Re.item_matches c) items = true ->
  reach_by p item_ok (Re.Class items) st (Re.advance st c s').
Proof.
  intros Hr Hc.
  apply (Reach _ _ _ _ _ _ _ (String c "") []); simpl; auto; try easy.
  - lia.
  - intros Ho. apply existsb_exists in Hc as [i [Hi Hm]].
    rewrite forallb_forall in Ho. now rewrite (item_ok_sound i c (Ho i Hi) Hm).
Qed.

Lemma reach_capture (n : nat) (a : Re.regex) st st1 :
  reach_by p item_ok a st st1 -> reach_by p item_ok (Re.Group n a) st (Re.capture n st st1).
Proof.
  intros [u ad H1 H2 H3 H4 H5 H6 H7].
  assert (Htext : substring 0 (Re.pos st1 - Re.pos st) (Re.rest st) = u).
  { rewrite H2, H1. replace (Re.pos st + String.length u - Re.pos st) with (String.length u) by lia.
    apply substring_prefix. }
  apply (Reach _ _ _ _ _ _ _ u ((n, u) :: ad)); simpl; auto.
  - now rewrite Htext, H3.
  - intros m [<-|Hm]; [exists u; now left|].
    destruct (H6 m Hm) as [t Ht]. exists t. now right.
  - intros m t [E|Hin] Hn.
    + inversion E; subst m t.
      destruct (only item_ok a && nonnull a) eqn:Hg.
      * apply andb_true_iff in Hg as [Ho Hnn]. split; auto.
      * exfalso. apply Hn. simpl. now left.
    + apply (H7 m t Hin). intros X. apply Hn, in_app_iff. now right.
Qed.

Lemma star_reach (a : Re.regex) step :
  sound_step p item_ok a step ->
  forall fuel st k res, Re.star step fuel st k = Some res ->
    exists st', k st' = Some res /\ reach_by p item_ok (Re.Star a) st st'.
Proof.
  intros Hstep. induction fuel as [|fuel IH]; intros st k res H; simpl in H.
  - exists st. split; [assumption|].
    eapply reach_weaken; [exact (reach_refl (weak item_ok a) st)| | | |]; simpl; auto using incl_refl.
  - destruct (step st _) as [res'|] eqn:E.
    + inversion H; subst res'. apply Hstep in E as [st1 [Hk R1]].
      destruct (Re.pos st <? Re.pos st1)%nat; [|discriminate].
      apply IH in Hk as [st2 [Hk R2]]. exists st2. split; [assumption|].
      eapply reach_weaken; [exact (reach_trans _ _ _ _ _ _ _ _ _ _ _ R1 R2)| | | |]; simpl.
      * intros ->. reflexivity.
      * discriminate.
      * apply incl_nil_l.
      * apply incl_app; apply incl_refl.
    + exists st. split; [assumption|].
      eapply reach_weaken; [exact (reach_refl (weak item_ok a) st)| | | |]; simpl; auto using incl_refl.
Qed.

Lemma run_reach (r : Re.regex) :
  forall st k res, Re.run r st k = Some res ->
    exists st', k st' = Some res /\ reach_by p item_ok r st st'.
Proof.
  induction r as [|items| |a IHa b IHb|a IHa b IHb|a IHa|a IHa|a IHa|n a IHa];
    intros st k res H; cbn [Re.run] in H.
  - exists st. split; [assumption|]. apply reach_refl.
  - destruct (Re.rest st) as [|c s'] eqn:Hr; [discriminate|].
    destruct (existsb _ items) eqn:Hc; [|discriminate].
    eexists. split; [eassumption|]. now apply reach_class.
  - destruct (Re.at_boundary st); [|discriminate].
    exists st. split; [assumption|]. apply reach_refl.
  - apply IHa in H as [st1 [H R1]]. apply IHb in H as [st2 [H R2]].
    exists st2. split; [assumption|]. exact (reach_trans _ _ _ _ _ _ _ _ _ _ _ R1 R2).
  - destruct (Re.run a st k) as [res'|] eqn:E.
    + inversion H; subst res'. apply IHa in E as [st1 [Hk R]].
      exists st1. split; [assumption|].
      eapply reach_weaken; [exact R| | | |]; simpl.
      * intros X. now apply andb_true_iff in X.
      * intros X. now apply andb_true_iff in X.
      * apply incl_nil_l.
      * apply incl_appl, incl_refl.
    + apply IHb in H as [st1 [Hk R]].
      exists st1. split; [assumption|].
      eapply reach_weaken; [exact R| | | |]; simpl.
      * intros X. now apply andb_true_iff in X.
      * intros X. now apply andb_true_iff in X.
      * apply incl_nil_l.
      * apply incl_appr, incl_refl.
  - eapply star_reach; [|exact H]. exact IHa.
  - apply IHa in H as [st1 [H R1]].
    eapply star_reach in H as [st2 [H R2]]; [|exact IHa].
    exists st2. split; [assumption|].
    eapply reach_weaken; [exact (reach_trans _ _ _ _ _ _ _ _ _ _ _ R1 R2)| | | |]; simpl.
    + intros ->. reflexivity.
    + intros ->. reflexivity.
    + rewrite app_nil_r. apply incl_refl.
    + apply incl_app; apply incl_refl.
  - destruct (Re.run a st k) as [res'|] eqn:E.
    + inversion H; subst res'. apply IHa in E as [st1 [Hk R]].
      exists st1. split; [assumption|].
      eapply reach_weaken; [exact R| | | |]; simpl; auto using incl_refl, incl_nil_l.
      discriminate.
    + exists st. split; [assumption|].
      eapply reach_weaken; [exact (reach_refl (weak item_ok a) st)| | | |]; simpl; auto using incl_refl.
  - apply IHa in H as [st1 [H R]]. eexists. split; [exact H|]. now apply reach_capture.
Qed.

End RunInvariant.

(** *** Matches *)

Lemma assoc_in (l : list (nat * string)) (n : nat) :
  (exists t, In (n, t) l) -> exists t, Re.assoc n l = Some t /\ In (n, t) l.
Proof.
  induction l as [|[k v] l IH]; intros [t Ht]; [contradiction|].
  simpl. destruct (k =? n)%nat eqn:E.
  - apply Nat.eqb_eq in E; subst k. exists v. split; [reflexivity|now left].
  - destruct Ht as [Ht|Ht].
    + inversion Ht; subst. now rewrite Nat.eqb_refl in E.
    + destruct IH as [t' [H1 H2]]; [now exists t|]. exists t'. split; [assumption|now right].
Qed.

Lemma digit_item_sound (i : Re.citem) (c : ascii) :
  digit_item i = true -> Re.item_matches c i = true -> PyStr.is_digit c = true.
Proof. now destruct i. Qed.

Lemma run_ok (r : Re.regex) (st fin : Re.mstate) (ng i : nat) (text : string) :
  Re.caps st = [] -> Re.run r st Some = Some fin ->
  match_ok r {| Re.m_start := i; Re.m_text := text; Re.m_ngroups := ng;
                Re.m_fin := fin |}.
Proof.
  intros Hst E.
  apply (run_reach _ _ digit_item_sound) in E as [st' [Hk R]].
  inversion Hk; subst st'; clear Hk.
  destruct R as [u ad _ _ Hc _ _ Hm Hg]. rewrite Hst, app_nil_r in Hc.
  intros n Hn. destruct (assoc_in ad n (Hm n Hn)) as [t [Ht Hin]].
  exists t. unfold Re.group. simpl. rewrite Hc. split; [assumption|].
  intros Hw. exact (Hg n t Hin Hw).
Qed.

Lemma scan_ok (r : Re.regex) (ng : nat) (s : string) :
  forall pv i m, Re.scan r ng pv s i = Some m -> match_ok r m.
Proof.
  induction s as [|c s IH]; intros pv i m H; cbn [Re.scan] in H.
  - destruct (Re.run r _ Some) as [fin|] eqn:E; [|discriminate].
    inversion H; subst m. now apply run_ok with (st := Re.Build_mstate pv "" i []).
  - destruct (Re.run r _ Some) as [fin|] eqn:E; [|eauto].
    inversion H; subst m. now apply run_ok with (st := Re.Build_mstate pv (String c s) i []).
Qed.

Lemma scan_all_ok (r : Re.regex) (ng : nat) :
  forall fuel pv s i, Forall (match_ok r) (Re.scan_all fuel r ng pv s i).
Proof.
  induction fuel as [|fuel IH]; intros pv s i; simpl; [constructor|].
  destruct (Re.scan r ng pv s i) as [m|] eqn:E; [|constructor].
  apply scan_ok in E.
  destruct (_ <? _)%nat; [now constructor|].
  destruct (Re.rest (Re.m_fin m)); now repeat constructor.
Qed.

Lemma existsb_eqb_In (n : nat) (l : list nat) :
  existsb (Nat.eqb n) l = true <-> In n l.
Proof.
  rewrite existsb_exists. split.
  - intros [x [Hx E]]. apply Nat.eqb_eq in E. now subst.
  - intros H. exists n. now rewrite Nat.eqb_refl.
Qed.

Lemma finditer_group (pattern : string) (n : nat) (q : string) :
  has_group pattern n = true -> Forall (took_part n) (Re.finditer pattern q).
Proof.
  unfold has_group, Re.finditer. destruct (Re.compile pattern) as [[r ng]|]; [|constructor].
  intros H. apply existsb_eqb_In in H.
  eapply Forall_impl; [|apply scan_all_ok].
  intros m Hm. destruct (Hm n H) as [t [Ht _]]. now exists t.
Qed.

Lemma search_numeral (pattern : string) (n : nat) (q : string) (m : Re.rmatch) :
  has_numeral pattern n = true -> Re.search pattern q = Some m ->
  exists t, Re.group m n = Some t /\ numeral t.
Proof.
  unfold has_numeral, Re.search. destruct (Re.compile pattern) as [[r ng]|]; [|discriminate].
  intros H Hs. apply andb_true_iff in H as [H1 H2].
  apply existsb_eqb_In in H1. apply scan_ok in Hs.
  destruct (Hs n H1) as [t [Ht Hg]]. exists t. split; [assumption|].
  apply Hg. intros X. apply existsb_eqb_In in X. now rewrite X in H2.
Qed.

(** ** The intent parser returns *)

(** Every pattern of the parser is in the fragment [Re.compile] reads. *)
Lemma patterns_compile :
  forallb (fun pattern => NaturalLanguageParser.is_some (Re.compile pattern))
    (NaturalLanguageParser.select_keywords ++ NaturalLanguageParser.count_keywords
     ++ NaturalLanguageParser.filter_keywords ++ NaturalLanguageParser.insert_keywords
     ++ NaturalLanguageParser.update_keywords ++ NaturalLanguageParser.delete_keywords
     ++ NaturalLanguageParser.table_indicators ++ NaturalLanguageParser.column_indicators
     ++ NaturalLanguageParser.sort_keywords ++ NaturalLanguageParser.limit_keywords
     ++ NaturalLanguageParser.where_patterns ++ NaturalLanguageParser.agg_patterns
     ++ NaturalLanguageParser.sort_patterns ++ NaturalLanguageParser.limit_patterns
     ++ [NaturalLanguageParser.select_pattern])%list = true.
Proof. vm_compute. reflexivity. Qed.

Import NaturalLanguageParser.

Lemma all_matches_Forall (P : Re.rmatch -> Prop) (patterns : list string) (q : string) :
  Forall (fun pattern => Forall P (Re.finditer pattern q)) patterns ->
  Forall P (all_matches patterns q).
Proof.
  unfold all_matches. induction 1; simpl; [constructor|].
  apply Forall_app. now split.
Qed.

Lemma all_matches_group (patterns : list string) (n : nat) (q : string) :
  forallb (fun pattern => has_group pattern n) patterns = true ->
  Forall (took_part n) (all_matches patterns q).
Proof.
  intros H. apply all_matches_Forall. rewrite forallb_forall in H.
  apply Forall_forall. intros pattern Hin. apply finditer_group. auto.
Qed.

Lemma select_columns_returns (ms : list Re.rmatch) :
  Forall (took_part 2) ms -> exists l, select_columns ms = Ok l.
Proof.
  induction 1 as [|m ms [t Ht] _ [l IH]]; cbn [select_columns]; [eauto|].
  rewrite Ht, IH. destruct (1 <? Re.m_ngroups m)%nat; cbn [Py.bind]; eauto.
Qed.

Lemma filters_of_returns (ms : list Re.rmatch) :
  Forall (took_part 3) ms -> exists l, filters_of ms = Ok l.
Proof.
  induction 1 as [|m ms [t Ht] _ [l IH]]; cbn [filters_of]; [eauto|].
  rewrite Ht, IH. destruct (3 <=? Re.m_ngroups m)%nat; cbn [Py.bind]; eauto.
Qed.

Lemma aggregations_of_returns (ms : list Re.rmatch) :
  Forall (took_part 1) ms -> exists l, aggregations_of ms = Ok l.
Proof.
  induction 1 as [|m ms [t Ht] _ [l IH]]; cbn [aggregations_of]; [eauto|].
  rewrite Ht, IH. cbn [Py.bind]. eauto.
Qed.

Lemma digits_value_returns (t : string) :
  all_chars PyStr.is_digit t = true -> forall acc, exists z, digits_value acc t = Some z.
Proof.
  induction t as [|c t IH]; simpl; intros H acc; [eauto|].
  apply andb_true_iff in H as [Hc Ht]. rewrite Hc. auto.
Qed.

(** [int] returns on a run of at most 4300 digits and raises [ValueError]
    on a longer one. *)
Lemma int_of_outcome (t : string) :
  numeral t ->
  if (int_max_str_digits <? String.length t)%nat
  then exists message, int_of (Some t) = Raise (Exn "ValueError" message)
  else exists z, int_of (Some t) = Ok z.
Proof.
  intros [Hd Hne]. destruct t as [|c t]; [congruence|].
  destruct (digits_value_returns _ Hd 0%Z) as [z Hz].
  unfold int_of. rewrite Hz.
  destruct (int_max_str_digits <? String.length (String c t))%nat; eauto.
Qed.

Lemma int_of_returns (t : string) :
  numeral t -> (String.length t <= int_max_str_digits)%nat ->
  exists z, int_of (Some t) = Ok z.
Proof.
  intros Hn Hl. pose proof (int_of_outcome t Hn) as H.
  apply Nat.ltb_ge in Hl. now rewrite Hl in H.
Qed.

Lemma first_match_search (patterns : list string) (q : string) (m : Re.rmatch) :
  first_match patterns q = Some m ->
  exists pattern, In pattern patterns /\ Re.search pattern q = Some m.
Proof.
  induction patterns as [|pattern patterns IH]; simpl; [discriminate|].
  destruct (Re.search pattern q) as [m'|] eqn:E; intros H.
  - inversion H; subst m'. exists pattern. auto.
  - destruct (IH H) as [p' [Hin Hs]]. exists p'. auto.
Qed.

(** [_extract_limit] returns, or raises the [ValueError] of [int] on a
    run of more than 4300 digits. *)
Lemma _extract_limit_outcome (q : string) :
  (exists l, _extract_limit q = Ok l)
  \/ (exists message, _extract_limit q = Raise (Exn "ValueError" message)).
Proof.
  unfold _extract_limit.
  destruct (first_match limit_patterns q) as [m|] eqn:E; [|left; eauto].
  apply first_match_search in E as [pattern [Hin Hs]].
  assert (Hn : has_numeral pattern 1 = true).
  { assert (Hall : forallb (fun pattern => has_numeral pattern 1) limit_patterns = true)
      by (vm_compute; reflexivity).
    rewrite forallb_forall in Hall. auto. }
  destruct (search_numeral _ _ _ _ Hn Hs) as [t [Ht Hnum]].
  pose proof (int_of_outcome t Hnum) as H. rewrite Ht.
  destruct (int_max_str_digits <? String.length t)%nat.
  - destruct H as [message H]. rewrite H. right. exists message. reflexivity.
  - destruct H as [z H]. rewrite H. left. eexists. reflexivity.
Qed.

Lemma _extract_columns_returns (q : string) : exists l, _extract_columns q = Ok l.
Proof.
  unfold _extract_columns.
  destruct (select_columns_returns (Re.finditer select_pattern q)) as [l Hl].
  { apply finditer_group. vm_compute. reflexivity. }
  rewrite Hl. simpl. eauto.
Qed.

Lemma _extract_filters_returns (q : string) : exists l, _extract_filters q = Ok l.
Proof.
  apply filters_of_returns, all_matches_group. vm_compute. reflexivity.
Qed.

Lemma _extract_aggregations_returns (q : string) :
  exists l, _extract_aggregations q = Ok l.
Proof.
  apply aggregations_of_returns, all_matches_group. vm_compute. reflexivity.
Qed.

(** The parser returns a result, or raises the [ValueError] of [int]:
    the limit it reads is a run of more than 4300 digits. *)
Lemma parse_query_outcome (query : string) :
  (exists r, parse_query query = Ok r)
  \/ (exists message, parse_query query = Raise (Exn "ValueError" message)).
Proof.
  unfold parse_query.
  destruct (_extract_columns_returns (PyStr.strip (PyStr.lower query))) as [cs ->].
  destruct (_extract_filters_returns (PyStr.strip (PyStr.lower query))) as [fs ->].
  destruct (_extract_aggregations_returns (PyStr.strip (PyStr.lower query))) as [ags ->].
  destruct (_extract_limit_outcome (PyStr.strip (PyStr.lower query)))
    as [[li ->]|[message ->]]; cbn [Py.bind]; [left|right]; eauto.
Qed.

(** ** The confidence score *)

Lemma calculate_confidence_spec (r : ParsedQuery) :
  _calculate_confidence r = capped (weighted_sum (signals_of r)).
Proof.
  unfold _calculate_confidence, weighted_sum, signals_of, capped, min_float, weight.
  cbn [sig_type sig_table sig_column sig_filter sig_aggregation sig_sort].
  destruct (negb _), (nonempty (tables r)), (nonempty (columns r)),
    (nonempty (filters r)), (nonempty (aggregations r)), (is_some (sorting r));
    vm_compute; reflexivity.
Qed.

Lemma capped_sum_range (s : Signals) :
  in_unit_interval (capped (weighted_sum s)) = true.
Proof. destruct s as [[] [] [] [] [] []]; vm_compute; reflexivity. Qed.

Lemma capped_sum_monotone (s s' : Signals) :
  subsignals s s' = true ->
  PrimFloat.leb (capped (weighted_sum s)) (capped (weighted_sum s')) = true.
Proof.
  destruct s as [[] [] [] [] [] []], s' as [[] [] [] [] [] []];
    intros H; vm_compute in H |- *; first [reflexivity | discriminate].
Qed.

Lemma parse_query_confidence (query : string) (r : ParsedQuery) :
  parse_query query = Ok r ->
  confidence r = capped (weighted_sum (signals_of r)).
Proof.
  unfold parse_query, Py.bind. intros H.
  repeat case_match_in H; try discriminate.
  inversion H; subst r; clear H.
  cbn [confidence with_suggestions with_confidence].
  rewrite calculate_confidence_spec. reflexivity.
Qed.

(** C6.  The confidence of every result the parser returns is the
    weighted sum of the six signal categories (0.30 type, 0.20 table, 0.20
    column, 0.15 filter, 0.10 aggregation, 0.05 sort) capped at 1.0; the
    confidence lies in [0,1]; and a parse that matches a superset of the
    categories of another has at least its confidence. *)
Theorem C6_confidence_weighted_sum (query : string) (r : ParsedQuery) :
  parse_query query = Ok r ->
  confidence r = capped (weighted_sum (signals_of r))
  /\ in_unit_interval (confidence r) = true
  /\ forall query' r',
       parse_query query' = Ok r' ->
       subsignals (signals_of r) (signals_of r') = true ->
       PrimFloat.leb (confidence r) (confidence r') = true.
Proof.
  intros Hr. rewrite (parse_query_confidence _ _ Hr).
  split; [reflexivity|]. split; [apply capped_sum_range|].
  intros query' r' Hr' Hsub. rewrite (parse_query_confidence _ _ Hr').
  now apply capped_sum_monotone.
Qed.

Lemma C6_confidence_weighted_sum_witness :
  exists r r',
    parse_query "show all users" = Ok r
    /\ parse_query "show name from users where age = 5 order by name" = Ok r'
    /\ subsignals (signals_of r) (signals_of r') = true
    /\ PrimFloat.leb (confidence r) (confidence r') = true.
Proof.
  destruct (parse_query "show all users") as [r|e] eqn:Hr;
    [|vm_compute in Hr; discriminate Hr].
  destruct (parse_query "show name from users where age = 5 order by name")
    as [r'|e] eqn:Hr'; [|vm_compute in Hr'; discriminate Hr'].
  exists r, r'. split; [reflexivity|]. split; [reflexivity|].
  assert (Hsub : subsignals (signals_of r) (signals_of r') = true).
  { vm_compute in Hr, Hr'. inversion Hr; inversion Hr'. reflexivity. }
  split; [exact Hsub|].
  exact (proj2 (proj2 (C6_confidence_weighted_sum _ _ Hr)) _ _ Hr' Hsub).
Defined.

(** ** The delete prompt *)

(** C5, failing input.  On [delete record from items where id = 5] the
    parser returns [query_type = insert] and not [delete]: the word
    [delete] does match the delete family, but the word [record] belongs to
    the insert family, which is tried first.  The tables contain [items]
    and there is a filter on the column [id]. *)
Theorem C5_delete_prompt_parse :
  exists r, parse_query delete_prompt = Ok r
    /\ query_type r = INSERT
    /\ In "items" (tables r)
    /\ exists f, In f (filters r) /\ f_column f = Some "id".
Proof.
  eexists. split; [vm_compute; reflexivity|].
  split; [reflexivity|]. split; [now left|].
  eexists. split; [now left|reflexivity].
Qed.

(** The parse of the prompt has no [query_type = delete]. *)
Lemma delete_prompt_is_not_delete :
  ~ (exists r, parse_query delete_prompt = Ok r
       /\ query_type r = DELETE
       /\ In "items" (tables r)
       /\ exists f, In f (filters r) /\ f_column f = Some "id").
Proof.
  intros [r [H [Ht _]]]. vm_compute in H. inversion H; subst r. discriminate Ht.
Qed.

(** The keyword that decides: the insert family is tried before the delete
    family, and its second pattern finds the word [record]. *)
Lemma delete_prompt_families :
  any_found count_keywords delete_prompt = false
  /\ any_found select_keywords delete_prompt = false
  /\ Re.found "\b(record|entry|row)\b" delete_prompt = true
  /\ any_found delete_keywords delete_prompt = true.
Proof. vm_compute. repeat split. Qed.


(** ** The model gateway *)

Import AIQueryProcessor.

Lemma user_message_of_first (messages : list Message) :
  AIQueryProcessor.user_message_of messages =
    match first_user_content messages with
    | Some c => c
    | None => ""
    end.
Proof.
  unfold first_user_content.
  induction messages as [|message messages IH]; [reflexivity|].
  cbn [AIQueryProcessor.user_message_of filter]. unfold is_user at 1.
  destruct (lookup "role" message) as [role|]; [|exact IH].
  destruct (String.eqb role "user"); [reflexivity|exact IH].
Qed.

(** C7, amended.  The mock reply is determined by the content of the first
    message whose role is [user]: two message lists whose first user-role
    messages have the same content get the same mock reply. *)
Theorem C7_mock_reads_first_user_message (l1 l2 : list Message) :
  first_user_content l1 = first_user_content l2 ->
  AIQueryProcessor._get_mock_response l1 = AIQueryProcessor._get_mock_response l2.
Proof.
  intros H. unfold AIQueryProcessor._get_mock_response.
  now rewrite !user_message_of_first, H.
Qed.

Lemma C7_mock_reads_first_user_message_witness :
  first_user_content [msg "system" "Respond with only the SQL query."; msg "user" "list the books with sql"]
  = first_user_content [msg "user" "list the books with sql"; msg "user" "thanks"]
  /\ AIQueryProcessor._get_mock_response
       [msg "system" "Respond with only the SQL query."; msg "user" "list the books with sql"]
     = AIQueryProcessor._get_mock_response
       [msg "user" "list the books with sql"; msg "user" "thanks"].
Proof.
  split; [reflexivity|].
  apply C7_mock_reads_first_user_message. reflexivity.
Defined.

(** C7 as stated fails: two lists with the same most recent user message
    and different mock replies. *)
Lemma C7_last_user_message_counterexample :
  ~ (forall l1 l2 : list Message,
        last_user_content l1 = last_user_content l2 ->
        AIQueryProcessor._get_mock_response l1 = AIQueryProcessor._get_mock_response l2).
Proof.
  intros H.
  specialize (H [msg "user" "sql for the books"; msg "user" "hello"]
                [msg "user" "hello"] eq_refl).
  vm_compute in H. discriminate H.
Qed.

(** With a single user message, as in every list the processor builds,
    the first and the most recent user message are the same. *)
Lemma single_user_message (messages : list Message) :
  List.length (filter is_user messages) = 1 ->
  first_user_content messages = last_user_content messages.
Proof.
  unfold first_user_content, last_user_content.
  destruct (filter is_user messages) as [|m [|m' l]]; simpl; try discriminate.
  reflexivity.
Qed.


Lemma mock_content_nonempty (user_message : string) :
  mock_content user_message <> "".
Proof.
  unfold mock_content. repeat case_match; discriminate.
Qed.

(** The content of a mock reply, as the callers read it. *)
Lemma mock_reply_content (messages : list Message) :
  exists c, c <> "" /\
    _get_mock_response messages =
      PDict [("choices", PList [PDict [("message", PDict [("content", PStr c)])]])].
Proof.
  eexists. split; [|reflexivity]. apply mock_content_nonempty.
Qed.

Lemma gateway_without_credentials (w : World) messages temperature model :
  falsy (OPENROUTER_API_KEY w) = true
  \/ falsy (if falsy model then OPENROUTER_MODEL w else model) = true ->
  _make_api_request w messages temperature model = Ok (_get_mock_response messages).
Proof.
  unfold _make_api_request, falsy. intros [H|H].
  - destruct (OPENROUTER_API_KEY w) as [[|]|]; try discriminate; reflexivity.
  - destruct (OPENROUTER_API_KEY w) as [[|]|]; try reflexivity.
    revert H. destruct model as [[|]|]; simpl;
      destruct (OPENROUTER_MODEL w) as [[|]|]; try discriminate; reflexivity.
Qed.

Lemma gateway_network_error (w : World) messages temperature model key name e :
  OPENROUTER_API_KEY w = Some key -> key <> "" ->
  (if falsy model then OPENROUTER_MODEL w else model) = Some name -> name <> "" ->
  requests_post w {| p_api_key := key; p_model := name; p_messages := messages;
                     p_temperature := temperature; p_max_tokens := 8192 |} = Raise e ->
  _make_api_request w messages temperature model = Raise unbound_response.
Proof.
  intros Hk Hkn Hm Hmn Hp. unfold _make_api_request. rewrite Hk, Hm.
  destruct key; [congruence|]. destruct name; [congruence|].
  rewrite Hp. reflexivity.
Qed.

Lemma gateway_bad_status (w : World) messages temperature model key name response :
  OPENROUTER_API_KEY w = Some key -> key <> "" ->
  (if falsy model then OPENROUTER_MODEL w else model) = Some name -> name <> "" ->
  requests_post w {| p_api_key := key; p_model := name; p_messages := messages;
                     p_temperature := temperature; p_max_tokens := 8192 |} = Ok response ->
  status_code response <> 200%Z \/ (exists e, json response = Raise e) ->
  _make_api_request w messages temperature model = Ok (_get_mock_response messages).
Proof.
  intros Hk Hkn Hm Hmn Hp Hs. unfold _make_api_request. rewrite Hk, Hm.
  destruct key; [congruence|]. destruct name; [congruence|].
  rewrite Hp. destruct (status_code response =? 200)%Z eqn:E; simpl.
  - destruct Hs as [Hs|[e' He]]; [apply Z.eqb_eq in E; contradiction|].
    now rewrite He.
  - reflexivity.
Qed.

(** C3, failing input.  A credential and a model are configured and
    [requests.post] raises a connection error: the handler of
    [_make_api_request] reads the unbound local [response], and the gateway
    raises [UnboundLocalError] to its caller instead of returning the mock
    reply. *)
Theorem C3_gateway_raises_when_unreachable :
  _make_api_request Scenario.unreachable
    [msg "system" "You are a data analyst."; msg "user" "show all users"]
    0.1%float None
  = Raise unbound_response.
Proof. reflexivity. Qed.

(** ** The orchestrator *)

Import AIService.

Lemma bindM_lift_ok {A B : Type} (a : A) (f : A -> M B) :
  bindM (lift (Ok a)) f = f a.
Proof. unfold bindM, lift. now destruct (f a). Qed.

Lemma bindM_lift_raise {A B : Type} (e : exn) (f : A -> M B) :
  bindM (lift (Raise e)) f = (Raise e, []).
Proof. reflexivity. Qed.

(** The parsed dictionary always passes the validation of [ParsedQuery]. *)
Lemma parsed_query_valid (describe : ErrorText) (query : string) (r : ParsedQuery) :
  parse_query query = Ok r -> ParsedQuery_new describe r = Ok r.
Proof.
  intros H. unfold ParsedQuery_new.
  rewrite (parse_query_confidence _ _ H).
  pose proof (capped_sum_range (signals_of r)) as Hr.
  unfold in_unit_interval in Hr. now rewrite Hr.
Qed.

Section Stages.

Variable w : World.
Variables prompt database_id : string.
Variable include_explanation : bool.
Variable model : option string.


Lemma stage_validate_db_raises (e : exn) :
  get_database_info w database_id = Raise e -> process_try w prompt database_id include_explanation model = (Raise e, []).
Proof. intros H. unfold process_try. now rewrite H. Qed.

Lemma stage_validate_db_not_found :
  get_database_info w database_id = Ok false ->
  process_try w prompt database_id include_explanation model = (Ok (failure prompt None None "Database not found" None), []).
Proof. intros H. unfold process_try. now rewrite H. Qed.

Hypothesis database_found : get_database_info w database_id = Ok true.

Lemma stage_parse_raises (e : exn) :
  parse_query prompt = Raise e ->
  process_try w prompt database_id include_explanation model = (Raise e, []).
Proof.
  intros H. unfold process_try.
  rewrite database_found, bindM_lift_ok. cbn [negb]. now rewrite H.
Qed.

Variable parsed : ParsedQuery.
Hypothesis prompt_parsed : parse_query prompt = Ok parsed.

Lemma stage_schema_raises (e : exn) :
  get_database_schema w database_id = Raise e -> process_try w prompt database_id include_explanation model = (Raise e, []).
Proof.
  intros H. unfold process_try.
  rewrite database_found, bindM_lift_ok. cbn [negb].
  rewrite prompt_parsed, bindM_lift_ok.
  rewrite (parsed_query_valid _ _ _ prompt_parsed), bindM_lift_ok.
  now rewrite H.
Qed.

Lemma stage_schema_falsy :
  get_database_schema w database_id = Ok None ->
  process_try w prompt database_id include_explanation model = (Ok (failure prompt None None "Could not retrieve database schema" None), []).
Proof.
  intros H. unfold process_try.
  rewrite database_found, bindM_lift_ok. cbn [negb].
  rewrite prompt_parsed, bindM_lift_ok.
  rewrite (parsed_query_valid _ _ _ prompt_parsed), bindM_lift_ok.
  now rewrite H.
Qed.

Variable schema : Schema.
Hypothesis schema_fetched : get_database_schema w database_id = Ok (Some schema).

Lemma stage_synthesis_failed (err : string) :
  natural_language_to_sql w prompt schema model = SqlFailed err ->
  process_try w prompt database_id include_explanation model = (Ok (failure prompt None (Some parsed) err None), []).
Proof.
  intros H. unfold process_try.
  rewrite database_found, bindM_lift_ok. cbn [negb].
  rewrite prompt_parsed, bindM_lift_ok.
  rewrite (parsed_query_valid _ _ _ prompt_parsed), bindM_lift_ok.
  rewrite schema_fetched, bindM_lift_ok. now rewrite H.
Qed.

Variable sql : string.
Hypothesis synthesized : natural_language_to_sql w prompt schema model = SqlGenerated sql.

Lemma stage_rejected :
  rejected (AIService.validate_query_safety w sql model) = true ->
  process_try w prompt database_id include_explanation model = (Ok (rejection prompt sql parsed), []).
Proof.
  intros H. unfold process_try.
  rewrite database_found, bindM_lift_ok. cbn [negb].
  rewrite prompt_parsed, bindM_lift_ok.
  rewrite (parsed_query_valid _ _ _ prompt_parsed), bindM_lift_ok.
  rewrite schema_fetched, bindM_lift_ok, synthesized.
  unfold rejected in H. now rewrite H.
Qed.

Hypothesis passed_safety :
  rejected (AIService.validate_query_safety w sql model) = false.

Lemma stage_execute_raises (e : exn) :
  execute_query w database_id sql = Raise e ->
  process_try w prompt database_id include_explanation model = (Raise e, [(database_id, sql)]).
Proof.
  intros H. unfold process_try.
  rewrite database_found, bindM_lift_ok. cbn [negb].
  rewrite prompt_parsed, bindM_lift_ok.
  rewrite (parsed_query_valid _ _ _ prompt_parsed), bindM_lift_ok.
  rewrite schema_fetched, bindM_lift_ok, synthesized.
  unfold rejected in passed_safety. rewrite passed_safety.
  unfold run_query, bindM. now rewrite H.
Qed.

Lemma stage_execute_returns (r : QueryResult) :
  execute_query w database_id sql = Ok r ->
  process_try w prompt database_id include_explanation model =
    (Ok {| success := true; sql_query := Some sql; original_prompt := prompt;
           parsed_info := Some parsed; query_result := Some r;
           explanation := explanation_of w include_explanation r prompt sql model;
           error := None; processing_time := Some (elapsed_seconds w) |},
     [(database_id, sql)]).
Proof.
  intros H. unfold process_try.
  rewrite database_found, bindM_lift_ok. cbn [negb].
  rewrite prompt_parsed, bindM_lift_ok.
  rewrite (parsed_query_valid _ _ _ prompt_parsed), bindM_lift_ok.
  rewrite schema_fetched, bindM_lift_ok, synthesized.
  unfold rejected in passed_safety. rewrite passed_safety.
  unfold run_query, bindM. now rewrite H.
Qed.

End Stages.

(** Every outcome of the body of the [try]: a response that succeeded or
    names its error, or an exception. *)
Lemma process_try_outcome (w : World) (prompt database_id : string)
  (include_explanation : bool) (model : option string) :
  match process_try w prompt database_id include_explanation model with
  | (Ok response, _) =>
      success response = true \/ exists message, error response = Some message
  | (Raise _, _) => True
  end.
Proof.
  destruct (get_database_info w database_id) as [[|]|e] eqn:Hdb;
    [|rewrite stage_validate_db_not_found by assumption; simpl; eauto
     |now rewrite (stage_validate_db_raises _ _ _ _ _ e)].
  destruct (parse_query prompt) as [parsed|e] eqn:Hp;
    [|now rewrite (stage_parse_raises _ _ _ _ _ Hdb e Hp)].
  destruct (get_database_schema w database_id) as [[schema|]|e] eqn:Hs;
    [|rewrite (stage_schema_falsy _ _ _ _ _ Hdb parsed) by assumption; simpl; eauto
     |now rewrite (stage_schema_raises _ _ _ _ _ Hdb parsed Hp e)].
  destruct (natural_language_to_sql w prompt schema model) as [sql|err] eqn:Hsql;
    [|rewrite (stage_synthesis_failed _ _ _ _ _ Hdb parsed Hp schema Hs err Hsql);
      simpl; eauto].
  destruct (rejected (AIService.validate_query_safety w sql model)) eqn:Hr;
    [rewrite (stage_rejected _ _ _ _ _ Hdb parsed Hp schema Hs sql Hsql Hr);
     simpl; eauto|].
  destruct (execute_query w database_id sql) as [r|e] eqn:He.
  - rewrite (stage_execute_returns _ _ _ _ _ Hdb parsed Hp schema Hs sql Hsql Hr r He).
    simpl; auto.
  - now rewrite (stage_execute_raises _ _ _ _ _ Hdb parsed Hp schema Hs sql Hsql Hr e He).
Qed.

(** C8.  The pipeline returns a response for every prompt, database id and
    environment; a response with [success=false] has its [error] set; and
    when the body of the [try] raises [e], the response is the one of the
    handler: [success=false] and [error = str(e)]. *)
Theorem C8_pipeline_never_raises (w : World) (prompt database_id : string)
  (include_explanation : bool) (model : option string) :
  exists response trace,
    process_natural_language_query w prompt database_id include_explanation model
      = (Ok response, trace)
    /\ (success response = false -> exists message, error response = Some message)
    /\ (forall e,
          fst (process_try w prompt database_id include_explanation model) = Raise e ->
          response =
            {| success := false; sql_query := None; original_prompt := prompt;
               parsed_info := None; query_result := None; explanation := None;
               error := Some (str_exn e);
               processing_time := Some (elapsed_seconds w) |}).
Proof.
  pose proof (process_try_outcome w prompt database_id include_explanation model) as H.
  unfold process_natural_language_query.
  destruct (process_try w prompt database_id include_explanation model)
    as [[response|e] trace]; eexists; eexists; (split; [reflexivity|]); split.
  - intros Hf. destruct H as [H|H]; [congruence|assumption].
  - discriminate.
  - simpl. eauto.
  - simpl. intros e' He. now inversion He.
Qed.

Lemma C8_pipeline_never_raises_witness :
  fst (process_try Scenario.damaged "show all users" "library.db" false None)
    = Raise (Exn "DatabaseError" "file is not a database")
  /\ exists response trace,
       process_natural_language_query Scenario.damaged "show all users"
         "library.db" false None = (Ok response, trace)
       /\ success response = false
       /\ error response = Some "file is not a database".
Proof.
  split; [vm_compute; reflexivity|].
  destruct (C8_pipeline_never_raises Scenario.damaged "show all users"
              "library.db" false None) as [response [trace [H1 [H2 H3]]]].
  exists response, trace. split; [exact H1|].
  rewrite (H3 (Exn "DatabaseError" "file is not a database"));
    [split; reflexivity|vm_compute; reflexivity].
Defined.

(** C2.  A run that reaches the execution stage (database found, prompt
    parsed, schema fetched, SQL synthesized, not rejected by the safety
    check) and whose engine call returns [r] answers [success=true] with
    the synthesized SQL and [r] itself as [query_result], whatever [r]
    says, in particular when [qr_success r = false]; the statement went to
    the engine once. *)
Theorem C2_execution_failure_not_fatal (w : World) (prompt database_id : string)
  (include_explanation : bool) (model : option string) (parsed : ParsedQuery)
  (schema : Schema) (sql : string) (r : QueryResult) :
  get_database_info w database_id = Ok true ->
  parse_query prompt = Ok parsed ->
  get_database_schema w database_id = Ok (Some schema) ->
  natural_language_to_sql w prompt schema model = SqlGenerated sql ->
  rejected (AIService.validate_query_safety w sql model) = false ->
  execute_query w database_id sql = Ok r ->
  exists response,
    process_natural_language_query w prompt database_id include_explanation model
      = (Ok response, [(database_id, sql)])
    /\ success response = true
    /\ sql_query response = Some sql
    /\ query_result response = Some r
    /\ error response = None.
Proof.
  intros Hdb Hp Hs Hsql Hr He.
  unfold process_natural_language_query.
  rewrite (stage_execute_returns _ _ _ _ _ Hdb parsed Hp schema Hs sql Hsql Hr r He).
  eexists. split; [reflexivity|]. repeat split.
Qed.

Lemma C2_execution_failure_not_fatal_witness :
  exists response,
    process_natural_language_query Scenario.offline "show all records in books"
      "library.db" true None
      = (Ok response, [("library.db", apology)])
    /\ success response = true
    /\ sql_query response = Some apology
    /\ query_result response
       = Some (Scenario.engine_error ("near " ++ PyStr.dq ++ "I" ++ PyStr.dq ++ ": syntax error"))
    /\ error response = None.
Proof.
  refine (C2_execution_failure_not_fatal Scenario.offline "show all records in books"
            "library.db" true None _ Scenario.library apology _ _ _ _ _ _ _);
    vm_compute; reflexivity.
Defined.

(** *** Failures after the parse *)

(** A failure of the synthesis and a rejection by the safety check return
    the parsed query. *)
Lemma later_failures_keep_parsed_query (w : World) (prompt database_id : string)
  (include_explanation : bool) (model : option string) (parsed : ParsedQuery)
  (schema : Schema) :
  get_database_info w database_id = Ok true ->
  parse_query prompt = Ok parsed ->
  get_database_schema w database_id = Ok (Some schema) ->
  (exists err, natural_language_to_sql w prompt schema model = SqlFailed err)
  \/ (exists sql, natural_language_to_sql w prompt schema model = SqlGenerated sql
        /\ rejected (AIService.validate_query_safety w sql model) = true) ->
  exists response,
    process_natural_language_query w prompt database_id include_explanation model
      = (Ok response, [])
    /\ success response = false
    /\ parsed_info response = Some parsed.
Proof.
  intros Hdb Hp Hs H. unfold process_natural_language_query.
  destruct H as [[err H]|[sql [H Hr]]].
  - rewrite (stage_synthesis_failed _ _ _ _ _ Hdb parsed Hp schema Hs err H).
    eexists. repeat split.
  - rewrite (stage_rejected _ _ _ _ _ Hdb parsed Hp schema Hs sql H Hr).
    eexists. repeat split.
Qed.

(** A failure of the schema fetch, by a falsy value or by an exception,
    returns a response without the parsed query. *)
Lemma schema_failure_drops_parsed_query (w : World) (prompt database_id : string)
  (include_explanation : bool) (model : option string) (parsed : ParsedQuery) :
  get_database_info w database_id = Ok true ->
  parse_query prompt = Ok parsed ->
  get_database_schema w database_id = Ok None
  \/ (exists e, get_database_schema w database_id = Raise e) ->
  exists response,
    process_natural_language_query w prompt database_id include_explanation model
      = (Ok response, [])
    /\ success response = false
    /\ parsed_info response = None.
Proof.
  intros Hdb Hp H. unfold process_natural_language_query.
  destruct H as [H|[e H]].
  - rewrite (stage_schema_falsy _ _ _ _ _ Hdb parsed Hp H).
    eexists. repeat split.
  - rewrite (stage_schema_raises _ _ _ _ _ Hdb parsed Hp e H).
    eexists. repeat split.
Qed.

(** A prompt whose limit is a run of more than 4300 digits stops the run
    at the parse: [int] raises, and the response is the one of the
    handler. *)
Lemma parse_failure_is_caught (w : World) (prompt database_id : string)
  (include_explanation : bool) (model : option string) (e : exn) :
  get_database_info w database_id = Ok true ->
  parse_query prompt = Raise e ->
  process_natural_language_query w prompt database_id include_explanation model
    = (Ok (failure prompt None None (str_exn e) (Some (elapsed_seconds w))), []).
Proof.
  intros Hdb Hp. unfold process_natural_language_query.
  now rewrite (stage_parse_raises _ _ _ _ _ Hdb e Hp).
Qed.

(** C9, failing input.  The schema of a registered database cannot be
    read.  The prompt has been parsed, and the response of the run has
    [success=false] and no [parsed_info]. *)
Theorem C9_schema_failure_loses_parsed_query :
  exists parsed,
    parse_query "show all users" = Ok parsed
    /\ process_natural_language_query Scenario.damaged "show all users"
         "library.db" false None
       = (Ok {| success := false; sql_query := None;
                original_prompt := "show all users"; parsed_info := None;
                query_result := None; explanation := None;
                error := Some "file is not a database";
                processing_time := Some 0.25%float |}, []).
Proof. eexists. split; vm_compute; reflexivity. Qed.

(** C10.  When the body of the safety combination raises [e], the verdict
    is [safe=false] with [risk_level=high], the warning
    [Validation error: str(e)] and the recommendation
    [Manual review required]; a run that reached the safety check with
    that query (database found, prompt parsed, schema fetched, SQL
    synthesized) answers [Query rejected due to high security risk], and
    no statement goes to the engine. *)
Theorem C10_safety_check_fails_closed (w : World) (prompt database_id : string)
  (include_explanation : bool) (model : option string) (parsed : ParsedQuery)
  (schema : Schema) (sql : string) (e : exn) :
  get_database_info w database_id = Ok true ->
  parse_query prompt = Ok parsed ->
  get_database_schema w database_id = Ok (Some schema) ->
  natural_language_to_sql w prompt schema model = SqlGenerated sql ->
  AIService.validate_query_safety_try w sql model = Raise e ->
  AIService.validate_query_safety w sql model
    = {| safe := false; risk_level := HIGH;
         warnings := ["Validation error: " ++ str_exn e];
         recommendations := ["Manual review required"] |}
  /\ process_natural_language_query w prompt database_id include_explanation model
     = (Ok {| success := false; sql_query := Some sql;
              original_prompt := prompt; parsed_info := Some parsed;
              query_result := None; explanation := None;
              error := Some "Query rejected due to high security risk";
              processing_time := None |}, []).
Proof.
  intros Hdb Hp Hs Hsql He.
  assert (Hv : AIService.validate_query_safety w sql model = validation_error e)
    by (unfold AIService.validate_query_safety; now rewrite He).
  split; [exact Hv|].
  unfold process_natural_language_query.
  rewrite (stage_rejected _ _ _ _ _ Hdb parsed Hp schema Hs sql Hsql);
    [reflexivity|now rewrite Hv].
Qed.

Lemma C10_safety_check_fails_closed_witness :
  exists e parsed,
    AIService.validate_query_safety_try Scenario.flaky "SELECT * FROM members;" None
      = Raise e
    /\ exn_class e = "ValidationError"
    /\ parse_query "list the members" = Ok parsed
    /\ AIService.validate_query_safety Scenario.flaky "SELECT * FROM members;" None
       = {| safe := false; risk_level := HIGH;
            warnings := ["Validation error: " ++ str_exn e];
            recommendations := ["Manual review required"] |}
    /\ process_natural_language_query Scenario.flaky "list the members"
         "library.db" true None
       = (Ok {| success := false; sql_query := Some "SELECT * FROM members;";
                original_prompt := "list the members";
                parsed_info := Some parsed;
                query_result := None; explanation := None;
                error := Some "Query rejected due to high security risk";
                processing_time := None |}, []).
Proof.
  eexists. eexists.
  split; [vm_compute; reflexivity|]. split; [reflexivity|].
  split; [vm_compute; reflexivity|].
  refine (C10_safety_check_fails_closed Scenario.flaky "list the members" "library.db"
            true None _ Scenario.library "SELECT * FROM members;" _ _ _ _ _ _);
    vm_compute; reflexivity.
Defined.

(** *** The mocked translation *)

Lemma user_message_of_pair (system_text user_text : string) :
  user_message_of [msg "system" system_text; msg "user" user_text] = user_text.
Proof. reflexivity. Qed.

Lemma content_of_reply (c : string) : content_of (reply c) = Ok (PyStr.strip c).
Proof. reflexivity. Qed.

Lemma mock_content_books (user_message : string) :
  asks_sql_about_books user_message = true ->
  mock_content user_message = "SELECT * FROM books;".
Proof.
  unfold asks_sql_about_books, mock_content. intros H.
  apply andb_true_iff in H as [H Hb]. apply andb_true_iff in H as [H Hq].
  apply andb_true_iff in H as [H1 H2].
  apply negb_true_iff in H1, H2. now rewrite H1, H2, Hq, Hb.
Qed.

Lemma mocked_translation (w : World) (prompt : string) (schema : Schema)
  (model : option string) :
  falsy (OPENROUTER_API_KEY w) = true ->
  natural_language_to_sql w prompt schema model
    = SqlGenerated (unfence (PyStr.strip (mock_content prompt))).
Proof.
  intros Hk. unfold natural_language_to_sql.
  rewrite gateway_without_credentials by auto. cbn [Py.bind].
  unfold _get_mock_response. now rewrite user_message_of_pair, content_of_reply.
Qed.

(** The branch of the mock that answers a question about books is behind
    the test for the words [sql] and [query]: a prompt that has one of
    them is translated to [SELECT * FROM books;]. *)
Lemma mocked_books_translation (w : World) (prompt : string) (schema : Schema)
  (model : option string) :
  falsy (OPENROUTER_API_KEY w) = true ->
  asks_sql_about_books prompt = true ->
  natural_language_to_sql w prompt schema model = SqlGenerated "SELECT * FROM books;".
Proof.
  intros Hk Hb. rewrite mocked_translation by assumption.
  now rewrite (mock_content_books _ Hb).
Qed.

Lemma sql_books_prompt_translation :
  natural_language_to_sql Scenario.offline sql_books_prompt Scenario.library None
    = SqlGenerated "SELECT * FROM books;".
Proof. apply mocked_books_translation; reflexivity. Qed.

(** C4, failing input.  With no API credential, the prompt
    [show all records in books] has neither [sql] nor [query] in it, so the
    mock does not reach its branch for [books]: the text synthesized, kept
    as [sql_query] of the response and sent to the engine, is the apology
    of the default branch and not [SELECT * FROM books;]. *)
Theorem C4_books_prompt_gets_apology :
  natural_language_to_sql Scenario.offline books_prompt Scenario.library None
    = SqlGenerated apology
  /\ apology <> "SELECT * FROM books;"
  /\ exists response,
       process_natural_language_query Scenario.offline books_prompt "library.db"
         false None = (Ok response, [("library.db", apology)])
       /\ success response = true
       /\ sql_query response = Some apology.
Proof.
  split; [reflexivity|]. split; [discriminate|].
  eexists. split; [vm_compute; reflexivity|]. split; reflexivity.
Qed.

(** On the prompt of the scenario the mock takes its default branch. *)
Lemma books_prompt_translation (w : World) (schema : Schema) (model : option string) :
  falsy (OPENROUTER_API_KEY w) = true ->
  natural_language_to_sql w books_prompt schema model = SqlGenerated apology.
Proof.
  intros Hk. rewrite mocked_translation by assumption. reflexivity.
Qed.

(** ** The matcher is sound *)

Lemma keeps_refl (s : string) : keeps s s.
Proof. intros q H. exact H. Qed.

Lemma keeps_trans (s t u : string) : keeps s t -> keeps t u -> keeps s u.
Proof. intros H1 H2 q H. auto. Qed.

Lemma all_chars_append (q : ascii -> bool) (a b : string) :
  all_chars q (a ++ b) = all_chars q a && all_chars q b.
Proof. induction a as [|x a IH]; simpl; [reflexivity|now rewrite IH, andb_assoc]. Qed.

Lemma keeps_app_l (a b : string) : keeps (a ++ b) a.
Proof. intros q H. rewrite all_chars_append in H. now apply andb_true_iff in H. Qed.

Lemma keeps_app_r (a b : string) : keeps (a ++ b) b.
Proof. intros q H. rewrite all_chars_append in H. now apply andb_true_iff in H. Qed.

Lemma keeps_cons (c : ascii) (s : string) : keeps (String c s) s.
Proof. exact (keeps_app_r (String c "") s). Qed.

Lemma keeps_nil (s : string) : keeps s "".
Proof. intros q _. reflexivity. Qed.

Lemma captured_sub (a r : Re.regex) (s : string) (n : nat) (t : string) :
  (forall n, incl (bodies n a) (bodies n r)) ->
  captured_by a s n t -> captured_by r s n t.
Proof. intros Hi [[b [Hb Hc]] Hk]. split; [exists b; split; auto; now apply Hi|assumption]. Qed.

Lemma captured_later (r : Re.regex) (s s' : string) (n : nat) (t : string) :
  keeps s s' -> captured_by r s' n t -> captured_by r s n t.
Proof. intros Hs [Hb Hk]. split; [assumption|eauto using keeps_trans]. Qed.

Lemma sound_nil (r : Re.regex) (st : Re.mstate) : consumes r "" -> sound r st st.
Proof.
  intros H. apply (Sound _ _ _ "" []); simpl; auto. contradiction.
Qed.

Lemma sound_sub (a r : Re.regex) (st st' : Re.mstate) :
  (forall u, consumes a u -> consumes r u) ->
  (forall n, incl (bodies n a) (bodies n r)) ->
  sound a st st' -> sound r st st'.
Proof.
  intros Hc Hi [u ad H1 H2 H3 H4 H5].
  apply (Sound _ _ _ u ad); auto.
  intros n t Hin. apply (captured_sub a); [exact Hi|now apply H5].
Qed.

Lemma sound_seq (a b r : Re.regex) (st st1 st2 : Re.mstate) :
  (forall u v, consumes a u -> consumes b v -> consumes r (u ++ v)) ->
  (forall n, incl (bodies n a) (bodies n r)) ->
  (forall n, incl (bodies n b) (bodies n r)) ->
  sound a st st1 -> sound b st1 st2 -> sound r st st2.
Proof.
  intros Hc Ha Hb [u1 ad1 A1 A2 A3 A4 A5] [u2 ad2 B1 B2 B3 B4 B5].
  apply (Sound _ _ _ (u1 ++ u2) (ad2 ++ ad1)%list).
  - now rewrite A1, B1, string_app_assoc.
  - rewrite B2, A2, string_length_app. lia.
  - now rewrite B3, A3, app_assoc.
  - now apply Hc.
  - intros n t Hin. apply in_app_iff in Hin as [Hin|Hin].
    + apply captured_later with (s' := Re.rest st1).
      * rewrite A1. apply keeps_app_r.
      * apply (captured_sub b); [exact Hb|now apply B5].
    + apply (captured_sub a); [exact Ha|now apply A5].
Qed.

Lemma sound_capture (n : nat) (a : Re.regex) (st st1 : Re.mstate) :
  sound a st st1 -> sound (Re.Group n a) st (Re.capture n st st1).
Proof.
  intros [u ad H1 H2 H3 H4 H5].
  assert (Htext : substring 0 (Re.pos st1 - Re.pos st) (Re.rest st) = u).
  { rewrite H2, H1.
    replace (Re.pos st + String.length u - Re.pos st) with (String.length u) by lia.
    apply substring_prefix. }
  apply (Sound _ _ _ u ((n, u) :: ad)); simpl; auto.
  - now rewrite Htext, H3.
  - now constructor.
  - intros m t [E|Hin].
    + inversion E; subst m t. split.
      * exists a. split; [|assumption]. simpl. rewrite Nat.eqb_refl. now left.
      * rewrite H1. apply keeps_app_l.
    + eapply captured_sub; [|eauto]. intros k. simpl. apply incl_appr, incl_refl.
Qed.

Lemma star_sound (a : Re.regex) step :
  sound_run a step ->
  forall fuel st k res, Re.star step fuel st k = Some res ->
    exists st', k st' = Some res /\ sound (Re.Star a) st st'.
Proof.
  intros Hstep. induction fuel as [|fuel IH]; intros st k res H; simpl in H.
  - exists st. split; [assumption|]. apply sound_nil. constructor.
  - destruct (step st _) as [res'|] eqn:E.
    + inversion H; subst res'. apply Hstep in E as [st1 [Hk R1]].
      destruct (Re.pos st <? Re.pos st1)%nat; [|discriminate].
      apply IH in Hk as [st2 [Hk R2]]. exists st2. split; [assumption|].
      apply (sound_seq a (Re.Star a) (Re.Star a) st st1 st2); auto using incl_refl.
      intros u v. apply consumes_star_cons.
    + exists st. split; [assumption|]. apply sound_nil. constructor.
Qed.

(** Soundness of the matcher: a successful run consumed a text of the
    expression and captured texts of its groups. *)
Lemma run_sound (r : Re.regex) :
  forall st k res, Re.run r st k = Some res ->
    exists st', k st' = Some res /\ sound r st st'.
Proof.
  induction r as [|items| |a IHa b IHb|a IHa b IHb|a IHa|a IHa|a IHa|n a IHa];
    intros st k res H; cbn [Re.run] in H.
  - exists st. split; [assumption|]. apply sound_nil. constructor.
  - destruct (Re.rest st) as [|c s'] eqn:Hr; [discriminate|].
    destruct (existsb _ items) eqn:Hc; [|discriminate].
    eexists. split; [eassumption|].
    apply (Sound _ _ _ (String c "") []); simpl; auto; try lia; try contradiction.
    now constructor.
  - destruct (Re.at_boundary st); [|discriminate].
    exists st. split; [assumption|]. apply sound_nil. constructor.
  - apply IHa in H as [st1 [H R1]]. apply IHb in H as [st2 [H R2]].
    exists st2. split; [assumption|].
    apply (sound_seq a b (Re.Cat a b) st st1 st2); simpl;
      auto using incl_appl, incl_appr, incl_refl, consumes_cat.
  - destruct (Re.run a st k) as [res'|] eqn:E.
    + inversion H; subst res'. apply IHa in E as [st1 [Hk R]].
      exists st1. split; [assumption|].
      apply (sound_sub a); simpl; auto using incl_appl, incl_refl, consumes_alt_l.
    + apply IHb in H as [st1 [Hk R]].
      exists st1. split; [assumption|].
      apply (sound_sub b); simpl; auto using incl_appr, incl_refl, consumes_alt_r.
  - eapply star_sound; [|exact H]. exact IHa.
  - apply IHa in H as [st1 [H R1]].
    eapply star_sound in H as [st2 [H R2]]; [|exact IHa].
    exists st2. split; [assumption|].
    apply (sound_seq a (Re.Star a) (Re.Plus a) st st1 st2); simpl;
      auto using incl_refl, consumes_plus.
  - destruct (Re.run a st k) as [res'|] eqn:E.
    + inversion H; subst res'. apply IHa in E as [st1 [Hk R]].
      exists st1. split; [assumption|].
      apply (sound_sub a); simpl; auto using incl_refl, consumes_opt_some.
    + exists st. split; [assumption|]. apply sound_nil. constructor.
  - apply IHa in H as [st1 [H R]]. eexists. split; [exact H|]. now apply sound_capture.
Qed.

Lemma assoc_some_in (l : list (nat * string)) (n : nat) (t : string) :
  Re.assoc n l = Some t -> In (n, t) l.
Proof.
  induction l as [|[k v] l IH]; simpl; [discriminate|].
  destruct (k =? n)%nat eqn:E; intros H.
  - apply Nat.eqb_eq in E. inversion H; subst. now left.
  - right. auto.
Qed.

Lemma match_sound_later (r : Re.regex) (s s' : string) (m : Re.rmatch) :
  keeps s s' -> match_sound r s' m -> match_sound r s m.
Proof.
  intros Hk [H1 [H2 [H3 H4]]]. repeat split; eauto using keeps_trans.
  - destruct (H4 n t H) as [Hb _]. exact Hb.
  - destruct (H4 n t H) as [_ Hq]. eauto using keeps_trans.
Qed.

Lemma run_match_sound (r : Re.regex) (pv : option ascii) (s : string) (i ng : nat)
  (fin : Re.mstate) :
  Re.run r {| Re.prev := pv; Re.rest := s; Re.pos := i; Re.caps := [] |} Some = Some fin ->
  match_sound r s {| Re.m_start := i; Re.m_text := substring 0 (Re.pos fin - i) s;
                     Re.m_ngroups := ng; Re.m_fin := fin |}.
Proof.
  intros E. apply run_sound in E as [st' [Hk R]].
  inversion Hk; subst st'; clear Hk.
  destruct R as [u ad H1 H2 H3 H4 H5]. simpl in *. rewrite app_nil_r in H3.
  assert (Htext : substring 0 (Re.pos fin - i) s = u).
  { rewrite H2, H1. replace (i + String.length u - i) with (String.length u) by lia.
    apply substring_prefix. }
  unfold match_sound. simpl. rewrite Htext. repeat split.
  - assumption.
  - rewrite H1. apply keeps_app_l.
  - rewrite H1. apply keeps_app_r.
  - unfold Re.group in H. simpl in H. rewrite H3 in H.
    apply assoc_some_in in H. now destruct (H5 n t H).
  - unfold Re.group in H. simpl in H. rewrite H3 in H.
    apply assoc_some_in in H. now destruct (H5 n t H).
Qed.

Lemma scan_sound (r : Re.regex) (ng : nat) (s : string) :
  forall pv i m, Re.scan r ng pv s i = Some m -> match_sound r s m.
Proof.
  induction s as [|c s IH]; intros pv i m H; cbn [Re.scan] in H.
  - destruct (Re.run r _ Some) as [fin|] eqn:E; [|discriminate].
    inversion H; subst m. exact (run_match_sound r pv "" i ng fin E).
  - destruct (Re.run r _ Some) as [fin|] eqn:E.
    + inversion H; subst m. exact (run_match_sound r pv (String c s) i ng fin E).
    + apply IH in H. eapply match_sound_later; [apply keeps_cons|exact H].
Qed.

Lemma scan_all_sound (r : Re.regex) (ng : nat) :
  forall fuel pv s i, Forall (match_sound r s) (Re.scan_all fuel r ng pv s i).
Proof.
  induction fuel as [|fuel IH]; intros pv s i; cbn [Re.scan_all]; [constructor|].
  destruct (Re.scan r ng pv s i) as [m|] eqn:E; [|constructor].
  apply scan_sound in E. pose proof E as [_ [_ [Hrest _]]].
  destruct (Re.m_start m <? Re.pos (Re.m_fin m))%nat.
  - constructor; [assumption|].
    eapply Forall_impl; [|apply IH]. intros m'. now apply match_sound_later.
  - destruct (Re.rest (Re.m_fin m)) as [|c s'] eqn:Hr;
      [constructor; [assumption|constructor]|].
    constructor; [assumption|].
    eapply Forall_impl; [|apply IH]. intros m'. apply match_sound_later.
    eapply keeps_trans; [exact Hrest|apply keeps_cons].
Qed.

(** Every match [re.finditer] and [re.search] return is sound. *)
Lemma finditer_sound (pattern s : string) (r : Re.regex) (ng : nat) :
  Re.compile pattern = Some (r, ng) ->
  Forall (match_sound r s) (Re.finditer pattern s).
Proof. intros H. unfold Re.finditer. rewrite H. apply scan_all_sound. Qed.

Lemma search_sound (pattern s : string) (r : Re.regex) (ng : nat) (m : Re.rmatch) :
  Re.compile pattern = Some (r, ng) -> Re.search pattern s = Some m ->
  match_sound r s m.
Proof. unfold Re.search. intros ->. apply scan_sound. Qed.

Lemma lower_app (a b : string) : PyStr.lower (a ++ b) = PyStr.lower a ++ PyStr.lower b.
Proof. induction a as [|x a IH]; simpl; [reflexivity|]. unfold PyStr.lower in *. simpl. now rewrite IH. Qed.

Lemma consumes_words (r : Re.regex) (u : string) :
  consumes r u -> forall l, words r = Some l -> In (PyStr.lower u) l.
Proof.
  induction 1; intros l Hl; simpl in Hl; try discriminate.
  - inversion Hl; subst. now left.
  - destruct items as [|[d| | |] [|]]; try discriminate.
    inversion Hl; subst. simpl in H. rewrite orb_false_r in H.
    apply Ascii.eqb_eq in H. left. unfold PyStr.lower. simpl. now rewrite H.
  - inversion Hl; subst. now left.
  - destruct (words a) as [la|]; [|discriminate].
    destruct (words b) as [lb|]; [|discriminate].
    inversion Hl; subst. rewrite lower_app. apply in_flat_map.
    exists (PyStr.lower u). split; [auto|]. apply in_map. auto.
  - destruct (words a) as [la|]; [|discriminate].
    destruct (words b) as [lb|]; [|discriminate].
    inversion Hl; subst. apply in_app_iff. auto.
  - destruct (words a) as [la|]; [|discriminate].
    destruct (words b) as [lb|]; [|discriminate].
    inversion Hl; subst. apply in_app_iff. auto.
  - destruct (words a) as [la|]; [|discriminate]. inversion Hl; subst. now left.
  - destruct (words a) as [la|]; [|discriminate]. inversion Hl; subst. right. auto.
  - auto.
Qed.

Section ConsumedCharacters.

Variable p : ascii -> bool.
Variable item_ok : Re.citem -> bool.
Hypothesis item_ok_sound :
  forall i c, item_ok i = true -> Re.item_matches c i = true -> p c = true.

Lemma consumes_only (r : Re.regex) (u : string) :
  consumes r u -> only item_ok r = true -> all_chars p u = true.
Proof.
  induction 1; simpl; intros Ho; auto;
    try (apply andb_true_iff in Ho as [Ha Hb]); try rewrite all_chars_append;
    try (rewrite IHconsumes1, IHconsumes2; auto); auto.
  apply existsb_exists in H as [i [Hi Hm]]. rewrite forallb_forall in Ho.
  now rewrite (item_ok_sound i c (Ho i Hi) Hm).
Qed.

Lemma consumes_nonnull (r : Re.regex) (u : string) :
  consumes r u -> nonnull r = true -> u <> "".
Proof.
  induction 1; simpl; intros Hn; try discriminate; auto.
  - apply string_app_nonempty. apply orb_true_iff in Hn as [Hn|Hn]; auto.
  - apply andb_true_iff in Hn as [Hn _]. auto.
  - apply andb_true_iff in Hn as [_ Hn]. auto.
  - apply string_app_nonempty. auto.
Qed.

End ConsumedCharacters.

Lemma word_item_sound (i : Re.citem) (c : ascii) :
  word_item i = true -> Re.item_matches c i = true -> PyStr.is_word c = true.
Proof.
  destruct i; simpl; try discriminate; intros _ H; [assumption|].
  unfold PyStr.is_word. rewrite H. now rewrite !orb_true_r.
Qed.

Lemma lower_char_quote (c d : ascii) :
  Ascii.eqb d "'" || Ascii.eqb d (ascii_of_nat 34) = true ->
  Ascii.eqb (PyStr.lower_char d) (PyStr.lower_char c) = true ->
  Ascii.eqb c "'" || Ascii.eqb c (ascii_of_nat 34) = true.
Proof.
  intros Hd H. apply orb_true_iff in Hd as [Hd|Hd]; apply Ascii.eqb_eq in Hd; subst d;
    revert H; destruct c as [[] [] [] [] [] [] [] []]; vm_compute; auto.
Qed.

Lemma value_item_sound (i : Re.citem) (c : ascii) :
  value_item i = true -> Re.item_matches c i = true -> value_char c = true.
Proof.
  unfold value_char. destruct i as [d| | |]; simpl; intros Hi H.
  - rewrite <- orb_assoc. rewrite (lower_char_quote c d Hi H). apply orb_true_r.
  - now rewrite H.
  - rewrite H. now rewrite orb_true_r.
  - unfold PyStr.is_word. rewrite H. now rewrite !orb_true_r.
Qed.

Lemma lower_not_upper (s : string) : all_chars not_upper s = true -> PyStr.lower s = s.
Proof.
  induction s as [|c s IH]; simpl; [reflexivity|]. intros H.
  apply andb_true_iff in H as [Hc Hs]. unfold PyStr.lower in *. simpl.
  rewrite (IH Hs). unfold PyStr.lower_char. unfold not_upper in Hc.
  apply negb_true_iff in Hc. now rewrite Hc.
Qed.

Lemma lower_char_not_upper (c : ascii) : not_upper (PyStr.lower_char c) = true.
Proof. destruct c as [[] [] [] [] [] [] [] []]; reflexivity. Qed.

Lemma lower_all_not_upper (s : string) : all_chars not_upper (PyStr.lower s) = true.
Proof.
  induction s as [|c s IH]; [reflexivity|].
  unfold PyStr.lower in *. simpl. now rewrite lower_char_not_upper, IH.
Qed.

Lemma keeps_lstrip (s : string) : keeps s (PyStr.lstrip s).
Proof.
  induction s as [|c s IH]; [apply keeps_refl|].
  simpl. destruct (PyStr.is_space c); [|apply keeps_refl].
  eapply keeps_trans; [apply keeps_cons|exact IH].
Qed.

Lemma keeps_rstrip (s : string) : keeps s (PyStr.rstrip s).
Proof.
  induction s as [|c s IH]; [apply keeps_refl|].
  intros q H. simpl in H. apply andb_true_iff in H as [Hc Hs].
  specialize (IH q Hs). cbn [PyStr.rstrip].
  destruct (PyStr.rstrip s) as [|d r].
  - destruct (PyStr.is_space c); simpl; [reflexivity|now rewrite Hc].
  - simpl in *. now rewrite Hc, IH.
Qed.

Lemma keeps_strip (s : string) : keeps s (PyStr.strip s).
Proof. eapply keeps_trans; [apply keeps_lstrip|apply keeps_rstrip]. Qed.

(** The text the parser works on has no upper-case letter. *)
Lemma query_lower_not_upper (query : string) :
  all_chars not_upper (PyStr.strip (PyStr.lower query)) = true.
Proof. apply keeps_strip, lower_all_not_upper. Qed.

Lemma mem_In (x : string) (l : list string) : PyStr.mem x l = true <-> In x l.
Proof.
  unfold PyStr.mem. rewrite existsb_exists. split.
  - intros [y [Hy E]]. apply String.eqb_eq in E. now subst.
  - intros H. exists x. now rewrite String.eqb_refl.
Qed.

(** In a text without upper-case letters, a group of literal alternatives
    captures one of the alternatives. *)
Lemma finditer_group_words (pattern : string) (n : nat) (allowed : list string)
  (s : string) :
  group_words pattern n allowed = true ->
  all_chars not_upper s = true ->
  Forall (fun m => forall t, Re.group m n = Some t -> In t allowed)
    (Re.finditer pattern s).
Proof.
  unfold group_words. intros Hg Hs.
  destruct (Re.compile pattern) as [[r ng]|] eqn:Hc;
    [|unfold Re.finditer; rewrite Hc; constructor].
  eapply Forall_impl; [|exact (finditer_sound _ s _ _ Hc)].
  intros m [_ [_ [_ Hm]]] t Ht.
  destruct (Hm n t Ht) as [[a [Ha Hcons]] Hk].
  rewrite forallb_forall in Hg. specialize (Hg a Ha).
  destruct (words a) as [l|] eqn:Hw; [|discriminate].
  rewrite forallb_forall in Hg.
  pose proof (consumes_words _ _ Hcons l Hw) as Hin.
  rewrite (lower_not_upper t (Hk _ Hs)) in Hin.
  apply mem_In. auto.
Qed.

Lemma match_group_only (p : ascii -> bool) (item_ok : Re.citem -> bool)
  (r : Re.regex) (s : string) (m : Re.rmatch) (n : nat) (t : string) :
  (forall i c, item_ok i = true -> Re.item_matches c i = true -> p c = true) ->
  forallb (fun a => only item_ok a && nonnull a) (bodies n r) = true ->
  match_sound r s m -> Re.group m n = Some t -> good p t.
Proof.
  intros Hok Hg [_ [_ [_ Hm]]] Ht.
  destruct (Hm n t Ht) as [[a [Ha Hcons]] _].
  rewrite forallb_forall in Hg. specialize (Hg a Ha).
  apply andb_true_iff in Hg as [Ho Hn]. split.
  - exact (consumes_only p item_ok Hok a t Hcons Ho).
  - exact (consumes_nonnull a t Hcons Hn).
Qed.

Lemma finditer_group_only (p : ascii -> bool) (item_ok : Re.citem -> bool)
  (pattern : string) (n : nat) (s : string) :
  (forall i c, item_ok i = true -> Re.item_matches c i = true -> p c = true) ->
  group_only item_ok pattern n = true ->
  Forall (fun m => forall t, Re.group m n = Some t -> good p t) (Re.finditer pattern s).
Proof.
  unfold group_only. intros Hok Hg.
  destruct (Re.compile pattern) as [[r ng]|] eqn:Hc;
    [|unfold Re.finditer; rewrite Hc; constructor].
  eapply Forall_impl; [|exact (finditer_sound _ s _ _ Hc)].
  intros m Hm t Ht. eauto using match_group_only.
Qed.

Lemma search_group_only (p : ascii -> bool) (item_ok : Re.citem -> bool)
  (pattern : string) (n : nat) (s : string) (m : Re.rmatch) (t : string) :
  (forall i c, item_ok i = true -> Re.item_matches c i = true -> p c = true) ->
  group_only item_ok pattern n = true ->
  Re.search pattern s = Some m -> Re.group m n = Some t -> good p t.
Proof.
  unfold group_only. intros Hok Hg Hs Ht.
  destruct (Re.compile pattern) as [[r ng]|] eqn:Hc;
    [|unfold Re.search in Hs; rewrite Hc in Hs; discriminate].
  eauto using match_group_only, search_sound.
Qed.

(** ** Well-formed parses *)

Lemma group1_names_excluded (excluded : list string) (ms : list Re.rmatch) :
  Forall (fun m => forall t, Re.group m 1 = Some t -> In t excluded) ms ->
  group1_names excluded ms = [].
Proof.
  induction 1 as [|m ms Hm _ IH]; cbn [group1_names]; [reflexivity|].
  rewrite IH. destruct (0 <? Re.m_ngroups m)%nat; [|reflexivity].
  destruct (Re.group m 1) as [t|] eqn:Ht; [|reflexivity].
  specialize (Hm t eq_refl). apply mem_In in Hm. rewrite Hm. now rewrite andb_false_r.
Qed.

Lemma all_matches_group_words (patterns : list string) (n : nat)
  (allowed : list string) (q : string) :
  forallb (fun pattern => group_words pattern n allowed) patterns = true ->
  all_chars not_upper q = true ->
  Forall (fun m => forall t, Re.group m n = Some t -> In t allowed)
    (all_matches patterns q).
Proof.
  intros H Hq. apply all_matches_Forall. rewrite forallb_forall in H.
  apply Forall_forall. intros pattern Hin. apply finditer_group_words; auto.
Qed.

(** In a lower-cased text the indicator patterns add no table: the group
    that is read is the indicator word itself. *)
Lemma _extract_tables_lower (q : string) :
  all_chars not_upper q = true ->
  _extract_tables q = filter (PyStr.contains q) common_table_words.
Proof.
  intros Hq. unfold _extract_tables.
  rewrite group1_names_excluded.
  2:{ apply all_matches_group_words; [vm_compute; reflexivity|assumption]. }
  unfold common_table_words. cbn [add_common filter].
  destruct (PyStr.contains q "users"), (PyStr.contains q "products"),
    (PyStr.contains q "orders"), (PyStr.contains q "customers"),
    (PyStr.contains q "items"), (PyStr.contains q "data"); reflexivity.
Qed.

Lemma parse_query_fields (query : string) (r : ParsedQuery) :
  parse_query query = Ok r ->
  let q := PyStr.strip (PyStr.lower query) in
  original_query r = query
  /\ query_type r = _determine_query_type q
  /\ tables r = _extract_tables q
  /\ _extract_columns q = Ok (columns r)
  /\ _extract_filters q = Ok (filters r)
  /\ _extract_aggregations q = Ok (aggregations r)
  /\ sorting r = _extract_sorting q
  /\ _extract_limit q = Ok (limit r)
  /\ confidence r = _calculate_confidence r
  /\ suggestions r = _generate_suggestions r.
Proof.
  unfold parse_query, Py.bind. intros H.
  repeat case_match_in H; try discriminate.
  inversion H; subst r; clear H. cbv zeta.
  cbn [original_query query_type tables columns filters aggregations sorting
       limit confidence suggestions with_suggestions with_confidence].
  repeat split; reflexivity.
Qed.

(** *** [strip] is idempotent *)

Lemma rstrip_idempotent (s : string) : PyStr.rstrip (PyStr.rstrip s) = PyStr.rstrip s.
Proof.
  induction s as [|c s IH]; [reflexivity|]. cbn [PyStr.rstrip].
  destruct (PyStr.rstrip s) as [|d r] eqn:E.
  - destruct (PyStr.is_space c) eqn:Hc; [reflexivity|]. cbn. now rewrite Hc.
  - cbn [PyStr.rstrip] in *. rewrite IH. reflexivity.
Qed.

Lemma lstrip_no_leading_space (s : string) : no_leading_space (PyStr.lstrip s) = true.
Proof.
  induction s as [|c s IH]; [reflexivity|]. simpl.
  destruct (PyStr.is_space c) eqn:Hc; [assumption|]. simpl. now rewrite Hc.
Qed.

Lemma lstrip_fixed (s : string) : no_leading_space s = true -> PyStr.lstrip s = s.
Proof.
  destruct s as [|c s]; [reflexivity|]. simpl. intros H.
  apply negb_true_iff in H. now rewrite H.
Qed.

Lemma rstrip_no_leading_space (s : string) :
  no_leading_space s = true -> no_leading_space (PyStr.rstrip s) = true.
Proof.
  destruct s as [|c s]; [reflexivity|]. cbn [PyStr.rstrip no_leading_space]. intros H.
  destruct (PyStr.rstrip s); [|assumption].
  apply negb_true_iff in H. rewrite H. simpl. now rewrite H.
Qed.

Lemma strip_idempotent (s : string) : PyStr.strip (PyStr.strip s) = PyStr.strip s.
Proof.
  unfold PyStr.strip.
  rewrite (lstrip_fixed (PyStr.rstrip (PyStr.lstrip s))).
  - apply rstrip_idempotent.
  - apply rstrip_no_leading_space, lstrip_no_leading_space.
Qed.

(** *** Filters *)

Lemma Forall_and3 {A : Type} (P Q R : A -> Prop) (l : list A) :
  Forall P l -> Forall Q l -> Forall R l -> Forall (fun x => P x /\ Q x /\ R x) l.
Proof.
  intros HP HQ HR. rewrite Forall_forall in *. auto.
Qed.

Lemma all_matches_group_only (p : ascii -> bool) (item_ok : Re.citem -> bool)
  (patterns : list string) (n : nat) (q : string) :
  (forall i c, item_ok i = true -> Re.item_matches c i = true -> p c = true) ->
  forallb (fun pattern => group_only item_ok pattern n) patterns = true ->
  Forall (fun m => forall t, Re.group m n = Some t -> good p t) (all_matches patterns q).
Proof.
  intros Hok H. apply all_matches_Forall. rewrite forallb_forall in H.
  apply Forall_forall. intros pattern Hin. apply (finditer_group_only p item_ok); auto.
Qed.

Lemma filters_of_well_formed (ms : list Re.rmatch) (l : list Filter) :
  Forall (fun m => (took_part 1 m /\ forall t, Re.group m 1 = Some t -> is_word_text t)
                   /\ (took_part 2 m /\ forall t, Re.group m 2 = Some t -> In t filter_operators)
                   /\ (forall t, Re.group m 3 = Some t -> good value_char t)) ms ->
  filters_of ms = Ok l -> Forall well_formed_filter l.
Proof.
  intros H. revert l.
  induction H as [|m ms [[[c Hc] H1] [[[op Hop] H2] H3]] _ IH]; cbn [filters_of]; intros l Hl.
  - inversion Hl. constructor.
  - destruct (3 <=? Re.m_ngroups m)%nat; [|auto].
    destruct (Re.group m 3) as [v|] eqn:Hv; [|discriminate].
    destruct (filters_of ms) as [more|e]; [|discriminate].
    cbn [Py.bind] in Hl. inversion Hl; subst l. constructor; [|auto].
    unfold well_formed_filter. cbn [f_column f_operator f_value].
    split; [exists c; auto|]. split; [exists op; auto|].
    split; [|apply strip_idempotent].
    apply keeps_strip. now destruct (H3 v eq_refl).
Qed.

Lemma Forall_conj {A : Type} (P Q : A -> Prop) (l : list A) :
  Forall P l -> Forall Q l -> Forall (fun x => P x /\ Q x) l.
Proof. intros HP HQ. rewrite Forall_forall in *. auto. Qed.

Lemma _extract_filters_well_formed (q : string) (l : list Filter) :
  all_chars not_upper q = true ->
  _extract_filters q = Ok l -> Forall well_formed_filter l.
Proof.
  intros Hq. apply filters_of_well_formed.
  repeat apply Forall_conj.
  - apply all_matches_group. vm_compute. reflexivity.
  - apply (all_matches_group_only PyStr.is_word word_item);
      [apply word_item_sound|vm_compute; reflexivity].
  - apply all_matches_group. vm_compute. reflexivity.
  - apply all_matches_group_words; [vm_compute; reflexivity|assumption].
  - apply (all_matches_group_only value_char value_item);
      [apply value_item_sound|vm_compute; reflexivity].
Qed.

(** *** Sorting and limit *)

Lemma search_group (pattern : string) (n : nat) (q : string) (m : Re.rmatch) :
  has_group pattern n = true -> Re.search pattern q = Some m -> took_part n m.
Proof.
  unfold has_group, Re.search. destruct (Re.compile pattern) as [[r ng]|]; [|discriminate].
  intros H Hs. apply existsb_eqb_In in H. apply scan_ok in Hs.
  destruct (Hs n H) as [t [Ht _]]. now exists t.
Qed.

Lemma _extract_sorting_well_formed (q : string) (so : Sorting) :
  _extract_sorting q = Some so -> well_formed_sorting so.
Proof.
  unfold _extract_sorting.
  destruct (first_match sort_patterns q) as [m|] eqn:E; [|discriminate].
  apply first_match_search in E as [pattern [Hin Hs]].
  intros H. inversion H; subst so; clear H.
  unfold well_formed_sorting. cbn [s_column s_direction]. split.
  - assert (Hg : has_group pattern 1 = true).
    { assert (Hall : forallb (fun pattern => has_group pattern 1) sort_patterns = true)
        by (vm_compute; reflexivity).
      rewrite forallb_forall in Hall. auto. }
    assert (Ho : group_only word_item pattern 1 = true).
    { assert (Hall : forallb (fun pattern => group_only word_item pattern 1) sort_patterns = true)
        by (vm_compute; reflexivity).
      rewrite forallb_forall in Hall. auto. }
    destruct (search_group _ _ _ _ Hg Hs) as [c Hc]. exists c. split; [assumption|].
    exact (search_group_only PyStr.is_word word_item _ _ _ _ _ word_item_sound Ho Hs Hc).
  - destruct ((1 <? Re.m_ngroups m)%nat && truthy (Re.group m 2)); [|left; reflexivity].
    destruct (Re.group m 2) as [g2|]; [|left; reflexivity].
    match goal with
    | |- context [if ?b then "DESC" else "ASC"] => destruct b
    end; [right|left]; reflexivity.
Qed.

Lemma digits_value_nonneg (t : string) :
  forall acc z, (0 <= acc)%Z -> digits_value acc t = Some z -> (0 <= z)%Z.
Proof.
  induction t as [|c t IH]; cbn [digits_value]; intros acc z Hacc H.
  - inversion H. now subst.
  - destruct (PyStr.is_digit c); [|discriminate].
    eapply IH; [|exact H]. lia.
Qed.

Lemma int_of_nonneg (s : option string) (z : Z) : int_of s = Ok z -> (0 <= z)%Z.
Proof.
  unfold int_of. destruct s as [[|c t]|]; try discriminate.
  destruct (digits_value 0 (String c t)) as [z'|] eqn:E; [|discriminate].
  destruct (int_max_str_digits <? String.length (String c t))%nat; [discriminate|].
  intros H. inversion H; subst z'. exact (digits_value_nonneg _ _ _ (Z.le_refl 0) E).
Qed.

Lemma _extract_limit_nonneg (q : string) (z : Z) :
  _extract_limit q = Ok (Some z) -> (0 <= z)%Z.
Proof.
  unfold _extract_limit. destruct (first_match limit_patterns q) as [m|]; [|discriminate].
  destruct (int_of (Re.group m 1)) as [z'|e] eqn:E; [|discriminate].
  cbn [Py.bind]. intros H. inversion H; subst z'. exact (int_of_nonneg _ _ E).
Qed.

(** *** Suggestions *)

Lemma nonempty_false {A : Type} (l : list A) : nonempty l = false <-> l = [].
Proof. destruct l; simpl; split; congruence. Qed.

Lemma suggestions_none (r : ParsedQuery) :
  confidence r = _calculate_confidence r ->
  (_generate_suggestions r = [] <-> clear_parse r).
Proof.
  intros Hc. unfold _generate_suggestions, clear_parse. rewrite Hc.
  unfold _calculate_confidence.
  destruct (tables r) as [|t ts], (columns r) as [|c cs], (filters r) as [|f fs],
    (aggregations r) as [|a ags], (sorting r) as [so|], (query_type r);
    (split;
     [ vm_compute; intros H; try discriminate H;
       repeat split; try discriminate; intros X; discriminate X
     | intros [H1 [H2 H3]]; try (exfalso; apply H1; reflexivity);
       try (exfalso; apply H2; reflexivity);
       try (exfalso; apply (H3 eq_refl); reflexivity);
       vm_compute; reflexivity ]).
Qed.

(** *** Aggregations *)

Lemma scan_ngroups (r : Re.regex) (ng : nat) (s : string) :
  forall pv i m, Re.scan r ng pv s i = Some m -> Re.m_ngroups m = ng.
Proof.
  induction s as [|c s IH]; intros pv i m H; cbn [Re.scan] in H;
    destruct (Re.run r _ Some) as [fin|]; try discriminate; eauto;
    inversion H; reflexivity.
Qed.

Lemma scan_all_ngroups (r : Re.regex) (ng : nat) :
  forall fuel pv s i,
    Forall (fun m => Re.m_ngroups m = ng) (Re.scan_all fuel r ng pv s i).
Proof.
  induction fuel as [|fuel IH]; intros pv s i; cbn [Re.scan_all]; [constructor|].
  destruct (Re.scan r ng pv s i) as [m|] eqn:E; [|constructor].
  apply scan_ngroups in E.
  destruct (Re.m_start m <? Re.pos (Re.m_fin m))%nat; [now constructor|].
  destruct (Re.rest (Re.m_fin m)); constructor; auto.
Qed.

Lemma finditer_ngroups (pattern q : string) :
  Forall (fun m => group_count pattern = Some (Re.m_ngroups m)) (Re.finditer pattern q).
Proof.
  unfold group_count, Re.finditer.
  destruct (Re.compile pattern) as [[r ng]|]; [|constructor].
  eapply Forall_impl; [|apply scan_all_ngroups].
  intros m Hm. simpl. now rewrite Hm.
Qed.

Lemma finditer_aggregate_match (pattern q : string) :
  all_chars not_upper q = true ->
  names_function pattern || names_word pattern = true ->
  Forall aggregate_match (Re.finditer pattern q).
Proof.
  intros Hq H. apply Forall_forall. intros m Hm.
  pose proof (finditer_ngroups pattern q) as Hn.
  rewrite Forall_forall in Hn. specialize (Hn m Hm).
  apply orb_true_iff in H as [H|H].
  - unfold names_function in H. rewrite Hn in H.
    repeat (apply andb_true_iff in H as [H ?]).
    pose proof (finditer_group_words _ 1 _ q H Hq) as G1.
    pose proof (finditer_group _ 1 q ltac:(eassumption)) as T1.
    pose proof (finditer_group _ 2 q ltac:(eassumption)) as T2.
    pose proof (finditer_group_only PyStr.is_word word_item _ 2 q word_item_sound
                  ltac:(eassumption)) as G2.
    rewrite Forall_forall in G1, T1, T2, G2.
    destruct (T1 m Hm) as [g1 Hg1]. destruct (T2 m Hm) as [c Hc].
    left. exists g1. split; [assumption|]. split; [exact (G1 m Hm g1 Hg1)|].
    split; [assumption|]. exists c. split; [assumption|]. exact (G2 m Hm c Hc).
  - unfold names_word in H. rewrite Hn in H.
    repeat (apply andb_true_iff in H as [H ?]).
    pose proof (finditer_group _ 1 q H) as T1.
    pose proof (finditer_group_only PyStr.is_word word_item _ 1 q word_item_sound
                  ltac:(eassumption)) as G1.
    rewrite Forall_forall in T1, G1.
    destruct (T1 m Hm) as [g1 Hg1].
    right. exists g1. split; [assumption|]. split; [exact (G1 m Hm g1 Hg1)|].
    now apply negb_true_iff.
Qed.

Lemma lower_char_word (c : ascii) :
  PyStr.is_word c = true -> PyStr.is_word (PyStr.lower_char c) = true.
Proof. destruct c as [[] [] [] [] [] [] [] []]; vm_compute; auto. Qed.

Lemma lower_word_text (t : string) : is_word_text t -> is_word_text (PyStr.lower t).
Proof.
  intros [H Hne]. split.
  - clear Hne. induction t as [|c t IH]; [reflexivity|].
    simpl in H. apply andb_true_iff in H as [Hc Ht].
    unfold PyStr.lower in *. simpl. now rewrite (lower_char_word c Hc), IH.
  - destruct t; [congruence|discriminate].
Qed.

Lemma normalize_function_word (t : string) :
  is_word_text t -> is_word_text (normalize_function t).
Proof.
  intros H. unfold normalize_function.
  destruct (PyStr.mem t _); [split; [reflexivity|discriminate]|].
  destruct (t =? "average"); [split; [reflexivity|discriminate]|assumption].
Qed.

Lemma normalize_function_named (g1 : string) :
  In g1 aggregate_words ->
  In (normalize_function (PyStr.lower g1)) aggregate_functions.
Proof.
  intros H. repeat (destruct H as [<-|H]; [vm_compute; tauto|]). destruct H.
Qed.

Lemma aggregations_of_well_formed (ms : list Re.rmatch) (l : list Aggregation) :
  Forall aggregate_match ms ->
  aggregations_of ms = Ok l -> Forall well_formed_aggregation l.
Proof.
  intros H. revert l.
  induction H as [|m ms Hm _ IH]; cbn [aggregations_of]; intros l Hl.
  - inversion Hl. constructor.
  - destruct (Re.group m 1) as [g1|] eqn:Hg1; [|discriminate].
    destruct (aggregations_of ms) as [more|e]; [|discriminate].
    cbn [Py.bind] in Hl. inversion Hl; subst l. constructor; [|auto].
    unfold well_formed_aggregation. cbn [a_function a_column].
    destruct Hm as [[g [Hg [Hin [Hn [c [Hc Hw]]]]]]|[g [Hg [Hw Hn]]]];
      rewrite Hg1 in Hg; inversion Hg; subst g; rewrite Hn.
    + left. split; [now apply normalize_function_named|]. exists c. auto.
    + right. split; [|reflexivity].
      now apply normalize_function_word, lower_word_text.
Qed.

Lemma _extract_aggregations_well_formed (q : string) (l : list Aggregation) :
  all_chars not_upper q = true ->
  _extract_aggregations q = Ok l -> Forall well_formed_aggregation l.
Proof.
  intros Hq. apply aggregations_of_well_formed, all_matches_Forall.
  assert (H : forallb (fun pattern => names_function pattern || names_word pattern)
                agg_patterns = true) by (vm_compute; reflexivity).
  rewrite forallb_forall in H. apply Forall_forall.
  intros pattern Hin. apply finditer_aggregate_match; auto.
Qed.

(** *** What every parse satisfies *)

(** The parser raises on a prompt whose limit has 4301 digits. *)
Lemma parse_query_long_limit :
  exists message,
    parse_query long_limit_prompt = Raise (Exn "ValueError" message).
Proof. eexists. vm_compute. reflexivity. Qed.

(** X1.  The tables of a parse of an ASCII prompt are exactly the words of
    the fixed list [users, products, orders, customers, items, data] that
    occur in the lower-cased, stripped prompt, each once.  The two
    indicator patterns add nothing: the group the loop reads is the
    indicator word itself ([table], [from], [in], [on]), which the loop
    then refuses, so a name that follows [from] or [in] is a table only if
    it contains one of the six words. *)
Theorem parse_query_tables_from_word_list (query : string) (r : ParsedQuery) :
  PyStr.isascii query = true ->
  parse_query query = Ok r ->
  NoDup (tables r)
  /\ forall t, In t (tables r) <->
       In t common_table_words
       /\ PyStr.contains (PyStr.strip (PyStr.lower query)) t = true.
Proof.
  intros _ Hr.
  destruct (parse_query_fields _ _ Hr) as [_ [_ [Ht _]]].
  rewrite Ht, (_extract_tables_lower _ (query_lower_not_upper query)).
  split.
  - apply NoDup_filter. unfold common_table_words.
    repeat (constructor; [simpl; intuition discriminate|]). constructor.
  - intros t. apply filter_In.
Qed.

Lemma parse_query_tables_from_word_list_witness :
  exists r,
    parse_query "Show the name from Accounts in the Orders table" = Ok r
    /\ (In "orders" (tables r) /\ ~ In "accounts" (tables r)).
Proof.
  destruct (parse_query "Show the name from Accounts in the Orders table")
    as [r|e] eqn:Hr; [|vm_compute in Hr; discriminate Hr].
  exists r. split; [reflexivity|].
  destruct (parse_query_tables_from_word_list
              "Show the name from Accounts in the Orders table" r eq_refl Hr) as [_ H].
  split.
  - apply H. split; [cbn [In common_table_words]; auto 10|reflexivity].
  - intros Hin. apply H in Hin as [Hin _].
    cbn [In common_table_words] in Hin. intuition discriminate.
Defined.

(** X2.  Every filter of a parse of an ASCII prompt has a column that is a
    non-empty run of word characters, an operator out of the fifteen the
    three patterns spell, and a value made of word characters, white space
    and quotes with no white space at either end. *)
Theorem parse_query_filters_well_formed (query : string) (r : ParsedQuery) :
  PyStr.isascii query = true ->
  parse_query query = Ok r ->
  Forall well_formed_filter (filters r).
Proof.
  intros _ Hr.
  destruct (parse_query_fields _ _ Hr) as [_ [_ [_ [_ [Hf _]]]]].
  exact (_extract_filters_well_formed _ _ (query_lower_not_upper query) Hf).
Qed.

Lemma parse_query_filters_well_formed_witness :
  exists r,
    parse_query "show name from users where age greater than 30" = Ok r
    /\ filters r <> []
    /\ Forall well_formed_filter (filters r).
Proof.
  destruct (parse_query "show name from users where age greater than 30")
    as [r|e] eqn:Hr; [|vm_compute in Hr; discriminate Hr].
  exists r. split; [reflexivity|]. split.
  - vm_compute in Hr. inversion Hr. discriminate.
  - exact (parse_query_filters_well_formed
             "show name from users where age greater than 30" r eq_refl Hr).
Defined.

(** X3.  Every aggregation of a parse of an ASCII prompt either names one
    of [count], [sum], [avg], [max], [min] and a column that is a word, or
    has the column [*] and a function that is a single word.  The second
    kind comes from the pattern [how many (\w+)]: its only group is the
    word after [how many], and that word, not [count], becomes the
    function. *)
Theorem parse_query_aggregations_well_formed (query : string) (r : ParsedQuery) :
  PyStr.isascii query = true ->
  parse_query query = Ok r ->
  Forall well_formed_aggregation (aggregations r).
Proof.
  intros _ Hr.
  destruct (parse_query_fields _ _ Hr) as [_ [_ [_ [_ [_ [Ha _]]]]]].
  exact (_extract_aggregations_well_formed _ _ (query_lower_not_upper query) Ha).
Qed.

Lemma parse_query_aggregations_well_formed_witness :
  exists r,
    parse_query "how many users and the sum of price" = Ok r
    /\ aggregations r <> []
    /\ Forall well_formed_aggregation (aggregations r).
Proof.
  destruct (parse_query "how many users and the sum of price")
    as [r|e] eqn:Hr; [|vm_compute in Hr; discriminate Hr].
  exists r. split; [reflexivity|]. split.
  - vm_compute in Hr. inversion Hr. discriminate.
  - exact (parse_query_aggregations_well_formed
             "how many users and the sum of price" r eq_refl Hr).
Defined.

(** X4.  The sorting of a parse of an ASCII prompt, when there is one, has
    a column that is a word and the direction [ASC] or [DESC]; the limit,
    when there is one, is not negative. *)
Theorem parse_query_sorting_and_limit (query : string) (r : ParsedQuery) :
  PyStr.isascii query = true ->
  parse_query query = Ok r ->
  (forall so, sorting r = Some so -> well_formed_sorting so)
  /\ (forall z, limit r = Some z -> (0 <= z)%Z).
Proof.
  intros _ Hr.
  destruct (parse_query_fields _ _ Hr) as [_ [_ [_ [_ [_ [_ [Hs [Hl _]]]]]]]].
  split.
  - intros so Hso. rewrite Hs in Hso. exact (_extract_sorting_well_formed _ _ Hso).
  - intros z Hz. rewrite Hz in Hl. exact (_extract_limit_nonneg _ _ Hl).
Qed.

Lemma parse_query_sorting_and_limit_witness :
  exists r so,
    parse_query "list users order by name desc limit 10" = Ok r
    /\ sorting r = Some so
    /\ limit r = Some 10%Z
    /\ well_formed_sorting so.
Proof.
  destruct (parse_query "list users order by name desc limit 10")
    as [r|e] eqn:Hr; [|vm_compute in Hr; discriminate Hr].
  destruct (sorting r) as [so|] eqn:Hso;
    [|vm_compute in Hr; inversion Hr as [Er]; rewrite <- Er in Hso; discriminate Hso].
  exists r, so. split; [reflexivity|]. split; [exact Hso|]. split.
  - vm_compute in Hr. inversion Hr. reflexivity.
  - exact (proj1 (parse_query_sorting_and_limit
                    "list users order by name desc limit 10" r eq_refl Hr) so Hso).
Defined.

(** X5.  A parse keeps the prompt as given, and it carries no suggestion
    exactly when a table was found, the type is known and, for a select,
    a column was found: the ambiguity suggestion (confidence below 0.5)
    never stands alone, since a known type and a table already score
    0.5. *)
Theorem parse_query_suggestions_none (query : string) (r : ParsedQuery) :
  parse_query query = Ok r ->
  original_query r = query
  /\ (suggestions r = [] <-> clear_parse r).
Proof.
  intros Hr.
  destruct (parse_query_fields _ _ Hr) as [Ho [_ [_ [_ [_ [_ [_ [_ [Hc Hs]]]]]]]]].
  split; [assumption|]. rewrite Hs. exact (suggestions_none r Hc).
Qed.

Lemma parse_query_suggestions_none_witness :
  exists r,
    parse_query "show name from users" = Ok r
    /\ original_query r = "show name from users"
    /\ suggestions r = [].
Proof.
  destruct (parse_query "show name from users") as [r|e] eqn:Hr;
    [|vm_compute in Hr; discriminate Hr].
  exists r. split; [reflexivity|].
  destruct (parse_query_suggestions_none _ r Hr) as [Ho Hs].
  split; [exact Ho|]. vm_compute in Hr. inversion Hr. reflexivity.
Defined.

(** ** Substrings, the rule layer, the combiner and the mock *)

(** *** Substrings *)

Lemma startswith_prefix (a b n : string) :
  PyStr.startswith a n = true -> PyStr.startswith (a ++ b) n = true.
Proof.
  revert a; induction n as [|c n IH]; intros a H; [now destruct (a ++ b)|].
  destruct a as [|d a]; [discriminate|]. simpl in *.
  apply andb_true_iff in H as [H1 H2]. now rewrite H1, (IH _ H2).
Qed.

Lemma contains_in_app_l (a b n : string) :
  PyStr.contains a n = true -> PyStr.contains (a ++ b) n = true.
Proof.
  induction a as [|c a IH]; intros H.
  - cbn [PyStr.contains] in H. rewrite orb_false_r in H.
    destruct n; [now destruct b|discriminate].
  - cbn [PyStr.contains] in H. apply orb_true_iff in H as [H|H].
    + change (String c a ++ b) with (String c (a ++ b)) in *.
      pose proof (startswith_prefix (String c a) b n H) as Hp.
      change (String c a ++ b) with (String c (a ++ b)) in Hp.
      cbn [PyStr.contains]. now rewrite Hp.
    + change (String c a ++ b) with (String c (a ++ b)).
      cbn [PyStr.contains]. rewrite (IH H). apply orb_true_r.
Qed.

Lemma contains_in_app_r (a b n : string) :
  PyStr.contains b n = true -> PyStr.contains (a ++ b) n = true.
Proof.
  intros H. induction a as [|c a IH]; [exact H|].
  change (String c a ++ b) with (String c (a ++ b)).
  cbn [PyStr.contains]. rewrite IH. apply orb_true_r.
Qed.

Lemma contains_app_inv (a b n : string) :
  PyStr.contains (a ++ b) n = false ->
  PyStr.contains a n = false /\ PyStr.contains b n = false.
Proof.
  intros H. split.
  - destruct (PyStr.contains a n) eqn:E; [|reflexivity].
    now rewrite (contains_in_app_l a b n E) in H.
  - destruct (PyStr.contains b n) eqn:E; [|reflexivity].
    now rewrite (contains_in_app_r a b n E) in H.
Qed.

Lemma rstrip_is_prefix (s : string) : exists t, s = PyStr.rstrip s ++ t.
Proof.
  induction s as [|c s [t IH]]; [now exists ""|].
  cbn [PyStr.rstrip]. destruct (PyStr.rstrip s) as [|d r] eqn:E.
  - destruct (PyStr.is_space c); [now exists (String c s)|].
    exists s. reflexivity.
  - exists t. simpl. simpl in IH. now rewrite <- IH.
Qed.

Lemma lstrip_is_suffix (s : string) : exists t, s = t ++ PyStr.lstrip s.
Proof.
  induction s as [|c s [t IH]]; [now exists ""|].
  cbn [PyStr.lstrip]. destruct (PyStr.is_space c); [|now exists ""].
  exists (String c t). simpl. now rewrite <- IH.
Qed.

Lemma contains_of_strip (s n : string) :
  PyStr.contains (PyStr.strip s) n = true -> PyStr.contains s n = true.
Proof.
  unfold PyStr.strip. intros H.
  destruct (lstrip_is_suffix s) as [a Ha].
  destruct (rstrip_is_prefix (PyStr.lstrip s)) as [b Hb].
  rewrite Ha. apply contains_in_app_r. rewrite Hb. now apply contains_in_app_l.
Qed.

(** A keyword without white space is in the stripped text exactly when it
    is in the text. *)
Lemma contains_strip_eq (c : ascii) (n s : string) :
  no_space (String c n) = true ->
  PyStr.contains (PyStr.strip s) (String c n) = PyStr.contains s (String c n).
Proof.
  intros Hn. destruct (PyStr.contains s (String c n)) eqn:E.
  - now apply contains_strip.
  - destruct (PyStr.contains (PyStr.strip s) (String c n)) eqn:E'; [|reflexivity].
    apply contains_of_strip in E'. congruence.
Qed.

Lemma upper_app (a b : string) : PyStr.upper (a ++ b) = PyStr.upper a ++ PyStr.upper b.
Proof. induction a as [|x a IH]; simpl; [reflexivity|]. unfold PyStr.upper in *. simpl. now rewrite IH. Qed.

(** *** The rule layer *)

Lemma first_dangerous_none (keywords : list string) (text : string) :
  SQLiteManager.first_dangerous keywords text = None
  <-> existsb (PyStr.contains text) keywords = false.
Proof.
  induction keywords as [|k ks IH]; simpl; [tauto|].
  destruct (PyStr.contains text k); simpl; [split; discriminate|exact IH].
Qed.

Lemma first_dangerous_in (keywords : list string) (text k : string) :
  SQLiteManager.first_dangerous keywords text = Some k ->
  In k keywords /\ PyStr.contains text k = true.
Proof.
  induction keywords as [|k' ks IH]; simpl; [discriminate|].
  destruct (PyStr.contains text k') eqn:E; intros H.
  - inversion H; subst. auto.
  - destruct (IH H). auto.
Qed.

Lemma dangerous_strip (text : string) :
  existsb (PyStr.contains (PyStr.strip text)) SQLiteManager.dangerous_keywords
  = existsb (PyStr.contains text) SQLiteManager.dangerous_keywords.
Proof.
  unfold SQLiteManager.dangerous_keywords. cbn [existsb].
  now rewrite !contains_strip_eq by reflexivity.
Qed.

Lemma rule_layer_safe (query : string) :
  SQLiteManager.safe (SQLiteManager.validate_query_safety query)
  = negb (names_dangerous query).
Proof.
  unfold SQLiteManager.validate_query_safety, names_dangerous.
  rewrite <- dangerous_strip.
  destruct (SQLiteManager.first_dangerous _ _) as [k|] eqn:E.
  - destruct (existsb _ _) eqn:E'; [reflexivity|].
    apply first_dangerous_none in E'. congruence.
  - apply first_dangerous_none in E. now rewrite E.
Qed.

Lemma names_dangerous_app (a b : string) :
  names_dangerous (a ++ b) = false ->
  names_dangerous a = false /\ names_dangerous b = false.
Proof.
  unfold names_dangerous. rewrite upper_app. intros H.
  split; apply not_true_is_false; intros E;
    apply existsb_exists in E as [k [Hk E]];
    assert (X : existsb (PyStr.contains (PyStr.upper a ++ PyStr.upper b))
                  SQLiteManager.dangerous_keywords = true)
      by (apply existsb_exists; exists k; split;
          [assumption|auto using contains_in_app_l, contains_in_app_r]);
    congruence.
Qed.

(** X6.  On an ASCII query the rule layer is a substring test on the
    upper-cased text: it answers unsafe exactly when one of the seven
    keywords occurs anywhere in the text, inside an identifier or a literal
    as well ([strip] plays no role, the keywords hold no white space);
    [requires_confirmation] is the negation of [safe]; an unsafe answer
    names a keyword that occurs, a safe answer has no warning; and a query
    that is safe has only safe parts. *)
Theorem rule_layer_is_a_substring_test (query : string) :
  PyStr.isascii query = true ->
  let v := SQLiteManager.validate_query_safety query in
  SQLiteManager.safe v = negb (names_dangerous query)
  /\ SQLiteManager.requires_confirmation v = negb (SQLiteManager.safe v)
  /\ (SQLiteManager.safe v = false ->
      exists keyword,
        In keyword SQLiteManager.dangerous_keywords
        /\ PyStr.contains (PyStr.upper query) keyword = true
        /\ SQLiteManager.warning v
           = Some ("Query contains potentially dangerous operation: " ++ keyword))
  /\ (SQLiteManager.safe v = true -> SQLiteManager.warning v = None)
  /\ (forall a b, query = a ++ b -> SQLiteManager.safe v = true ->
        SQLiteManager.safe (SQLiteManager.validate_query_safety a) = true
        /\ SQLiteManager.safe (SQLiteManager.validate_query_safety b) = true).
Proof.
  intros _. cbv zeta. split; [apply rule_layer_safe|].
  split; [|split; [|split]].
  - unfold SQLiteManager.validate_query_safety.
    now destruct (SQLiteManager.first_dangerous _ _).
  - unfold SQLiteManager.validate_query_safety.
    destruct (SQLiteManager.first_dangerous _ _) as [k|] eqn:E; [|discriminate].
    intros _. apply first_dangerous_in in E as [Hin Hc].
    exists k. split; [assumption|]. split; [|reflexivity].
    now apply contains_of_strip.
  - unfold SQLiteManager.validate_query_safety.
    now destruct (SQLiteManager.first_dangerous _ _).
  - intros a b -> H. rewrite !rule_layer_safe in *.
    apply negb_true_iff in H. apply names_dangerous_app in H as [Ha Hb].
    now rewrite Ha, Hb.
Qed.

Lemma rule_layer_is_a_substring_test_witness :
  SQLiteManager.validate_query_safety "select updated_at from members"
  = {| SQLiteManager.safe := false;
       SQLiteManager.warning :=
         Some "Query contains potentially dangerous operation: UPDATE";
       SQLiteManager.requires_confirmation := true |}
  /\ names_dangerous "select updated_at from members" = true.
Proof.
  destruct (rule_layer_is_a_substring_test "select updated_at from members" eq_refl)
    as [Hs _].
  split; [reflexivity|].
  apply negb_false_iff. rewrite <- Hs. reflexivity.
Defined.

(** *** The combiner on a reply that is not JSON, and on a failed model layer *)

Lemma names_dangerous_false (sql : string) :
  names_dangerous sql = false ->
  PyStr.contains (PyStr.upper sql) "DROP" = false
  /\ PyStr.contains (PyStr.upper sql) "DELETE" = false.
Proof.
  unfold names_dangerous, SQLiteManager.dangerous_keywords. cbn [existsb].
  intros H. apply orb_false_iff in H as [H1 H]. apply orb_false_iff in H as [H2 _].
  auto.
Qed.

Lemma combine_fallback (w : World) (sql : string) :
  combine w (SQLiteManager.validate_query_safety sql)
    (Analysed (fallback_analysis sql))
  = Ok (rule_verdict sql ["Could not parse AI safety analysis"]
          ["Manual review recommended"]).
Proof.
  unfold rule_verdict. pose proof (rule_layer_safe sql) as Hs. revert Hs.
  unfold SQLiteManager.validate_query_safety.
  destruct (SQLiteManager.first_dangerous _ _) as [k|]; cbn [SQLiteManager.safe];
    intros Hs; [reflexivity|].
  symmetry in Hs. apply negb_true_iff, names_dangerous_false in Hs as [H1 H2].
  unfold combine, fallback_analysis. rewrite H1, H2. reflexivity.
Qed.

Lemma combine_schema_document (w : World) (sql : string) :
  combine w (SQLiteManager.validate_query_safety sql)
    (Analysed (value_of_jlit mock_schema))
  = Ok (rule_verdict sql [] []).
Proof.
  unfold rule_verdict, SQLiteManager.validate_query_safety.
  destruct (SQLiteManager.first_dangerous _ _) as [k|]; reflexivity.
Qed.

Lemma rule_verdict_not_rejected (sql : string) (ws rs : list string) :
  rejected (rule_verdict sql ws rs) = false.
Proof. unfold rejected, rule_verdict. cbn. apply andb_false_r. Qed.

Lemma model_layer_without_json (w : World) (sql : string) (model : option string)
  (c : string) :
  _make_api_request w (safety_messages sql) 0.1%float model = Ok (reply c) ->
  is_decode_error (json_loads w (PyStr.strip c)) ->
  AIQueryProcessor.validate_query_safety w sql model = Analysed (fallback_analysis sql).
Proof.
  intros Hg [message Hj]. unfold AIQueryProcessor.validate_query_safety.
  fold (safety_messages sql). rewrite Hg. cbn [Py.bind].
  rewrite content_of_reply. cbn [Py.bind]. rewrite Hj. reflexivity.
Qed.

(** X7.  When the model's reply to the safety request is an ASCII text
    that is not JSON, the combined verdict is the rule layer's: [safe] is
    the rule layer's [safe] (the local fallback looks for [DROP] and
    [DELETE], which the rule layer looks for too), the risk is [medium],
    the warnings are the rule layer's warning, if any, followed by the
    parse notice; the query is not rejected, whatever it is. *)
Theorem safety_verdict_when_reply_is_not_json (w : World) (sql : string)
  (model : option string) (c : string) :
  PyStr.isascii c = true ->
  _make_api_request w (safety_messages sql) 0.1%float model = Ok (reply c) ->
  is_decode_error (json_loads w (PyStr.strip c)) ->
  AIService.validate_query_safety w sql model
    = rule_verdict sql ["Could not parse AI safety analysis"]
        ["Manual review recommended"]
  /\ rejected (AIService.validate_query_safety w sql model) = false.
Proof.
  intros _ Hg Hj.
  assert (E : AIService.validate_query_safety w sql model
              = rule_verdict sql ["Could not parse AI safety analysis"]
                  ["Manual review recommended"]).
  { unfold AIService.validate_query_safety, validate_query_safety_try.
    rewrite (model_layer_without_json _ _ _ _ Hg Hj), combine_fallback. reflexivity. }
  split; [exact E|]. rewrite E. apply rule_verdict_not_rejected.
Qed.

Lemma safety_verdict_when_reply_is_not_json_witness :
  AIService.validate_query_safety Scenario.offline "drop table users" None
    = {| safe := false; risk_level := MEDIUM;
         warnings := ["Query contains potentially dangerous operation: DROP";
                      "Could not parse AI safety analysis"];
         recommendations := ["Manual review recommended"] |}.
Proof.
  refine (proj1 (safety_verdict_when_reply_is_not_json Scenario.offline
                   "drop table users" None "SELECT * FROM users LIMIT 10;" _ _ _)).
  - reflexivity.
  - reflexivity.
  - eexists. reflexivity.
Defined.

(** X8.  When the model layer of the safety check fails (its request
    raised), the orchestrator's rejection test holds exactly for the
    queries the rule layer finds safe: for them the fallback verdict is
    built with the warning list [[None]], the constructor refuses it and
    the handler answers [high]; a query the rule layer finds unsafe gets
    [medium] and goes on to the engine. *)
Theorem safety_verdict_when_model_layer_fails (w : World) (sql : string)
  (model : option string) (err : string) :
  AIQueryProcessor.validate_query_safety w sql model = AnalysisFailed err ->
  rejected (AIService.validate_query_safety w sql model)
    = SQLiteManager.safe (SQLiteManager.validate_query_safety sql).
Proof.
  intros H. unfold AIService.validate_query_safety, validate_query_safety_try.
  rewrite H. unfold SQLiteManager.validate_query_safety.
  destruct (SQLiteManager.first_dangerous _ _) as [k|]; reflexivity.
Qed.

Lemma safety_verdict_when_model_layer_fails_witness :
  rejected (AIService.validate_query_safety Scenario.unreachable
              "SELECT name FROM members" None) = true
  /\ rejected (AIService.validate_query_safety Scenario.unreachable
                 "DROP TABLE members" None) = false.
Proof.
  split.
  - rewrite (safety_verdict_when_model_layer_fails Scenario.unreachable
               "SELECT name FROM members" None (str_exn unbound_response));
      reflexivity.
  - rewrite (safety_verdict_when_model_layer_fails Scenario.unreachable
               "DROP TABLE members" None (str_exn unbound_response));
      reflexivity.
Defined.

(** *** The gateway *)

(** X9.  The gateway raises to its caller in one case only: a key and a
    model are configured and [requests.post] itself raised; what it raises
    is then the [UnboundLocalError] of its handler, never the error of
    the request. *)
Theorem gateway_raises_only_unbound_response (w : World)
  (messages : list Message) (temperature : float) (model : option string) (e : exn) :
  _make_api_request w messages temperature model = Raise e ->
  e = unbound_response
  /\ falsy (OPENROUTER_API_KEY w) = false
  /\ exists payload e',
       p_messages payload = messages
       /\ p_temperature payload = temperature
       /\ requests_post w payload = Raise e'.
Proof.
  unfold _make_api_request.
  destruct (OPENROUTER_API_KEY w) as [[|k key]|]; try discriminate.
  destruct (if falsy model then OPENROUTER_MODEL w else model) as [[|n name]|];
    try discriminate.
  destruct (requests_post w _) as [response|e'] eqn:Hp.
  - destruct (negb _); [discriminate|]. destruct (json response); discriminate.
  - cbn. intros H. inversion H. split; [reflexivity|]. split; [reflexivity|].
    eexists _, e'. split; [|split; [|exact Hp]]; reflexivity.
Qed.

Lemma gateway_raises_only_unbound_response_witness :
  unbound_response = unbound_response
  /\ falsy (OPENROUTER_API_KEY Scenario.unreachable) = false
  /\ exists payload e',
       p_messages payload = [msg "user" "show all users"]
       /\ p_temperature payload = 0.1%float
       /\ requests_post Scenario.unreachable payload = Raise e'.
Proof.
  apply (gateway_raises_only_unbound_response Scenario.unreachable
           [msg "user" "show all users"] 0.1%float None unbound_response).
  reflexivity.
Defined.

(** *** Without a credential *)

Lemma mock_content_canned (user_message : string) :
  In (mock_content user_message) canned_replies.
Proof.
  unfold mock_content, canned_replies. repeat case_match; cbn [In]; auto 10.
Qed.

Lemma mock_content_sql (user_message : string) :
  PyStr.contains (PyStr.lower user_message) "sql" = true ->
  In (mock_content user_message) canned_sql_replies.
Proof.
  unfold mock_content, canned_sql_replies. cbv zeta. intros H. rewrite H.
  cbn [orb]. repeat case_match; cbn [In]; auto 10.
Qed.

Lemma canned_reply_clean (c : string) :
  In c canned_replies -> unfence (PyStr.strip c) = c /\ PyStr.strip c = c.
Proof.
  intros H. repeat (destruct H as [<-|H]; [split; vm_compute; reflexivity|]).
  destruct H.
Qed.

Lemma canned_sql_reply_canned (c : string) :
  In c canned_sql_replies -> In c canned_replies.
Proof. unfold canned_sql_replies, canned_replies. cbn [In]. intuition auto. Qed.

Lemma offline_translation (w : World) (prompt : string) (schema : Schema)
  (model : option string) :
  falsy (OPENROUTER_API_KEY w) = true ->
  natural_language_to_sql w prompt schema model = SqlGenerated (mock_content prompt).
Proof.
  intros Hk. rewrite mocked_translation by assumption.
  now rewrite (proj1 (canned_reply_clean _ (mock_content_canned prompt))).
Qed.

(** X10.  Without an API key the translation step cannot fail, ignores
    the schema and returns one of five fixed texts, selected by the
    lower-cased prompt: the schema document, one of three [SELECT]
    statements, or the apology sentence. *)
Theorem offline_translation_is_canned (w : World) (prompt : string)
  (schema : Schema) (model : option string) :
  falsy (OPENROUTER_API_KEY w) = true ->
  natural_language_to_sql w prompt schema model = SqlGenerated (mock_content prompt)
  /\ In (mock_content prompt) canned_replies.
Proof.
  intros Hk. split; [now apply offline_translation|apply mock_content_canned].
Qed.

Lemma offline_translation_is_canned_witness :
  natural_language_to_sql Scenario.offline "how many members joined in May?"
    Scenario.library None = SqlGenerated apology.
Proof.
  exact (proj1 (offline_translation_is_canned Scenario.offline
                  "how many members joined in May?" Scenario.library None eq_refl)).
Defined.

Lemma safety_request_mentions_sql (sql : string) :
  PyStr.contains (PyStr.lower ("Analyze this SQL query: " ++ sql)) "sql" = true.
Proof. rewrite lower_app. apply contains_in_app_l. reflexivity. Qed.

Lemma offline_model_layer (w : World) (sql : string) (model : option string) :
  falsy (OPENROUTER_API_KEY w) = true -> reads_canned_replies w ->
  AIQueryProcessor.validate_query_safety w sql model = Analysed (value_of_jlit mock_schema)
  \/ AIQueryProcessor.validate_query_safety w sql model = Analysed (fallback_analysis sql).
Proof.
  intros Hk [Hdoc Hsql].
  assert (Hg : _make_api_request w (safety_messages sql) 0.1%float model
               = Ok (reply (mock_content ("Analyze this SQL query: " ++ sql))))
    by (rewrite gateway_without_credentials by auto; reflexivity).
  pose proof (mock_content_sql _ (safety_request_mentions_sql sql)) as Hin.
  pose proof (canned_reply_clean _ (canned_sql_reply_canned _ Hin)) as [_ Hs].
  destruct Hin as [E|Hin].
  - left. unfold AIQueryProcessor.validate_query_safety.
    fold (safety_messages sql). rewrite Hg. cbn [Py.bind].
    rewrite content_of_reply. cbn [Py.bind]. rewrite Hs, <- E, Hdoc. reflexivity.
  - right. apply (model_layer_without_json _ _ _ _ Hg). rewrite Hs.
    apply Hsql. unfold canned_replies. cbn [tl In]. cbn [In] in Hin. intuition auto.
Qed.

Lemma offline_verdict (w : World) (sql : string) (model : option string) :
  falsy (OPENROUTER_API_KEY w) = true -> reads_canned_replies w ->
  exists ws rs, AIService.validate_query_safety w sql model = rule_verdict sql ws rs.
Proof.
  intros Hk Hr. unfold AIService.validate_query_safety, validate_query_safety_try.
  destruct (offline_model_layer w sql model Hk Hr) as [-> | ->].
  - rewrite combine_schema_document. eexists _, _. reflexivity.
  - rewrite combine_fallback. eexists _, _. reflexivity.
Qed.

(** X11.  Without an API key, and with a [json.loads] that reads the
    mock's schema document and refuses its SQL statements, the safety
    check gives every query the risk [medium]: [safe] is the answer of the
    rule layer and no query is rejected. *)
Theorem offline_safety_check_never_rejects (w : World) (sql : string)
  (model : option string) :
  falsy (OPENROUTER_API_KEY w) = true -> reads_canned_replies w ->
  let v := AIService.validate_query_safety w sql model in
  risk_level v = MEDIUM
  /\ safe v = SQLiteManager.safe (SQLiteManager.validate_query_safety sql)
  /\ rejected v = false.
Proof.
  intros Hk Hr. cbv zeta.
  destruct (offline_verdict w sql model Hk Hr) as [ws [rs ->]].
  split; [reflexivity|]. split; [reflexivity|apply rule_verdict_not_rejected].
Qed.

Lemma offline_reads_canned_replies : reads_canned_replies offline_with_json.
Proof.
  split; [reflexivity|]. intros c Hc.
  repeat (destruct Hc as [<-|Hc]; [eexists; reflexivity|]). destruct Hc.
Qed.

Lemma offline_safety_check_never_rejects_witness :
  risk_level (AIService.validate_query_safety offline_with_json
                "DROP TABLE members; -- create a database" None) = MEDIUM
  /\ safe (AIService.validate_query_safety offline_with_json
             "DROP TABLE members; -- create a database" None)
     = false
  /\ rejected (AIService.validate_query_safety offline_with_json
                 "DROP TABLE members; -- create a database" None) = false.
Proof.
  exact (offline_safety_check_never_rejects offline_with_json
           "DROP TABLE members; -- create a database" None eq_refl
           offline_reads_canned_replies).
Defined.

(** X12.  Without an API key, a run on a registered database whose
    prompt the parser accepts and whose schema is available submits exactly
    one statement to the engine, whatever the prompt says: the mock's reply
    to the prompt, be it a [SELECT], the schema document or the apology
    sentence. *)
Theorem offline_pipeline_submits_the_canned_reply (w : World)
  (prompt database_id : string) (include_explanation : bool)
  (model : option string) (parsed : ParsedQuery) (schema : Schema) :
  falsy (OPENROUTER_API_KEY w) = true -> reads_canned_replies w ->
  get_database_info w database_id = Ok true ->
  parse_query prompt = Ok parsed ->
  get_database_schema w database_id = Ok (Some schema) ->
  In (mock_content prompt) canned_replies
  /\ snd (process_natural_language_query w prompt database_id include_explanation model)
     = [(database_id, mock_content prompt)].
Proof.
  intros Hk Hr Hdb Hp Hs. split; [apply mock_content_canned|].
  pose proof (offline_translation w prompt schema model Hk) as Ht.
  assert (Hrej : rejected (AIService.validate_query_safety w (mock_content prompt) model)
                 = false).
  { destruct (offline_verdict w (mock_content prompt) model Hk Hr) as [ws [rs ->]].
    apply rule_verdict_not_rejected. }
  unfold process_natural_language_query.
  destruct (execute_query w database_id (mock_content prompt)) as [r|e] eqn:He.
  - now rewrite (stage_execute_returns _ _ _ include_explanation _ Hdb parsed Hp schema Hs
                   _ Ht Hrej r He).
  - now rewrite (stage_execute_raises _ _ _ include_explanation _ Hdb parsed Hp schema Hs
                   _ Ht Hrej e He).
Qed.

Lemma offline_pipeline_submits_the_canned_reply_witness :
  In (mock_content "how many members joined in May?") canned_replies
  /\ snd (process_natural_language_query offline_with_json
            "how many members joined in May?" "library.db" true None)
     = [("library.db", apology)].
Proof.
  refine (offline_pipeline_submits_the_canned_reply offline_with_json
            "how many members joined in May?" "library.db" true None _ Scenario.library
            eq_refl offline_reads_canned_replies eq_refl _ eq_refl).
  vm_compute. reflexivity.
Defined.

(** *** The explanation without a credential *)

Lemma explain_request_mentions_sql (original_prompt sql_query results_summary
  sample_data : string) :
  PyStr.contains
    (PyStr.lower (explain_user_message original_prompt sql_query results_summary
                    sample_data)) "sql" = true.
Proof.
  unfold explain_user_message, lines. cbn [PyStr.join].
  rewrite !lower_app.
  apply contains_in_app_r, contains_in_app_r, contains_in_app_r, contains_in_app_r.
  apply contains_in_app_l, contains_in_app_l. reflexivity.
Qed.

(** X13.  Without an API key the explanation of a result is never prose:
    the request text contains [SQL Query:], so the mock answers with the
    schema document or one of its three [SELECT] statements, and
    [result_count] is the number of rows. *)
Theorem offline_explanation_is_a_canned_statement (w : World) (results : list Row)
  (original_prompt sql_query : string) (model : option string) :
  falsy (OPENROUTER_API_KEY w) = true ->
  (results <> [] -> exists sample, json_dumps_rows w (firstn 3 results) = Ok sample) ->
  exists text,
    explain_query_results w results original_prompt sql_query model
      = Explained text (List.length results)
    /\ In text canned_sql_replies.
Proof.
  intros Hk Hd. unfold explain_query_results.
  assert (Hs : exists sample,
             match results with
             | _ :: _ =>
                 if (3 <? List.length results)%nat
                 then json_dumps_rows w (firstn 3 results)
                 else json_dumps_rows w results
             | [] => Ok "No results found"
             end = Ok sample).
  { destruct results as [|row rows]; [eauto|].
    destruct (Hd ltac:(discriminate)) as [sample Hsample]. exists sample.
    destruct (3 <? List.length (row :: rows))%nat eqn:E; [exact Hsample|].
    apply Nat.ltb_ge in E. now rewrite firstn_all2 in Hsample. }
  destruct Hs as [sample ->]. cbn [Py.bind].
  rewrite gateway_without_credentials by auto. cbn [Py.bind].
  unfold _get_mock_response. rewrite user_message_of_pair, content_of_reply.
  cbn [Py.bind].
  pose proof (mock_content_sql _
                (explain_request_mentions_sql original_prompt sql_query
                   ("Found " ++ PyStr.of_nat (List.length results) ++ " results")
                   sample)) as Hin.
  rewrite (proj2 (canned_reply_clean _ (canned_sql_reply_canned _ Hin))).
  eexists. split; [reflexivity|exact Hin].
Qed.

Lemma offline_explanation_is_a_canned_statement_witness :
  exists text,
    explain_query_results Scenario.offline (rows_of Scenario.members_rows)
      "who are the members?" "SELECT * FROM members;" None
      = Explained text 2
    /\ In text canned_sql_replies.
Proof.
  apply (offline_explanation_is_a_canned_statement Scenario.offline
           (rows_of Scenario.members_rows) "who are the members?"
           "SELECT * FROM members;" None eq_refl).
  intros _. eexists. reflexivity.
Defined.

(** *** Code fences *)

Lemma split_on_nonempty (sep : ascii) (s : string) : PyStr.split_on sep s <> [].
Proof.
  destruct s as [|c s]; cbn [PyStr.split_on]; [discriminate|].
  destruct (Ascii.eqb c sep); [discriminate|].
  destruct (PyStr.split_on sep s); discriminate.
Qed.

Lemma split_on_app (sep : ascii) (a b : string) :
  PyStr.split_on sep (a ++ String sep b)
  = (PyStr.split_on sep a ++ PyStr.split_on sep b)%list.
Proof.
  induction a as [|c a IH].
  - cbn [append PyStr.split_on]. now rewrite Ascii.eqb_refl.
  - change (String c a ++ String sep b) with (String c (a ++ String sep b)).
    cbn [PyStr.split_on]. rewrite IH.
    destruct (Ascii.eqb c sep); [reflexivity|].
    pose proof (split_on_nonempty sep a) as Hne.
    destruct (PyStr.split_on sep a) as [|x xs]; [congruence|reflexivity].
Qed.

Lemma split_on_no_sep (sep : ascii) (a : string) :
  all_chars (fun c => negb (Ascii.eqb c sep)) a = true ->
  PyStr.split_on sep a = [a].
Proof.
  induction a as [|c a IH]; [reflexivity|]. cbn [all_chars PyStr.split_on].
  intros H. apply andb_true_iff in H as [Hc Ha].
  apply negb_true_iff in Hc. now rewrite Hc, (IH Ha).
Qed.

Lemma join_cons_char (sep : string) (c : ascii) (x : string) (xs : list string) :
  PyStr.join sep (String c x :: xs) = String c (PyStr.join sep (x :: xs)).
Proof. destruct xs; reflexivity. Qed.

Lemma join_split_on (sep : ascii) (s : string) :
  PyStr.join (String sep "") (PyStr.split_on sep s) = s.
Proof.
  induction s as [|c s IH]; [reflexivity|]. cbn [PyStr.split_on].
  pose proof (split_on_nonempty sep s) as Hne.
  destruct (Ascii.eqb c sep) eqn:E.
  - apply Ascii.eqb_eq in E. subst c.
    destruct (PyStr.split_on sep s) as [|x xs]; [congruence|].
    change (PyStr.join (String sep "") ("" :: x :: xs))
      with ("" ++ String sep "" ++ PyStr.join (String sep "") (x :: xs)).
    now rewrite IH.
  - destruct (PyStr.split_on sep s) as [|x xs]; [congruence|].
    now rewrite join_cons_char, IH.
Qed.

Lemma last_line_snoc (l : list string) (x : string) : last_line (l ++ [x]) = Some x.
Proof.
  induction l as [|y l IH]; [reflexivity|].
  change ((y :: l) ++ [x])%list with (y :: (l ++ [x]))%list.
  cbn [last_line]. destruct (l ++ [x])%list eqn:E; [|exact IH].
  now destruct l.
Qed.

(** X14.  A reply wrapped in a Markdown fence, with any tag on the opening
    line and an ASCII body of any number of lines, is reduced to its
    stripped body. *)
Theorem unfence_removes_the_fence (tag body : string) :
  no_newline tag = true ->
  PyStr.isascii body = true ->
  unfence ("```" ++ tag ++ PyStr.nl ++ body ++ PyStr.nl ++ "```") = PyStr.strip body.
Proof.
  intros Ht _. unfold unfence.
  replace (PyStr.startswith ("```" ++ tag ++ PyStr.nl ++ body ++ PyStr.nl ++ "```") "```")
    with true by (symmetry; apply startswith_prefix; reflexivity).
  replace ("```" ++ tag ++ PyStr.nl ++ body ++ PyStr.nl ++ "```")
    with (("```" ++ tag) ++ String (ascii_of_nat 10) (body ++ String (ascii_of_nat 10) "```"))
    by (unfold PyStr.nl; now rewrite !string_app_assoc).
  rewrite !split_on_app.
  rewrite (split_on_no_sep _ ("```" ++ tag)) by exact Ht.
  cbn [app].
  replace (PyStr.startswith ("```" ++ tag) "```") with true
    by (symmetry; apply startswith_prefix; reflexivity).
  change (PyStr.split_on (ascii_of_nat 10) "```") with ["```"].
  rewrite last_line_snoc.
  change (PyStr.strip "```" =? "```") with true. cbv iota.
  rewrite removelast_last. unfold lines, PyStr.nl. now rewrite join_split_on.
Qed.

Lemma unfence_removes_the_fence_witness :
  unfence ("```" ++ "sql" ++ PyStr.nl ++ "SELECT name
FROM members;" ++ PyStr.nl ++ "```")
  = "SELECT name
FROM members;".
Proof.
  exact (unfence_removes_the_fence "sql" "SELECT name
FROM members;" eq_refl eq_refl).
Defined.

(** ** The registry of databases *)

(** *** Dictionaries *)

Lemma lookup_dict_set {A : Type} (k k' : string) (v : A) (d : SQLitePaths.dict A) :
  lookup k' (SQLitePaths.dict_set k v d)
  = if String.eqb k k' then Some v else lookup k' d.
Proof.
  induction d as [|[x y] d IH]; cbn [SQLitePaths.dict_set lookup].
  - reflexivity.
  - destruct (String.eqb x k) eqn:E; cbn [lookup].
    + apply String.eqb_eq in E. subst x. now destruct (String.eqb k k').
    + rewrite IH. destruct (String.eqb x k') eqn:E'; [|reflexivity].
      apply String.eqb_eq in E'. subst x. now rewrite String.eqb_sym, E.
Qed.

Lemma lookup_dict_del {A : Type} (k k' : string) (d : SQLitePaths.dict A) :
  lookup k' (SQLitePaths.dict_del k d)
  = if String.eqb k k' then None else lookup k' d.
Proof.
  unfold SQLitePaths.dict_del.
  induction d as [|[x y] d IH]; cbn [filter lookup fst].
  - now destruct (String.eqb k k').
  - destruct (String.eqb x k) eqn:E; cbn [negb lookup].
    + apply String.eqb_eq in E. subst x. rewrite IH.
      now destruct (String.eqb k k').
    + rewrite IH. destruct (String.eqb x k') eqn:E'; [|reflexivity].
      apply String.eqb_eq in E'. subst x. now rewrite String.eqb_sym, E.
Qed.

Lemma in_dict_set {A : Type} (k : string) (v : A) (d : SQLitePaths.dict A)
  (k' : string) (v' : A) :
  In (k', v') (SQLitePaths.dict_set k v d) -> (k', v') = (k, v) \/ In (k', v') d.
Proof.
  induction d as [|[x y] d IH]; cbn [SQLitePaths.dict_set].
  - intros [H|[]]; auto.
  - destruct (String.eqb x k) eqn:E.
    + apply String.eqb_eq in E. subst x. intros [H|H]; [auto|right; now right].
    + intros [H|H]; [right; now left|]. destruct (IH H); [auto|right; now right].
Qed.

Lemma in_dict_del {A : Type} (k : string) (d : SQLitePaths.dict A) (e : string * A) :
  In e (SQLitePaths.dict_del k d) -> In e d.
Proof. unfold SQLitePaths.dict_del. intros H. now apply filter_In in H. Qed.

Lemma lookup_in {A : Type} (k : string) (v : A) (d : SQLitePaths.dict A) :
  lookup k d = Some v -> In (k, v) d.
Proof.
  induction d as [|[x y] d IH]; cbn [lookup]; [discriminate|].
  destruct (String.eqb x k) eqn:E; intros H.
  - apply String.eqb_eq in E. inversion H. subst. now left.
  - right. auto.
Qed.

Lemma dict_mem_lookup {A : Type} (k : string) (d : SQLitePaths.dict A) :
  SQLitePaths.dict_mem k d = true <-> exists v, lookup k d = Some v.
Proof.
  unfold SQLitePaths.dict_mem. destruct (lookup k d); split; eauto; try discriminate.
  intros [v H]. discriminate.
Qed.

(** *** [close_database] *)

(** X15.  [close_database] answers whether the instance's own manager knew
    the identifier.  If it did, the path and the shared registry entry are
    removed; if it did not, nothing changes, so a database that another
    instance registered cannot be closed through this one.  Other
    identifiers are untouched. *)
Theorem close_database_removes_own_path_only (st : DatabaseModel.Store) (id : string) :
  let r := DatabaseModel.close_database st id in
  let st' := snd r in
  fst r = SQLitePaths.dict_mem id (DatabaseModel.database_paths st)
  /\ SQLitePaths.dict_mem id (DatabaseModel.database_paths st') = false
  /\ (fst r = true ->
      SQLitePaths.dict_mem id (DatabaseModel._database_registry st') = false)
  /\ (fst r = false -> st' = st)
  /\ (forall other, other <> id ->
        lookup other (DatabaseModel.database_paths st')
          = lookup other (DatabaseModel.database_paths st)
        /\ lookup other (DatabaseModel._database_registry st')
           = lookup other (DatabaseModel._database_registry st)).
Proof.
  cbv zeta. unfold DatabaseModel.close_database, SQLitePaths.close_database.
  destruct (SQLitePaths.dict_mem id (DatabaseModel.database_paths st)) eqn:Hm;
    cbn [fst snd DatabaseModel.database_paths DatabaseModel._database_registry andb].
  - split; [reflexivity|]. split.
    { unfold SQLitePaths.dict_mem. now rewrite lookup_dict_del, String.eqb_refl. }
    split.
    { intros _. destruct (SQLitePaths.dict_mem id (DatabaseModel._database_registry st)) eqn:Hr;
        [|exact Hr].
      unfold SQLitePaths.dict_mem. now rewrite lookup_dict_del, String.eqb_refl. }
    split; [discriminate|].
    intros other Hne. apply String.eqb_neq in Hne. rewrite String.eqb_sym in Hne.
    split; [now rewrite lookup_dict_del, Hne|].
    destruct (SQLitePaths.dict_mem id (DatabaseModel._database_registry st));
      [now rewrite lookup_dict_del, Hne|reflexivity].
  - split; [reflexivity|]. split; [exact Hm|]. split; [discriminate|].
    split; [intros _; now destruct st|]. intros other _. split; reflexivity.
Qed.

Lemma close_database_own (registry : DatabaseModel.Registry)
  (own : SQLitePaths.Paths) (id : string) :
  SQLitePaths.dict_mem id own = true ->
  fst (DatabaseModel.close_database (instance registry own) id) = true
  /\ SQLitePaths.dict_mem id
       (DatabaseModel._database_registry
          (snd (DatabaseModel.close_database (instance registry own) id))) = false.
Proof.
  intros Hown. unfold DatabaseModel.close_database, SQLitePaths.close_database.
  cbn [instance DatabaseModel.database_paths DatabaseModel._database_registry].
  rewrite Hown. cbn [fst snd andb DatabaseModel._database_registry].
  split; [reflexivity|].
  destruct (SQLitePaths.dict_mem id registry) eqn:Hr; [|exact Hr].
  unfold SQLitePaths.dict_mem. now rewrite lookup_dict_del, String.eqb_refl.
Qed.

(** *** [get_database_list] *)

Lemma listing_status (d : SQLitePaths.Disk) (entry : string * string) :
  exists status,
    DatabaseModel.DatabaseStatus_of (SQLitePaths.l_status (SQLitePaths.listing_of d entry))
    = Ok status.
Proof.
  destruct entry as [k p]. cbn [SQLitePaths.listing_of SQLitePaths.l_status].
  destruct (SQLitePaths.exists_after_connect d p); eexists; reflexivity.
Qed.

Lemma accessed_refl (d : SQLitePaths.Disk) (info : DatabaseModel.DatabaseInfo) :
  accessed d info info.
Proof. now left. Qed.

Lemma accessed_trans (d : SQLitePaths.Disk) (a b c : DatabaseModel.DatabaseInfo) :
  accessed d a b -> accessed d b c -> accessed d a c.
Proof.
  intros [->|[n ->]] [->|[m ->]].
  - now left.
  - right. now exists m.
  - right. now exists n.
  - right. now exists m.
Qed.

Lemma accessed_same_file (d : SQLitePaths.Disk) (a b : DatabaseModel.DatabaseInfo) :
  accessed d a b ->
  DatabaseModel.di_id b = DatabaseModel.di_id a
  /\ DatabaseModel.di_path b = DatabaseModel.di_path a.
Proof. intros [->|[n ->]]; split; reflexivity. Qed.

Lemma dict_mem_cons {A : Type} (k0 k : string) (v : A) (d : SQLitePaths.dict A) :
  SQLitePaths.dict_mem k ((k0, v) :: d)
  = String.eqb k0 k || SQLitePaths.dict_mem k d.
Proof.
  unfold SQLitePaths.dict_mem. cbn [lookup]. now destruct (String.eqb k0 k).
Qed.

(** What the loop of [get_database_list] does to the registry. *)
Lemma register_all_spec (d : SQLitePaths.Disk) (paths : SQLitePaths.Paths) :
  forall tick registry,
  exists out registry',
    DatabaseModel.register_all d tick (SQLitePaths.list_databases d paths) registry
      = Ok (out, registry')
    /\ (forall k info, lookup k registry = Some info ->
          exists info', lookup k registry' = Some info' /\ accessed d info info')
    /\ (forall k info, lookup k registry = Some info ->
          SQLitePaths.dict_mem k paths = false -> lookup k registry' = Some info)
    /\ (forall k info, lookup k registry = Some info ->
          SQLitePaths.dict_mem k paths = true ->
          exists n,
            lookup k registry'
            = Some (DatabaseModel.with_last_accessed info (SQLitePaths.now d n)))
    /\ (forall k, SQLitePaths.dict_mem k paths = true ->
          SQLitePaths.dict_mem k registry' = true)
    /\ (forall k info, In (k, info) registry' ->
          exists info0,
            accessed d info0 info
            /\ (In (k, info0) registry
                \/ exists p status n,
                     In (k, p) paths
                     /\ info0 = DatabaseModel.info_of (SQLitePaths.listing_of d (k, p))
                                  status None (Some (SQLitePaths.now d n))))
    /\ (forall k, SQLitePaths.dict_mem k registry' = true ->
          SQLitePaths.dict_mem k registry = true
          \/ SQLitePaths.dict_mem k paths = true).
Proof.
  induction paths as [|[k0 p0] paths IH]; intros tick registry.
  - exists [], registry. cbn [SQLitePaths.list_databases map DatabaseModel.register_all].
    split; [reflexivity|].
    split; [intros k info H; exists info; split; [exact H|apply accessed_refl]|].
    split; [auto|]. split; [discriminate|]. split; [discriminate|].
    split; [|auto].
    intros k info H. exists info. split; [apply accessed_refl|now left].
  - cbn [SQLitePaths.list_databases map DatabaseModel.register_all].
    change (SQLitePaths.l_id (SQLitePaths.listing_of d (k0, p0))) with k0.
    fold (SQLitePaths.list_databases d paths).
    destruct (lookup k0 registry) as [info0|] eqn:E0.
    + set (touched := DatabaseModel.with_last_accessed info0 (SQLitePaths.now d tick)).
      destruct (IH (S tick) (SQLitePaths.dict_set k0 touched registry))
        as [out [reg' [Hr [Hkeep [Hsame [Htouch [Hall [Hnew Hold]]]]]]]].
      rewrite Hr. cbn [Py.bind fst snd]. exists (touched :: out), reg'.
      split; [reflexivity|].
      assert (Hstep : forall k info, lookup k registry = Some info ->
                lookup k (SQLitePaths.dict_set k0 touched registry)
                = Some (if String.eqb k0 k then touched else info)).
      { intros k info H. rewrite lookup_dict_set.
        now destruct (String.eqb k0 k). }
      split; [|split; [|split; [|split; [|split]]]].
      * intros k info H. pose proof (Hstep k info H) as H1.
        destruct (Hkeep _ _ H1) as [info' [Hl Ha]]. exists info'.
        split; [exact Hl|].
        destruct (String.eqb k0 k) eqn:E; [|exact Ha].
        apply String.eqb_eq in E. subst k.
        assert (info = info0) by congruence. subst info.
        apply (accessed_trans d info0 touched info'); [|exact Ha].
        right. now exists tick.
      * intros k info H Hm. rewrite dict_mem_cons in Hm.
        apply orb_false_iff in Hm as [E Hm].
        pose proof (Hstep k info H) as H1. rewrite E in H1.
        exact (Hsame _ _ H1 Hm).
      * intros k info H Hm. rewrite dict_mem_cons in Hm.
        pose proof (Hstep k info H) as H1.
        destruct (String.eqb k0 k) eqn:E.
        -- apply String.eqb_eq in E. subst k.
           assert (info = info0) by congruence. subst info.
           destruct (SQLitePaths.dict_mem k0 paths) eqn:Hp.
           ++ destruct (Htouch _ _ H1 Hp) as [n Hn]. exists n. exact Hn.
           ++ exists tick. exact (Hsame _ _ H1 Hp).
        -- cbn [orb] in Hm. exact (Htouch _ _ H1 Hm).
      * intros k Hk. rewrite dict_mem_cons in Hk.
        destruct (String.eqb k0 k) eqn:E.
        -- apply String.eqb_eq in E. subst k.
           destruct (Hkeep k0 touched) as [info' [Hl _]];
             [now rewrite lookup_dict_set, String.eqb_refl|].
           unfold SQLitePaths.dict_mem. now rewrite Hl.
        -- apply Hall. exact Hk.
      * intros k info Hin. destruct (Hnew k info Hin) as [info1 [Ha [H|H]]].
        -- apply in_dict_set in H as [H|H].
           ++ inversion H; subst. exists info0.
              split; [|left; now apply lookup_in].
              apply (accessed_trans d info0 touched info); [|exact Ha].
              right. now exists tick.
           ++ exists info1. split; [exact Ha|now left].
        -- destruct H as [p [s [n [Hp Hi]]]]. exists info1.
           split; [exact Ha|]. right. exists p, s, n. split; [now right|exact Hi].
      * intros k Hk. destruct (Hold k Hk) as [H|H].
        -- unfold SQLitePaths.dict_mem in H. rewrite lookup_dict_set in H.
           destruct (String.eqb k0 k) eqn:E.
           ++ right. rewrite dict_mem_cons, E. reflexivity.
           ++ left. exact H.
        -- right. rewrite dict_mem_cons, H. apply orb_true_r.
    + destruct (listing_status d (k0, p0)) as [status Hs]. rewrite Hs.
      cbn [Py.bind].
      set (info0 := DatabaseModel.info_of (SQLitePaths.listing_of d (k0, p0)) status
                      None (Some (SQLitePaths.now d tick))).
      destruct (IH (S (S tick)) (SQLitePaths.dict_set k0 info0 registry))
        as [out [reg' [Hr [Hkeep [Hsame [Htouch [Hall [Hnew Hold]]]]]]]].
      rewrite Hr. cbn [Py.bind fst snd]. exists (info0 :: out), reg'.
      split; [reflexivity|].
      assert (Hstep : forall k info, lookup k registry = Some info ->
                String.eqb k0 k = false
                /\ lookup k (SQLitePaths.dict_set k0 info0 registry) = Some info).
      { intros k info H. rewrite lookup_dict_set.
        destruct (String.eqb k0 k) eqn:E; [|auto].
        apply String.eqb_eq in E. subst k. congruence. }
      split; [|split; [|split; [|split; [|split]]]].
      * intros k info H. destruct (Hstep k info H) as [_ H1]. exact (Hkeep _ _ H1).
      * intros k info H Hm. destruct (Hstep k info H) as [E H1].
        rewrite dict_mem_cons, E in Hm. exact (Hsame _ _ H1 Hm).
      * intros k info H Hm. destruct (Hstep k info H) as [E H1].
        rewrite dict_mem_cons, E in Hm. exact (Htouch _ _ H1 Hm).
      * intros k Hk. rewrite dict_mem_cons in Hk.
        destruct (String.eqb k0 k) eqn:E.
        -- apply String.eqb_eq in E. subst k.
           destruct (Hkeep k0 info0) as [info' [Hl _]];
             [now rewrite lookup_dict_set, String.eqb_refl|].
           unfold SQLitePaths.dict_mem. now rewrite Hl.
        -- apply Hall. exact Hk.
      * intros k info Hin. destruct (Hnew k info Hin) as [info1 [Ha [H|H]]].
        -- apply in_dict_set in H as [H|H].
           ++ inversion H; subst. exists info0. split; [exact Ha|].
              right. exists p0, status, tick. split; [now left|reflexivity].
           ++ exists info1. split; [exact Ha|now left].
        -- destruct H as [p [s [n [Hp Hi]]]]. exists info1.
           split; [exact Ha|]. right. exists p, s, n. split; [now right|exact Hi].
      * intros k Hk. destruct (Hold k Hk) as [H|H].
        -- unfold SQLitePaths.dict_mem in H. rewrite lookup_dict_set in H.
           destruct (String.eqb k0 k) eqn:E.
           ++ right. rewrite dict_mem_cons, E. reflexivity.
           ++ left. exact H.
        -- right. rewrite dict_mem_cons, H. apply orb_true_r.
Qed.

(** X16.  [get_database_info] returns on every store and leaves the path
    table alone; it first lists the instance's own paths and registers
    those the shared registry lacks, so it finds an identifier exactly
    when the registry or the instance's path table holds it.  An entry
    already registered stays: unchanged when the instance's path table
    lacks its identifier, and with a reading of the clock as its new
    [last_accessed], and nothing else changed, when the table holds it. *)
Theorem get_database_info_registers_own_paths (d : SQLitePaths.Disk)
  (st : DatabaseModel.Store) (id : string) :
  exists answer st',
    DatabaseModel.get_database_info d st id = Ok (answer, st')
    /\ DatabaseModel.database_paths st' = DatabaseModel.database_paths st
    /\ (answer <> None <->
        SQLitePaths.dict_mem id (DatabaseModel._database_registry st)
        || SQLitePaths.dict_mem id (DatabaseModel.database_paths st) = true)
    /\ (forall k info, lookup k (DatabaseModel._database_registry st) = Some info ->
          (SQLitePaths.dict_mem k (DatabaseModel.database_paths st) = false ->
           lookup k (DatabaseModel._database_registry st') = Some info)
          /\ (SQLitePaths.dict_mem k (DatabaseModel.database_paths st) = true ->
              exists n,
                lookup k (DatabaseModel._database_registry st')
                = Some (DatabaseModel.with_last_accessed info (SQLitePaths.now d n))))
    /\ (forall k, SQLitePaths.dict_mem k (DatabaseModel.database_paths st) = true ->
          SQLitePaths.dict_mem k (DatabaseModel._database_registry st') = true).
Proof.
  unfold DatabaseModel.get_database_info, DatabaseModel.get_database_list.
  destruct (register_all_spec d (DatabaseModel.database_paths st) 0
              (DatabaseModel._database_registry st))
    as [out [reg' [Hr [Hkeep [Hsame [Htouch [Hall [_ Hold]]]]]]]].
  rewrite Hr. cbn [Py.bind fst snd DatabaseModel._database_registry
                   DatabaseModel.database_paths].
  eexists _, _. split; [reflexivity|].
  cbn [DatabaseModel._database_registry DatabaseModel.database_paths].
  split; [reflexivity|]. split; [|split; [|assumption]].
  - split.
    + intros Hne. apply orb_true_iff.
      apply Hold. unfold SQLitePaths.dict_mem. now destruct (lookup id reg').
    + intros H. apply orb_true_iff in H as [H|H].
      * apply dict_mem_lookup in H as [info H].
        destruct (Hkeep _ _ H) as [info' [Hl _]]. now rewrite Hl.
      * apply Hall in H. unfold SQLitePaths.dict_mem in H.
        now destruct (lookup id reg').
  - intros k info H. split; [exact (Hsame _ _ H)|exact (Htouch _ _ H)].
Qed.

(** X17.  Closing through one instance does not close a database that a
    second instance has loaded too: the call succeeds and removes the
    shared registry entry, and the next [get_database_info] of the second
    instance registers the database again from its own path table. *)
Theorem closed_database_is_registered_again (d : SQLitePaths.Disk)
  (registry : DatabaseModel.Registry) (own other : SQLitePaths.Paths) (id : string) :
  SQLitePaths.dict_mem id own = true ->
  SQLitePaths.dict_mem id other = true ->
  let closed := DatabaseModel.close_database (instance registry own) id in
  let shared := DatabaseModel._database_registry (snd closed) in
  fst closed = true
  /\ SQLitePaths.dict_mem id shared = false
  /\ exists info st',
       DatabaseModel.get_database_info d (instance shared other) id
         = Ok (Some info, st')
       /\ SQLitePaths.dict_mem id (DatabaseModel._database_registry st') = true.
Proof.
  intros Hown Hother. cbv zeta.
  destruct (close_database_own registry own id Hown) as [Hok Hreg].
  split; [exact Hok|]. split; [exact Hreg|].
  unfold DatabaseModel.get_database_info, DatabaseModel.get_database_list.
  destruct (register_all_spec d other 0
              (DatabaseModel._database_registry
                 (snd (DatabaseModel.close_database (instance registry own) id))))
    as [out [reg' [Hr [_ [_ [_ [Hall _]]]]]]].
  cbn [instance DatabaseModel._database_registry DatabaseModel.database_paths].
  rewrite Hr. cbn [Py.bind fst snd DatabaseModel._database_registry].
  pose proof (Hall id Hother) as Hin.
  apply dict_mem_lookup in Hin as [info Hin].
  exists info. eexists. split; [now rewrite Hin|].
  cbn [DatabaseModel._database_registry]. apply dict_mem_lookup. eauto.
Qed.

Lemma closed_database_is_registered_again_witness :
  exists info st',
    DatabaseModel.get_database_info one_file
      (instance
         (DatabaseModel._database_registry
            (snd (DatabaseModel.close_database
                    (instance [] [("library.db", "/data/library.db")]) "library.db")))
         [("library.db", "/data/library.db")]) "library.db"
      = Ok (Some info, st')
    /\ SQLitePaths.dict_mem "library.db" (DatabaseModel._database_registry st') = true.
Proof.
  exact (proj2 (proj2 (closed_database_is_registered_again one_file []
                         [("library.db", "/data/library.db")]
                         [("library.db", "/data/library.db")] "library.db"
                         eq_refl eq_refl))).
Defined.

(** *** Identifiers and base names *)

Lemma consistent_empty (d : SQLitePaths.Disk) : consistent d (instance [] []).
Proof. split; intros k x []. Qed.

Lemma load_database_spec (d : SQLitePaths.Disk) (st : DatabaseModel.Store)
  (file_path : string) (info : DatabaseModel.DatabaseInfo) (st' : DatabaseModel.Store) :
  DatabaseModel.load_database d st file_path = Ok (info, st') ->
  DatabaseModel.di_id info = SQLitePaths.basename d file_path
  /\ DatabaseModel.di_path info = file_path
  /\ DatabaseModel.di_status info = DatabaseModel.CONNECTED
  /\ DatabaseModel._database_registry st'
     = SQLitePaths.dict_set (SQLitePaths.basename d file_path) info
         (DatabaseModel._database_registry st)
  /\ DatabaseModel.database_paths st'
     = SQLitePaths.dict_set (SQLitePaths.basename d file_path) file_path
         (DatabaseModel.database_paths st).
Proof.
  unfold DatabaseModel.load_database, SQLitePaths.load_database.
  destruct (SQLitePaths.path_exists d file_path); cbn [negb]; [|discriminate].
  destruct (DatabaseModel._is_valid_sqlite_file d file_path); cbn [negb]; [|discriminate].
  destruct (SQLitePaths.table_names d file_path) as [tables|e]; [|discriminate].
  cbn [Py.bind SQLitePaths.l_id]. intros H. inversion H; subst. clear H.
  repeat split; reflexivity.
Qed.

Lemma load_database_consistent (d : SQLitePaths.Disk) (st : DatabaseModel.Store)
  (file_path : string) (info : DatabaseModel.DatabaseInfo) (st' : DatabaseModel.Store) :
  consistent d st ->
  DatabaseModel.load_database d st file_path = Ok (info, st') -> consistent d st'.
Proof.
  intros [Hp Hr] H. apply load_database_spec in H as [Hid [Hpath [_ [Hreg Hpaths]]]].
  split.
  - intros k p Hin. rewrite Hpaths in Hin. apply in_dict_set in Hin as [E|Hin]; [|eauto].
    now inversion E.
  - intros k i Hin. rewrite Hreg in Hin. apply in_dict_set in Hin as [E|Hin]; [|eauto].
    inversion E as [[Ek Ei]]. split; [assumption|]. now rewrite Hpath.
Qed.

Lemma get_database_list_consistent (d : SQLitePaths.Disk) (st : DatabaseModel.Store)
  (l : list DatabaseModel.DatabaseInfo) (st' : DatabaseModel.Store) :
  consistent d st ->
  DatabaseModel.get_database_list d st = Ok (l, st') -> consistent d st'.
Proof.
  intros [Hp Hr]. unfold DatabaseModel.get_database_list.
  destruct (register_all_spec d (DatabaseModel.database_paths st) 0
              (DatabaseModel._database_registry st))
    as [out [reg' [Hreg [_ [_ [_ [_ [Hnew _]]]]]]]].
  rewrite Hreg. cbn [Py.bind fst snd]. intros H. inversion H; subst. clear H.
  split; [exact Hp|].
  cbn [DatabaseModel._database_registry]. intros k info Hin.
  destruct (Hnew k info Hin) as [info0 [Ha H]].
  destruct (accessed_same_file d info0 info Ha) as [-> ->].
  destruct H as [H|[p [status [n [Hin' ->]]]]]; [eauto|].
  cbn. split; [reflexivity|eauto].
Qed.

Lemma close_database_consistent (d : SQLitePaths.Disk) (st : DatabaseModel.Store)
  (id : string) :
  consistent d st -> consistent d (snd (DatabaseModel.close_database st id)).
Proof.
  intros [Hp Hr]. unfold DatabaseModel.close_database, SQLitePaths.close_database.
  destruct (SQLitePaths.dict_mem id (DatabaseModel.database_paths st));
    cbn [snd andb]; [|split; assumption].
  split; cbn [DatabaseModel.database_paths DatabaseModel._database_registry].
  - intros k p Hin. apply in_dict_del in Hin. eauto.
  - intros k i Hin.
    destruct (SQLitePaths.dict_mem id (DatabaseModel._database_registry st));
      [apply in_dict_del in Hin|]; eauto.
Qed.

(** X18.  In a store where every path is kept under its base name and
    every registry entry under the identifier it carries, the base name of
    its path, the three operations keep it so; a successful
    [load_database] leaves the file registered under its base name, with
    that path, replacing whatever was there under the same name. *)
Theorem identifiers_are_base_names (d : SQLitePaths.Disk) (st : DatabaseModel.Store) :
  consistent d st ->
  (forall file_path info st',
      DatabaseModel.load_database d st file_path = Ok (info, st') ->
      consistent d st'
      /\ lookup (SQLitePaths.basename d file_path) (DatabaseModel._database_registry st')
         = Some info
      /\ lookup (SQLitePaths.basename d file_path) (DatabaseModel.database_paths st')
         = Some file_path
      /\ DatabaseModel.di_path info = file_path)
  /\ (forall l st',
        DatabaseModel.get_database_list d st = Ok (l, st') -> consistent d st')
  /\ (forall id, consistent d (snd (DatabaseModel.close_database st id))).
Proof.
  intros Hc. split; [|split].
  - intros file_path info st' H. split; [exact (load_database_consistent _ _ _ _ _ Hc H)|].
    apply load_database_spec in H as [_ [Hpath [_ [-> ->]]]].
    now rewrite !lookup_dict_set, !String.eqb_refl.
  - intros l st'. now apply get_database_list_consistent.
  - intros id. now apply close_database_consistent.
Qed.

Lemma identifiers_are_base_names_witness :
  exists info st',
    DatabaseModel.load_database one_file (instance [] []) "/data/library.db"
      = Ok (info, st')
    /\ consistent one_file st'
    /\ lookup "library.db" (DatabaseModel._database_registry st') = Some info
    /\ lookup "library.db" (DatabaseModel.database_paths st') = Some "/data/library.db".
Proof.
  eexists _, _. split; [reflexivity|].
  destruct (proj1 (identifiers_are_base_names one_file (instance [] [])
                     (consistent_empty one_file)) "/data/library.db" _ _ eq_refl)
    as [H1 [H2 [H3 _]]].
  split; [exact H1|]. split; [exact H2|exact H3].
Defined.

(** *** The page information *)

Lemma floordiv_ok (a b : Z) : b <> 0%Z -> DatabaseModel.floordiv a b = Ok (a / b)%Z.
Proof.
  intros H. unfold DatabaseModel.floordiv. apply Z.eqb_neq in H. now rewrite H.
Qed.

(** X19.  For a positive limit, an offset and a row count that are not
    negative, the page information is computed: [total_pages] is the
    ceiling of [total_rows / limit], the current page is at least 1, a
    page with [has_next] is not the last one, and for an offset that is a
    multiple of the limit [has_next] says exactly that the page is not the
    last one and [has_previous] that it is not the first. *)
Theorem page_info_arithmetic (limit offset total : Z) :
  (0 < limit)%Z -> (0 <= offset)%Z -> (0 <= total)%Z ->
  exists p,
    DatabaseModel.page_info limit offset total = Ok p
    /\ (total <= DatabaseModel.total_pages p * limit < total + limit)%Z
    /\ (1 <= DatabaseModel.current_page p)%Z
    /\ (DatabaseModel.has_next p = true ->
        (DatabaseModel.current_page p < DatabaseModel.total_pages p)%Z)
    /\ ((limit | offset)%Z ->
        (DatabaseModel.has_next p = true <->
         (DatabaseModel.current_page p < DatabaseModel.total_pages p)%Z)
        /\ (DatabaseModel.has_previous p = true <->
            (1 < DatabaseModel.current_page p)%Z)).
Proof.
  intros Hl Ho Ht. unfold DatabaseModel.page_info.
  rewrite !floordiv_ok by lia. cbn [Py.bind]. eexists. split; [reflexivity|].
  cbn [DatabaseModel.total_pages DatabaseModel.current_page DatabaseModel.has_next
       DatabaseModel.has_previous].
  pose proof (Z.div_mod (total + limit - 1) limit ltac:(lia)) as Hd.
  pose proof (Z.mod_pos_bound (total + limit - 1) limit Hl) as Hm.
  pose proof (Z.div_mod offset limit ltac:(lia)) as Hd'.
  pose proof (Z.mod_pos_bound offset limit Hl) as Hm'.
  pose proof (Z.div_pos offset limit Ho Hl) as Hq.
  set (q := (offset / limit)%Z) in *. set (n := ((total + limit - 1) / limit)%Z) in *.
  split; [nia|]. split; [lia|]. split.
  - intros H. apply Z.ltb_lt in H. nia.
  - intros [k Hk]. assert (Hr : (offset mod limit = 0)%Z)
      by (subst offset; apply Z.mod_mul; lia).
    rewrite Hr in *. split; split; intros H.
    + apply Z.ltb_lt in H. nia.
    + apply Z.ltb_lt. nia.
    + apply Z.ltb_lt in H. nia.
    + apply Z.ltb_lt. nia.
Qed.

Lemma page_info_arithmetic_witness :
  exists p,
    DatabaseModel.page_info 10 20 35 = Ok p
    /\ DatabaseModel.current_page p = 3%Z /\ DatabaseModel.total_pages p = 4%Z
    /\ DatabaseModel.has_next p = true /\ DatabaseModel.has_previous p = true.
Proof.
  destruct (page_info_arithmetic 10 20 35 ltac:(lia) ltac:(lia) ltac:(lia))
    as [p [Hp _]].
  exists p. split; [exact Hp|].
  vm_compute in Hp. inversion Hp. repeat split.
Defined.

(** X20.  The page information is computed for every limit other than 0;
    for the limit 0 the division raises [ZeroDivisionError].  The route
    bounds the requested limit from above only, so it passes 0 on. *)
Theorem page_info_raises_for_limit_zero (limit offset total : Z) :
  ((exists p, DatabaseModel.page_info limit offset total = Ok p) <-> limit <> 0%Z)
  /\ (limit = 0%Z ->
      exists e, DatabaseModel.page_info limit offset total = Raise e
                /\ exn_class e = "ZeroDivisionError")
  /\ (forall requested, (requested <= 1000)%Z ->
        TableRoutes.page_limit requested = requested)
  /\ TableRoutes.page_limit 0 = 0%Z.
Proof.
  split; [|split; [|split]].
  - split.
    + intros [p Hp] ->. discriminate Hp.
    + intros H. unfold DatabaseModel.page_info. rewrite !floordiv_ok by assumption.
      eexists. reflexivity.
  - intros ->. eexists. split; reflexivity.
  - intros requested H. unfold TableRoutes.page_limit. lia.
  - reflexivity.
Qed.

(** *** Placeholders and parameters *)

Lemma count_char_app (c : ascii) (a b : string) :
  count_char c (a ++ b) = count_char c a + count_char c b.
Proof. induction a as [|x a IH]; simpl; [reflexivity|]. rewrite IH. lia. Qed.

Lemma list_sum_cons (x : nat) (l : list nat) : list_sum (x :: l) = x + list_sum l.
Proof. reflexivity. Qed.

Lemma count_char_join (c : ascii) (sep : string) (l : list string) :
  count_char c sep = 0 ->
  count_char c (PyStr.join sep l) = list_sum (map (count_char c) l).
Proof.
  intros Hs. induction l as [|x l IH]; [reflexivity|].
  destruct l as [|y l]; [simpl; lia|].
  change (PyStr.join sep (x :: y :: l)) with (x ++ sep ++ PyStr.join sep (y :: l)).
  rewrite !count_char_app, IH, Hs. cbn [map]. rewrite !list_sum_cons. lia.
Qed.

Lemma count_char_uint (d : Decimal.uint) :
  count_char "?" (NilEmpty.string_of_uint d) = 0.
Proof. induction d; simpl; auto. Qed.

Lemma count_char_of_Z (z : Z) : count_char "?" (PyStr.of_Z z) = 0.
Proof.
  unfold PyStr.of_Z, NilEmpty.string_of_int.
  destruct (Z.to_int z); simpl; apply count_char_uint.
Qed.

Lemma like_conditions_count (filters : SQLitePaths.dict string) :
  Forall (fun kv => plain (fst kv)) filters ->
  list_sum (map (count_char "?") (DatabaseModel.like_conditions filters))
  = List.length filters.
Proof.
  unfold DatabaseModel.like_conditions.
  induction 1 as [|kv l Hkv _ IH]; [reflexivity|].
  cbn [map List.length]. rewrite list_sum_cons, IH, count_char_app, Hkv. reflexivity.
Qed.

Lemma where_clause_count (filters : SQLitePaths.dict string) :
  Forall (fun kv => plain (fst kv)) filters ->
  count_char "?" (PyStr.join " AND " (DatabaseModel.like_conditions filters))
  = List.length filters.
Proof.
  intros H. rewrite count_char_join by reflexivity. now apply like_conditions_count.
Qed.

(** X21.  The statement that reads a page and the statement that counts
    the rows carry the same parameters, one [%value%] pattern per filter,
    and when neither the table name, the filter columns nor the sort
    column and order hold a question mark, each statement has as many
    placeholders as parameters. *)
Theorem table_statements_bind_every_parameter (table_name : string)
  (limit offset : Z) (filters : SQLitePaths.dict string) (sort_by : option string)
  (sort_order : string) :
  plain table_name ->
  Forall (fun kv => plain (fst kv)) filters ->
  (forall by_column, sort_by = Some by_column -> plain by_column) ->
  plain sort_order ->
  let page := DatabaseModel.table_data_query table_name limit offset filters
                sort_by sort_order in
  let count := DatabaseModel.table_count_query table_name filters in
  snd page = snd count
  /\ count_char "?" (fst page) = bound (snd page)
  /\ count_char "?" (fst count) = bound (snd count)
  /\ bound (snd page) = List.length filters.
Proof.
  intros Ht Hf Hs Ho. cbv zeta.
  unfold DatabaseModel.table_data_query, DatabaseModel.table_count_query.
  assert (Hsort : forall q,
             count_char "?"
               match sort_by with
               | Some (String _ _ as by_column) =>
                   q ++ " ORDER BY " ++ by_column ++ " " ++ sort_order
               | _ => q
               end = count_char "?" q).
  { intros q. destruct sort_by as [[|c by_column]|]; try reflexivity.
    rewrite !count_char_app, (Hs _ eq_refl), Ho. simpl. lia. }
  destruct filters as [|kv filters]; cbn [fst snd bound].
  - split; [reflexivity|]. rewrite !count_char_app, !count_char_of_Z, Hsort, !count_char_app, Ht.
    split; [reflexivity|]. split; reflexivity.
  - unfold DatabaseModel.like_params. cbn [map bound List.length].
    rewrite length_map. split; [reflexivity|].
    rewrite !count_char_app, !count_char_of_Z, Hsort, !count_char_app, Ht.
    rewrite (where_clause_count (kv :: filters) Hf). cbn [List.length].
    split; [simpl; lia|]. split; [simpl; lia|reflexivity].
Qed.

Lemma table_statements_bind_every_parameter_witness :
  count_char "?"
    (fst (DatabaseModel.table_data_query "members" 10 0
            [("name", "Ada"); ("city", "Lon")] (Some "name") "DESC")) = 2
  /\ snd (DatabaseModel.table_data_query "members" 10 0
            [("name", "Ada"); ("city", "Lon")] (Some "name") "DESC")
     = Some ["%Ada%"; "%Lon%"].
Proof.
  pose proof (table_statements_bind_every_parameter "members" 10 0
                [("name", "Ada"); ("city", "Lon")] (Some "name") "DESC"
                eq_refl ltac:(repeat constructor)
                ltac:(intros by_column H; inversion H; reflexivity) eq_refl) as H.
  cbv zeta in H. destruct H as [_ [H _]]. split; [exact H|reflexivity].
Defined.

Lemma set_clauses_count {A : Type} (data : SQLitePaths.dict A) :
  Forall (fun kv => plain (fst kv)) data ->
  list_sum (map (count_char "?") (map (fun kv => fst kv ++ " = ?") data))
  = List.length data.
Proof.
  induction 1 as [|kv l Hkv _ IH]; [reflexivity|].
  cbn [map List.length]. rewrite list_sum_cons, IH, count_char_app, Hkv. reflexivity.
Qed.

Lemma columns_count {A : Type} (data : SQLitePaths.dict A) :
  Forall (fun kv => plain (fst kv)) data ->
  list_sum (map (count_char "?") (map fst data)) = 0.
Proof.
  induction 1 as [|kv l Hkv _ IH]; [reflexivity|].
  cbn [map]. now rewrite list_sum_cons, IH, Hkv.
Qed.

Lemma placeholders_count {A : Type} (l : list A) :
  list_sum (map (count_char "?") (map (fun _ => "?") l)) = List.length l.
Proof. induction l as [|x l IH]; [reflexivity|]. cbn [map List.length]. now rewrite list_sum_cons, IH. Qed.

(** X22.  The statements of [insert_record], [update_record] and
    [delete_record] have as many placeholders as parameters when the
    table and column names hold no question mark: the values of the
    record, followed for an update by the record identifier, and the
    identifier alone for a delete. *)
Theorem record_statements_bind_every_parameter (A : Type) (table_name : string)
  (record_id : A) (data : SQLitePaths.dict A) (id_column : string) :
  plain table_name -> plain id_column ->
  Forall (fun kv => plain (fst kv)) data ->
  let inserted := DatabaseModel.insert_statement A table_name data in
  let updated := DatabaseModel.update_statement A table_name record_id data id_column in
  let deleted := DatabaseModel.delete_statement A table_name record_id id_column in
  count_char "?" (fst inserted) = List.length (snd inserted)
  /\ snd inserted = map snd data
  /\ count_char "?" (fst updated) = List.length (snd updated)
  /\ snd updated = (map snd data ++ [record_id])%list
  /\ count_char "?" (fst deleted) = List.length (snd deleted)
  /\ snd deleted = [record_id].
Proof.
  intros Ht Hi Hd. cbv zeta.
  unfold DatabaseModel.insert_statement, DatabaseModel.update_statement,
    DatabaseModel.delete_statement. cbn [fst snd].
  repeat split.
  - rewrite !count_char_app, !count_char_join by reflexivity.
    rewrite (columns_count data Hd), placeholders_count, Ht, !length_map. simpl. lia.
  - rewrite !count_char_app, count_char_join by reflexivity.
    rewrite (set_clauses_count data Hd), Ht, Hi, length_app, length_map. simpl. lia.
  - rewrite !count_char_app, Ht, Hi. reflexivity.
Qed.

Lemma record_statements_bind_every_parameter_witness :
  DatabaseModel.update_statement Z "members" 7%Z [("name", 1%Z); ("city", 2%Z)] "id"
  = ("UPDATE members SET name = ?, city = ? WHERE id = ?", [1%Z; 2%Z; 7%Z])
  /\ count_char "?"
       (fst (DatabaseModel.update_statement Z "members" 7%Z
               [("name", 1%Z); ("city", 2%Z)] "id")) = 3.
Proof.
  split; [reflexivity|].
  pose proof (record_statements_bind_every_parameter Z "members" 7%Z
                [("name", 1%Z); ("city", 2%Z)] "id" eq_refl eq_refl
                ltac:(repeat constructor)) as H.
  cbv zeta in H. exact (proj1 (proj2 (proj2 H))).
Defined.

(** ** Request validators, related queries and the schema designer *)

(** *** The validators of the request texts *)

Lemma strip_fixed (s : string) :
  all_chars not_space s = true -> PyStr.strip s = s.
Proof.
  intros H. unfold PyStr.strip.
  assert (Hl : PyStr.lstrip s = s).
  { destruct s as [|c s]; [reflexivity|]. simpl in *.
    apply andb_true_iff in H as [Hc _]. unfold not_space in Hc.
    apply negb_true_iff in Hc. now rewrite Hc. }
  rewrite Hl. clear Hl. induction s as [|c s IH]; [reflexivity|].
  simpl in H. apply andb_true_iff in H as [Hc Hs].
  cbn [PyStr.rstrip]. rewrite (IH Hs).
  destruct s; [|reflexivity]. unfold not_space in Hc.
  apply negb_true_iff in Hc. now rewrite Hc.
Qed.

Lemma stripped_or_spec (message v : string) :
  (forall p, RequestValidators.stripped_or message v = Ok p ->
     p = PyStr.strip v /\ p <> ""
     /\ RequestValidators.stripped_or message p = Ok p)
  /\ (PyStr.strip v = "" ->
      RequestValidators.stripped_or message v = Raise (Exn "ValueError" message)).
Proof.
  unfold RequestValidators.stripped_or. split.
  - intros p. destruct (PyStr.strip v) as [|c s] eqn:E; [discriminate|].
    intros H. inversion H; subst p. split; [reflexivity|]. split; [discriminate|].
    rewrite <- E, strip_idempotent, E. reflexivity.
  - intros ->. reflexivity.
Qed.

(** X23.  On an ASCII text the validators of the request texts answer
    with the stripped text, which is not empty (for a description, at
    least ten characters long), and accept their own answer unchanged; a
    text of white space alone is refused by all four. *)
Theorem request_texts_are_stripped (v : string) :
  PyStr.isascii v = true ->
  (forall p, RequestValidators.validate_prompt v = Ok p ->
     p = PyStr.strip v /\ p <> "" /\ RequestValidators.validate_prompt p = Ok p)
  /\ (forall p, RequestValidators.validate_query v = Ok p ->
        p = PyStr.strip v /\ p <> "" /\ RequestValidators.validate_query p = Ok p)
  /\ (forall p, RequestValidators.validate_file_path v = Ok p ->
        p = PyStr.strip v /\ p <> "" /\ RequestValidators.validate_file_path p = Ok p)
  /\ (forall p, RequestValidators.validate_description v = Ok p ->
        p = PyStr.strip v /\ 10 <= String.length p
        /\ RequestValidators.validate_description p = Ok p)
  /\ (PyStr.strip v = "" ->
      (exists e, RequestValidators.validate_prompt v = Raise e)
      /\ (exists e, RequestValidators.validate_query v = Raise e)
      /\ (exists e, RequestValidators.validate_file_path v = Raise e)
      /\ (exists e, RequestValidators.validate_description v = Raise e)).
Proof.
  intros _.
  split; [exact (proj1 (stripped_or_spec _ v))|].
  split; [exact (proj1 (stripped_or_spec _ v))|].
  split; [exact (proj1 (stripped_or_spec _ v))|]. split.
  - intros p. unfold RequestValidators.validate_description.
    destruct (PyStr.strip v) as [|c s] eqn:E; [discriminate|].
    destruct (String.length (String c s) <? 10)%nat eqn:El; [discriminate|].
    intros H. inversion H; subst p. split; [reflexivity|].
    split; [now apply Nat.ltb_ge in El|].
    rewrite <- E, strip_idempotent, E, El. reflexivity.
  - intros H. repeat split; eexists;
      try (apply (proj2 (stripped_or_spec _ v) H)).
    unfold RequestValidators.validate_description. now rewrite H.
Qed.

Lemma request_texts_are_stripped_witness :
  RequestValidators.validate_prompt "  show all users  " = Ok "show all users"
  /\ RequestValidators.validate_prompt "show all users" = Ok "show all users".
Proof.
  split; [reflexivity|].
  destruct (request_texts_are_stripped "  show all users  " eq_refl) as [H _].
  exact (proj2 (proj2 (H _ eq_refl))).
Defined.

(** *** The database name *)

Lemma keep_chars_all (keep : ascii -> bool) (s : string) :
  all_chars keep (RequestValidators.keep_chars keep s) = true.
Proof.
  induction s as [|c s IH]; [reflexivity|]. cbn [RequestValidators.keep_chars].
  destruct (keep c) eqn:E; [|exact IH]. simpl. now rewrite E, IH.
Qed.

Lemma keep_chars_fixed (keep : ascii -> bool) (s : string) :
  all_chars keep s = true -> RequestValidators.keep_chars keep s = s.
Proof.
  induction s as [|c s IH]; [reflexivity|]. simpl. intros H.
  apply andb_true_iff in H as [Hc Hs]. now rewrite Hc, (IH Hs).
Qed.

Lemma keep_chars_app (keep : ascii -> bool) (a b : string) :
  RequestValidators.keep_chars keep (a ++ b)
  = RequestValidators.keep_chars keep a ++ RequestValidators.keep_chars keep b.
Proof.
  induction a as [|c a IH]; [reflexivity|]. simpl. rewrite IH.
  now destruct (keep c).
Qed.

Lemma all_chars_impl (p q : ascii -> bool) (s : string) :
  (forall c, p c = true -> q c = true) ->
  all_chars p s = true -> all_chars q s = true.
Proof.
  intros Hpq. induction s as [|c s IH]; [reflexivity|]. simpl. intros H.
  apply andb_true_iff in H as [Hc Hs]. now rewrite (Hpq c Hc), (IH Hs).
Qed.

Lemma name_char_not_dot (c : ascii) :
  RequestValidators.name_char c = true -> not_dot (PyStr.lower_char c) = true.
Proof. destruct c as [[] [] [] [] [] [] [] []]; vm_compute; auto. Qed.

Lemma name_char_not_space (c : ascii) :
  RequestValidators.name_char c || Ascii.eqb c "." = true -> not_space c = true.
Proof. destruct c as [[] [] [] [] [] [] [] []]; vm_compute; auto. Qed.

Lemma lower_all_chars (p q : ascii -> bool) (s : string) :
  (forall c, p c = true -> q (PyStr.lower_char c) = true) ->
  all_chars p s = true -> all_chars q (PyStr.lower s) = true.
Proof.
  intros Hpq. induction s as [|c s IH]; [reflexivity|]. simpl. intros H.
  apply andb_true_iff in H as [Hc Hs]. unfold PyStr.lower in *. simpl.
  now rewrite (Hpq c Hc), (IH Hs).
Qed.

Lemma substring_all_chars (p : ascii -> bool) (s : string) :
  all_chars p s = true -> forall n m, all_chars p (substring n m s) = true.
Proof.
  induction s as [|c s IH]; intros H n m.
  - destruct n, m; reflexivity.
  - simpl in H. apply andb_true_iff in H as [Hc Hs].
    destruct n as [|n]; destruct m as [|m]; simpl; auto.
    now rewrite Hc, (IH Hs 0 m).
Qed.

Lemma endswith_needs_dot (s : string) :
  all_chars not_dot s = true -> RequestValidators.endswith s ".sqlite" = false.
Proof.
  intros H. unfold RequestValidators.endswith.
  destruct (String.eqb _ ".sqlite") eqn:E; [|apply andb_false_r].
  apply String.eqb_eq in E.
  pose proof (substring_all_chars _ _ H (String.length s - String.length ".sqlite")
                (String.length ".sqlite")) as Hs.
  rewrite E in Hs. discriminate Hs.
Qed.

Lemma validate_database_name_of (v : string) :
  PyStr.strip v <> "" -> clean_name v <> "" ->
  RequestValidators.validate_database_name v = Ok (clean_name v ++ ".sqlite").
Proof.
  unfold RequestValidators.validate_database_name, clean_name.
  destruct (PyStr.strip v) as [|c s] eqn:E; [congruence|]. intros _.
  pose proof (keep_chars_all RequestValidators.name_char (String c s)) as Hall.
  destruct (RequestValidators.keep_chars RequestValidators.name_char (String c s))
    as [|c' s'] eqn:Ek; [congruence|]. intros _.
  rewrite endswith_needs_dot by (exact (lower_all_chars _ _ _ name_char_not_dot Hall)).
  reflexivity.
Qed.

Lemma validate_database_name_clean (v : string) (n : string) :
  RequestValidators.validate_database_name v = Ok n ->
  clean_name v <> "" /\ n = clean_name v ++ ".sqlite".
Proof.
  intros H.
  assert (Hs : PyStr.strip v <> "").
  { intros E. unfold RequestValidators.validate_database_name in H.
    rewrite E in H. discriminate. }
  assert (Hc : clean_name v <> "").
  { intros E. unfold RequestValidators.validate_database_name in H.
    unfold clean_name in E. destruct (PyStr.strip v); [congruence|].
    rewrite E in H. discriminate. }
  rewrite (validate_database_name_of v Hs Hc) in H. inversion H. auto.
Qed.

(** X24.  An accepted ASCII database name is the kept characters (letters,
    digits, [_], [-]) followed by [.sqlite]: the dot is not a kept
    character, so the test for an existing [.sqlite] ending never holds
    and the suffix is always added.  Validating the answer again gives a
    longer name. *)
Theorem database_name_always_gets_the_suffix (v n : string) :
  PyStr.isascii v = true ->
  RequestValidators.validate_database_name v = Ok n ->
  clean_name v <> ""
  /\ all_chars RequestValidators.name_char (clean_name v) = true
  /\ n = clean_name v ++ ".sqlite"
  /\ RequestValidators.validate_database_name n
     = Ok (clean_name v ++ "sqlite" ++ ".sqlite").
Proof.
  intros _ H. destruct (validate_database_name_clean v n H) as [Hne Hn].
  pose proof (keep_chars_all RequestValidators.name_char (PyStr.strip v)) as Hall.
  fold (clean_name v) in Hall.
  split; [assumption|]. split; [assumption|]. split; [assumption|].
  assert (Hs : PyStr.strip n = n).
  { apply strip_fixed. subst n. rewrite all_chars_append. apply andb_true_iff.
    split; [|reflexivity].
    apply (all_chars_impl RequestValidators.name_char); [|assumption].
    intros c Hc. apply name_char_not_space. now rewrite Hc. }
  assert (Hk : clean_name n = clean_name v ++ "sqlite").
  { unfold clean_name at 1. rewrite Hs. subst n.
    rewrite keep_chars_app, (keep_chars_fixed _ _ Hall). reflexivity. }
  rewrite validate_database_name_of.
  - now rewrite Hk, string_app_assoc.
  - rewrite Hs. subst n. now apply string_app_nonempty; left.
  - rewrite Hk. now apply string_app_nonempty; left.
Qed.

Lemma database_name_always_gets_the_suffix_witness :
  RequestValidators.validate_database_name " my library.sqlite " = Ok "mylibrarysqlite.sqlite"
  /\ RequestValidators.validate_database_name "mylibrarysqlite.sqlite"
     = Ok "mylibrarysqlitesqlite.sqlite".
Proof.
  split; [reflexivity|].
  exact (proj2 (proj2 (proj2 (database_name_always_gets_the_suffix
                                " my library.sqlite " "mylibrarysqlite.sqlite"
                                eq_refl eq_refl)))).
Defined.

(** *** Related queries *)

Lemma suggestions_for_spec (schema : Schema) (parsed_info : ParsedQuery)
  (table_name : string) :
  exists more,
    RelatedQueries.suggestions_for (Some schema) parsed_info table_name
    = Ok (("How many records are in " ++ table_name ++ "?") :: more).
Proof.
  unfold RelatedQueries.suggestions_for. cbn [Py.bind].
  destruct (lookup table_name (sc_tables schema)) as [table_info|];
    destruct (negb (nonempty (filters parsed_info)));
    destruct (negb (QueryType_eqb (query_type parsed_info) COUNT));
    cbn [app]; eexists; reflexivity.
Qed.

(** X25.  [suggest_related_queries] reads the schema before it parses: it
    fails whenever the schema lookup raises, even for a prompt that names
    no table, and with a schema it fails when the parser raises.  With a
    schema and a parse it returns at most five suggestions, none exactly
    when the parse has no table, and otherwise the count question about
    one of the tables of the parse comes first. *)
Theorem related_queries_read_the_schema_first (w : World)
  (original_query database_id : string) :
  (forall e, get_database_schema w database_id = Raise e ->
     RelatedQueries.suggest_related_queries w original_query database_id
     = RelatedQueries.SuggestionsFailed (str_exn e))
  /\ (forall schema e,
        get_database_schema w database_id = Ok (Some schema) ->
        parse_query original_query = Raise e ->
        RelatedQueries.suggest_related_queries w original_query database_id
        = RelatedQueries.SuggestionsFailed (str_exn e))
  /\ (forall schema r,
        get_database_schema w database_id = Ok (Some schema) ->
        parse_query original_query = Ok r ->
        exists l,
          RelatedQueries.suggest_related_queries w original_query database_id
            = RelatedQueries.Suggested l
          /\ List.length l <= 5
          /\ (l = [] <-> tables r = [])
          /\ (tables r <> [] ->
              exists t, In t (tables r)
                /\ hd_error l = Some ("How many records are in " ++ t ++ "?"))).
Proof.
  unfold RelatedQueries.suggest_related_queries. split; [|split].
  - intros e ->. reflexivity.
  - intros schema e -> ->. reflexivity.
  - intros schema r -> ->. cbn [Py.bind].
    destruct (tables r) as [|t ts] eqn:Ht.
    + exists []. split; [reflexivity|].
      split; [cbn; lia|]. split; [tauto|]. intros H. now contradiction H.
    + destruct (suggestions_for_spec schema r t) as [more ->]. cbn [Py.bind].
      eexists. split; [reflexivity|].
      split; [apply firstn_le_length|].
      split; [split; discriminate|].
      intros _. exists t. split; [now left|reflexivity].
Qed.

(** *** The schema designer without a credential *)

Lemma schema_request_is_recognised (description : string) :
  mock_content ("Create a database schema for: " ++ description)
  = json_dumps mock_schema.
Proof.
  unfold mock_content. cbv zeta. rewrite lower_app.
  rewrite (contains_in_app_l (PyStr.lower "Create a database schema for: ")
             (PyStr.lower description) "database schema" eq_refl).
  reflexivity.
Qed.

Lemma schema_document_clean :
  SchemaDesigner.clean (PyStr.strip (json_dumps mock_schema)) = json_dumps mock_schema.
Proof. vm_compute. reflexivity. Qed.

(** X26.  Without an API key the schema designer ignores the description:
    its request always contains [database schema], the mock answers with
    its schema document, and the outcome is what [json.loads] makes of
    that document. *)
Theorem offline_schema_ignores_the_description (w : World) (description : string) :
  falsy (OPENROUTER_API_KEY w) = true ->
  SchemaDesigner.generate_database_schema w description
  = schema_outcome w (json_dumps mock_schema).
Proof.
  intros Hk. unfold SchemaDesigner.generate_database_schema, schema_outcome.
  rewrite gateway_without_credentials by auto. cbn [Py.bind].
  unfold _get_mock_response.
  rewrite user_message_of_pair, schema_request_is_recognised, content_of_reply.
  cbn [Py.bind]. rewrite schema_document_clean.
  destruct (json_loads w (json_dumps mock_schema)) as [v|e]; [reflexivity|].
  now destruct (exn_class e =? "JSONDecodeError").
Qed.

Lemma offline_schema_ignores_the_description_witness :
  SchemaDesigner.generate_database_schema offline_with_json
    "a library with members and loans"
  = SchemaDesigner.SchemaGenerated (value_of_jlit mock_schema).
Proof.
  exact (offline_schema_ignores_the_description offline_with_json
           "a library with members and loans" eq_refl).
Defined.

(** ** Statements on a registered database *)

(** *** [execute_query] *)

Lemma execute_query_loaded (d : SQLitePaths.Disk) (g : SQLitePaths.Engine)
  (st : DatabaseModel.Store) (id query : string) (params : option (list SqlValue))
  (info : DatabaseModel.DatabaseInfo) (file_path : string) :
  lookup id (DatabaseModel._database_registry st) = Some info ->
  lookup id (DatabaseModel.database_paths st) = Some file_path ->
  DatabaseModel.execute_query d g st id query params
  = (answer_on g file_path query params,
     instance
       (SQLitePaths.dict_set id
          (DatabaseModel.with_last_accessed info (SQLitePaths.now d 0))
          (DatabaseModel._database_registry st))
       (DatabaseModel.database_paths st)).
Proof.
  intros Hr Hp. unfold DatabaseModel.execute_query, SQLitePaths.dict_mem.
  rewrite Hr, Hp. cbn [negb]. unfold SQLitePaths.execute_query. now rewrite Hp.
Qed.

Lemma execute_query_reloads (d : SQLitePaths.Disk) (g : SQLitePaths.Engine)
  (st : DatabaseModel.Store) (id query : string) (params : option (list SqlValue))
  (info : DatabaseModel.DatabaseInfo) (tables : list string) :
  lookup id (DatabaseModel._database_registry st) = Some info ->
  lookup id (DatabaseModel.database_paths st) = None ->
  SQLitePaths.basename d (DatabaseModel.di_path info) = id ->
  SQLitePaths.path_exists d (DatabaseModel.di_path info) = true ->
  SQLitePaths.table_names d (DatabaseModel.di_path info) = Ok tables ->
  DatabaseModel.execute_query d g st id query params
  = (answer_on g (DatabaseModel.di_path info) query params,
     instance
       (SQLitePaths.dict_set id
          (DatabaseModel.with_last_accessed info (SQLitePaths.now d 0))
          (DatabaseModel._database_registry st))
       (SQLitePaths.dict_set id (DatabaseModel.di_path info)
          (DatabaseModel.database_paths st))).
Proof.
  intros Hr Hp Hb He Ht.
  unfold DatabaseModel.execute_query, SQLitePaths.dict_mem, SQLitePaths.load_database.
  rewrite Hr, Hp, He, Ht, Hb. cbn [negb Py.bind snd].
  unfold SQLitePaths.execute_query. now rewrite lookup_dict_set, String.eqb_refl.
Qed.

Lemma accessed_registry_consistent (d : SQLitePaths.Disk)
  (registry : DatabaseModel.Registry) (id : string)
  (info : DatabaseModel.DatabaseInfo) (t : Z) :
  lookup id registry = Some info ->
  (forall k i, In (k, i) registry ->
     DatabaseModel.di_id i = k /\ SQLitePaths.basename d (DatabaseModel.di_path i) = k) ->
  forall k i,
    In (k, i) (SQLitePaths.dict_set id (DatabaseModel.with_last_accessed info t) registry) ->
    DatabaseModel.di_id i = k /\ SQLitePaths.basename d (DatabaseModel.di_path i) = k.
Proof.
  intros Hr Hc k i Hin. apply in_dict_set in Hin as [E|Hin]; [|eauto].
  inversion E; subst. exact (Hc _ _ (lookup_in _ _ _ Hr)).
Qed.

(** X27.  In a store whose identifiers are base names, [execute_query]
    refuses an identifier that is not registered and leaves the store as
    it is; otherwise it reaches the file: when the instance's manager
    lacks the path, it is loaded again from the registry entry (the file
    has to exist and to be readable), it is then kept under the same
    identifier, and the answer is the engine's on that file with the
    execution time; the manager's own [not loaded] error cannot occur.
    The registry changes in one place: the entry of the identifier gets
    the first reading of the clock as its [last_accessed]. *)
Theorem registered_database_is_reachable (d : SQLitePaths.Disk)
  (g : SQLitePaths.Engine) (st : DatabaseModel.Store) (id query : string)
  (params : option (list SqlValue)) :
  consistent d st ->
  (lookup id (DatabaseModel._database_registry st) = None ->
   DatabaseModel.execute_query d g st id query params
   = (Raise (Exn "ValueError" ("Database " ++ id ++ " not loaded")), st))
  /\ (forall info,
        lookup id (DatabaseModel._database_registry st) = Some info ->
        (SQLitePaths.dict_mem id (DatabaseModel.database_paths st) = false ->
         SQLitePaths.path_exists d (DatabaseModel.di_path info) = true
         /\ exists tables,
              SQLitePaths.table_names d (DatabaseModel.di_path info) = Ok tables) ->
        exists file_path st',
          DatabaseModel.execute_query d g st id query params
            = (answer_on g file_path query params, st')
          /\ lookup id (DatabaseModel.database_paths st') = Some file_path
          /\ SQLitePaths.basename d file_path = id
          /\ DatabaseModel._database_registry st'
             = SQLitePaths.dict_set id
                 (DatabaseModel.with_last_accessed info (SQLitePaths.now d 0))
                 (DatabaseModel._database_registry st)
          /\ consistent d st').
Proof.
  intros Hc. split.
  - intros H. unfold DatabaseModel.execute_query. now rewrite H.
  - intros info Hr Hfile.
    destruct (lookup id (DatabaseModel.database_paths st)) as [file_path|] eqn:Hp.
    + eexists file_path, _.
      rewrite (execute_query_loaded d g st id query params info file_path Hr Hp).
      split; [reflexivity|].
      cbn [instance DatabaseModel.database_paths DatabaseModel._database_registry].
      split; [assumption|].
      split; [exact (proj1 Hc _ _ (lookup_in _ _ _ Hp))|]. split; [reflexivity|].
      destruct Hc as [Hc1 Hc2]. split; cbn [DatabaseModel.database_paths
                                            DatabaseModel._database_registry].
      * exact Hc1.
      * exact (accessed_registry_consistent d _ id info _ Hr Hc2).
    + destruct Hfile as [He [tables Ht]];
        [unfold SQLitePaths.dict_mem; now rewrite Hp|].
      pose proof (proj2 (proj2 Hc _ _ (lookup_in _ _ _ Hr))) as Hb.
      eexists _, _.
      rewrite (execute_query_reloads d g st id query params info tables Hr Hp Hb He Ht).
      split; [reflexivity|].
      cbn [instance DatabaseModel.database_paths DatabaseModel._database_registry].
      split; [now rewrite lookup_dict_set, String.eqb_refl|].
      split; [assumption|]. split; [reflexivity|].
      destruct Hc as [Hc1 Hc2]. split; cbn [DatabaseModel.database_paths
                                            DatabaseModel._database_registry].
      * intros k p Hin. apply in_dict_set in Hin as [E|Hin]; [|eauto].
        injection E as -> ->. exact Hb.
      * exact (accessed_registry_consistent d _ id info _ Hr Hc2).
Qed.

Lemma library_registered_consistent :
  consistent one_file (instance [("library.db", library_info)] []).
Proof.
  split; cbn [instance DatabaseModel.database_paths DatabaseModel._database_registry].
  - intros k p [].
  - intros k info [H|[]]. inversion H; subst. split; reflexivity.
Qed.

Lemma registered_database_is_reachable_witness :
  exists st',
    DatabaseModel.execute_query one_file members_engine
      (instance [("library.db", library_info)] []) "library.db"
      "SELECT * FROM members" None
    = (answer_on members_engine "/data/library.db" "SELECT * FROM members" None, st')
    /\ lookup "library.db" (DatabaseModel.database_paths st') = Some "/data/library.db"
    /\ DatabaseModel._database_registry st'
       = [("library.db",
           DatabaseModel.with_last_accessed library_info 63900000000000000%Z)].
Proof.
  destruct (proj2 (registered_database_is_reachable one_file members_engine
                     (instance [("library.db", library_info)] []) "library.db"
                     "SELECT * FROM members" None library_registered_consistent)
              library_info eq_refl
              ltac:(intros _; split; [reflexivity|eexists; reflexivity]))
    as [file_path [st' [H1 [H2 [_ [H3 _]]]]]].
  exists st'.
  assert (E : file_path = "/data/library.db").
  { vm_compute in H1. inversion H1; subst. vm_compute in H2. now inversion H2. }
  subst file_path. split; [assumption|]. split; [assumption|]. exact H3.
Defined.
